(** * The Llama2 notebook's forward pass, embedded in Rocq

    Source: [src/models/llama2/scrapwork/llama2.ipynb].

    The definitions come first.

    - [Torch]: the PyTorch operations the notebook calls, as functions on
      tensors.  A tensor is a shape together with a function from indices to
      entries; every operation checks shapes the way PyTorch does and raises
      otherwise.  Entries are exact real numbers, and [-inf] appears only
      where the notebook writes it (the masked attention scores): this is
      the arithmetic of the code on finite entries, up to rounding and as
      long as nothing overflows.
    - The notebook's classes and functions ([RMSNorm], [FeedForward],
      [precompute_rope_params], [compute_rope], [MultiHeadedAttention],
      [TransformerBlock], [Llama2], [model_memory_size]), one definition per
      source function and one bind of the error monad per line of Python.  A
      constructor takes the values it would draw for its weights as an
      argument.  [nn.Embedding] and [nn.Sequential] are modelled as far as
      [Llama2] uses them, and [nn.Module_] holds what [model_memory_size]
      asks of a module: its parameters and its buffers.
    - [Spec]: the forward pass entry by entry, written from the
      specification's sentences.
    - [Heap] and [HeapModel]: the forward functions once more, run against a
      store of tensor storages, with views aliasing their base and
      [masked_fill_] writing in place.
    - [Float]: the forward functions once more, over float values with
      infinities, NaN and overflow, for what depends on them: whether a
      masked position can reach the output.
    - [Example]: the settings of the notebook's walk-through cells.

    The facts follow: the operations at the shapes the notebook uses, the
    forward functions against [Spec], the forward functions on the store
    against the pure ones, the attention layer over floats, the claims, and
    further properties of the code (the whole model, its constructor, its
    size, errors and edge cases of the layers, the block and the model over
    floats).

    The tokenizer class, the download of its file, the choice of a device
    and the text generation of the last cell call libraries and a module
    outside the notebook; they are not modelled. *)

From Stdlib Require Import String Reals Lra Lia Arith Bool List.
Import ListNotations.

Set Implicit Arguments.

(** ** Exceptions and the error monad *)

Inductive exn : Type :=
| AssertionError (msg : string)
| ZeroDivisionError
| ValueError
| IndexError
| RuntimeError
| Unsupported.

Inductive result (A : Type) : Type :=
| Ok (a : A)
| Raise (e : exn).

Arguments Ok {A} a.
Arguments Raise {A} e.

Definition bind {A B : Type} (m : result A) (k : A -> result B) : result B :=
  match m with
  | Ok a => k a
  | Raise e => Raise e
  end.

Declare Scope result_scope.
Delimit Scope result_scope with result.
Notation "x <- m ;; k" := (bind m (fun x => k))
  (at level 61, m at next level, right associativity) : result_scope.
Notation "' p <- m ;; k" := (bind m (fun x => match x with p => k end))
  (at level 61, p pattern, m at next level, right associativity) : result_scope.
Open Scope result_scope.

(** Python's [assert c, msg]. *)
Definition py_assert (c : bool) (msg : string) : result unit :=
  if c then Ok tt else Raise (AssertionError msg).

(** Python's [a % b] on non-negative integers. *)
Definition py_mod (a b : nat) : result nat :=
  if b =? 0 then Raise ZeroDivisionError else Ok (a mod b).

(** Python's [a // b] on non-negative integers. *)
Definition py_floordiv (a b : nat) : result nat :=
  if b =? 0 then Raise ZeroDivisionError else Ok (a / b).

(** Results that are not a failed [assert]. *)
Definition assertion_free {A : Type} (r : result A) : Prop :=
  match r with
  | Raise (AssertionError _) => False
  | _ => True
  end.

(** ** Tensors *)

Record Tensor (A : Type) : Type := mkTensor {
  shape : list nat;
  elem : list nat -> A
}.

Arguments mkTensor {A} shape elem.

(** [idx] addresses an entry of a tensor of shape [s]. *)
Definition valid (s idx : list nat) : Prop := Forall2 lt idx s.

(** Finite sums [f 0 + ... + f (n-1)]. *)
Fixpoint Rsum (n : nat) (f : nat -> R) : R :=
  match n with
  | 0 => 0%R
  | S n' => (Rsum n' f + f n')%R
  end.

(** Extended scores: a real number or the [-inf] written by [masked_fill_]. *)
Inductive xreal : Type :=
| Fin (r : R)
| NegInf.

(** Entry-wise descriptions: [x] has the given shape and its entries are
    those of [f]. *)
Definition is2 {A : Type} (x : Tensor A) (d0 d1 : nat) (f : nat -> nat -> A) : Prop :=
  shape x = [d0; d1] /\
  forall i j, i < d0 -> j < d1 -> elem x [i; j] = f i j.

Definition is3 {A : Type} (x : Tensor A) (d0 d1 d2 : nat) (f : nat -> nat -> nat -> A)
  : Prop :=
  shape x = [d0; d1; d2] /\
  forall i j k, i < d0 -> j < d1 -> k < d2 -> elem x [i; j; k] = f i j k.

Definition is4 {A : Type} (x : Tensor A) (d0 d1 d2 d3 : nat)
  (f : nat -> nat -> nat -> nat -> A) : Prop :=
  shape x = [d0; d1; d2; d3] /\
  forall i j k l, i < d0 -> j < d1 -> k < d2 -> l < d3 -> elem x [i; j; k; l] = f i j k l.

Module Torch.

(** *** Index arithmetic *)

Definition numel (s : list nat) : nat := fold_right Nat.mul 1 s.

(** Row-major offset of [idx] in a contiguous tensor of shape [s]. *)
Fixpoint ravel_from (acc : nat) (s idx : list nat) : nat :=
  match s, idx with
  | d :: s', i :: idx' => ravel_from (acc * d + i) s' idx'
  | _, _ => acc
  end.

Definition ravel (s idx : list nat) : nat := ravel_from 0 s idx.

Fixpoint unravel_rev (rs : list nat) (off : nat) : list nat :=
  match rs with
  | [] => []
  | d :: rs' => (off mod d) :: unravel_rev rs' (off / d)
  end.

(** The index of offset [off] in a contiguous tensor of shape [s]. *)
Definition unravel (s : list nat) (off : nat) : list nat :=
  rev (unravel_rev (rev s) off).

(** Replace position [d] of an index. *)
Fixpoint upd (d v : nat) (l : list nat) : list nat :=
  match l, d with
  | [], _ => []
  | _ :: l', 0 => v :: l'
  | a :: l', S d' => a :: upd d' v l'
  end.

Definition swap (d1 d2 : nat) (l : list nat) : list nat :=
  upd d1 (nth d2 l 0) (upd d2 (nth d1 l 0) l).

Fixpoint insert_at (d v : nat) (l : list nat) : list nat :=
  match d, l with
  | 0, _ => v :: l
  | S d', a :: l' => a :: insert_at d' v l'
  | S _, [] => [v]
  end.

Fixpoint remove_at (d : nat) (l : list nat) : list nat :=
  match d, l with
  | _, [] => []
  | 0, _ :: l' => l'
  | S d', a :: l' => a :: remove_at d' l'
  end.

Definition set_last (idx : list nat) (j : nat) : list nat :=
  removelast idx ++ [j].

(** *** Broadcasting *)

Definition bdim (a b : nat) : option nat :=
  if a =? b then Some a
  else if a =? 1 then Some b
  else if b =? 1 then Some a
  else None.

Fixpoint bshape_rev (r1 r2 : list nat) : option (list nat) :=
  match r1, r2 with
  | [], _ => Some r2
  | _, [] => Some r1
  | a :: r1', b :: r2' =>
      match bdim a b, bshape_rev r1' r2' with
      | Some d, Some r => Some (d :: r)
      | _, _ => None
      end
  end.

(** [torch.broadcast_shapes]: shapes are aligned at their last dimension. *)
Definition broadcast_shapes (s1 s2 : list nat) : option (list nat) :=
  option_map (@rev nat) (bshape_rev (rev s1) (rev s2)).

Fixpoint bidx_rev (rs ri : list nat) : list nat :=
  match rs, ri with
  | d :: rs', i :: ri' => (if d =? 1 then 0 else i) :: bidx_rev rs' ri'
  | _, _ => []
  end.

(** The entry of an operand of shape [s] that lands at [idx] of the
    broadcast result. *)
Definition bidx (s idx : list nat) : list nat :=
  rev (bidx_rev (rev s) (rev idx)).

(** *** Creation *)

Definition ones (s : list nat) : Tensor R := mkTensor s (fun _ => 1%R).

(** [torch.arange(start, stop, step)] for a positive step. *)
Definition arange (start stop step : nat) : Tensor nat :=
  mkTensor [(stop - start + (step - 1)) / step] (fun idx => start + step * nth 0 idx 0).

(** [Tensor.float()] on an integer tensor. *)
Definition float (x : Tensor nat) : Tensor R :=
  mkTensor (shape x) (fun idx => INR (elem x idx)).

(** [Tensor.bool()] on a real tensor: non-zero is [True]. *)
Definition bool_ (x : Tensor R) : Tensor bool :=
  mkTensor (shape x) (fun idx => if Req_dec_T (elem x idx) 0 then false else true).

(** *** Elementwise operations *)

Definition map {A B : Type} (f : A -> B) (x : Tensor A) : Tensor B :=
  mkTensor (shape x) (fun idx => f (elem x idx)).

Definition binop {A B C : Type} (f : A -> B -> C) (x : Tensor A) (y : Tensor B)
  : result (Tensor C) :=
  match broadcast_shapes (shape x) (shape y) with
  | Some s =>
      Ok (mkTensor s (fun idx =>
            f (elem x (bidx (shape x) idx)) (elem y (bidx (shape y) idx))))
  | None => Raise RuntimeError
  end.

Definition add := binop Rplus.
Definition mul := binop Rmult.
Definition neg := map Ropp.
Definition pow (x : Tensor R) (n : nat) : Tensor R := map (fun v => (v ^ n)%R) x.
Definition rsqrt := map (fun v => (1 / sqrt v)%R).
Definition cos := map Rtrigo_def.cos.
Definition sin := map Rtrigo_def.sin.
Definition add_scalar (x : Tensor R) (c : R) := map (fun v => (v + c)%R) x.
Definition div_scalar (x : Tensor R) (c : R) := map (fun v => (v / c)%R) x.
Definition scalar_div (c : R) (x : Tensor R) := map (fun v => (c / v)%R) x.
(** [c ** x] for a Python number [c].  [Rpower] is the power function for a
    positive [c] only: for [c <= 0] the code computes 0, an infinity or NaN
    where [Rpower] is 1, and what is proved of the values of a power assumes
    a positive base. *)
Definition scalar_pow (c : R) (x : Tensor R) := map (fun v => Rpower c v) x.

Definition sigmoid (z : R) : R := (1 / (1 + exp (- z)))%R.
(** [nn.SiLU]. *)
Definition silu := map (fun z => (z * sigmoid z)%R).

(** [Tensor.to(dtype=...)]: entries are exact reals, a cast changes nothing. *)
Definition to_dtype (x : Tensor R) : Tensor R := x.

(** *** Reductions over the last dimension *)

(** [x.mean(dim=-1, keepdim=True)]. *)
Definition mean_last_keepdim (x : Tensor R) : Tensor R :=
  match shape x with
  | [] => x
  | _ =>
      let d := last (shape x) 0 in
      mkTensor (removelast (shape x) ++ [1])
        (fun idx => (Rsum d (fun j => elem x (set_last idx j)) / INR d)%R)
  end.

(** *** Indexing, slicing and shape changes *)

Fixpoint shape_eqb (s1 s2 : list nat) : bool :=
  match s1, s2 with
  | [], [] => true
  | a :: s1', b :: s2' => (a =? b) && shape_eqb s1' s2'
  | _, _ => false
  end.

(** [x[:k]] along dimension [d]. *)
Definition slice_to {A : Type} (d k : nat) (x : Tensor A) : result (Tensor A) :=
  if d <? length (shape x)
  then Ok (mkTensor (upd d (Nat.min k (nth d (shape x) 0)) (shape x)) (elem x))
  else Raise IndexError.

(** [x[k:]] along dimension [d]. *)
Definition slice_from {A : Type} (d k : nat) (x : Tensor A) : result (Tensor A) :=
  if d <? length (shape x)
  then Ok (mkTensor (upd d (nth d (shape x) 0 - k) (shape x))
             (fun idx => elem x (upd d (nth d idx 0 + k) idx)))
  else Raise IndexError.

(** The index of the last dimension, as [dim=-1] and [...] resolve it. *)
Definition last_dim {A : Type} (x : Tensor A) : nat := length (shape x) - 1.

(** [x[:k, :]]: two index entries need two dimensions. *)
Definition rows_to {A : Type} (k : nat) (x : Tensor A) : result (Tensor A) :=
  if 2 <=? length (shape x) then slice_to 0 k x else Raise IndexError.

(** [x.unsqueeze(d)], also written [x[None, :]] and [x[:, None]]. *)
Definition unsqueeze {A : Type} (d : nat) (x : Tensor A) : result (Tensor A) :=
  if d <=? length (shape x)
  then Ok (mkTensor (insert_at d 1 (shape x)) (fun idx => elem x (remove_at d idx)))
  else Raise IndexError.

(** [x.transpose(d1, d2)]. *)
Definition transpose {A : Type} (d1 d2 : nat) (x : Tensor A) : result (Tensor A) :=
  if (d1 <? length (shape x)) && (d2 <? length (shape x))
  then Ok (mkTensor (swap d1 d2 (shape x)) (fun idx => elem x (swap d1 d2 idx)))
  else Raise IndexError.

(** [x.view(s)] and [x.reshape(s)]: the entries in row-major order, under a
    new shape with as many entries.  (A [view] of a tensor whose strides do
    not fit raises in PyTorch; the notebook calls it on the contiguous output
    of a linear layer only.) *)
Definition view {A : Type} (x : Tensor A) (s : list nat) : result (Tensor A) :=
  if numel s =? numel (shape x)
  then Ok (mkTensor s (fun idx => elem x (unravel (shape x) (ravel s idx))))
  else Raise RuntimeError.

Definition reshape {A : Type} (x : Tensor A) (s : list nat) : result (Tensor A) :=
  view x s.

(** [torch.cat((a, b), dim=d)].  A tensor of shape [(0,)] is skipped, as
    PyTorch does. *)
Definition cat {A : Type} (a b : Tensor A) (d : nat) : result (Tensor A) :=
  if shape_eqb (shape a) [0] then Ok b
  else if shape_eqb (shape b) [0] then Ok a
  else if negb (d <? length (shape a)) then Raise IndexError
  else if shape_eqb (upd d 0 (shape a)) (upd d 0 (shape b))
  then
    let da := nth d (shape a) 0 in
    Ok (mkTensor (upd d (da + nth d (shape b) 0) (shape a))
          (fun idx => if nth d idx 0 <? da then elem a idx
                      else elem b (upd d (nth d idx 0 - da) idx)))
  else Raise RuntimeError.

(** [torch.triu(x, diagonal=k)] for [k >= 0]: keeps the entries with
    [row + k <= column] of the last two dimensions. *)
Definition triu (x : Tensor R) (diagonal : nat) : result (Tensor R) :=
  let r := length (shape x) in
  if 2 <=? r
  then Ok (mkTensor (shape x)
             (fun idx => if nth (r - 2) idx 0 + diagonal <=? nth (r - 1) idx 0
                         then elem x idx else 0%R))
  else Raise RuntimeError.

(** *** Linear algebra *)

(** [F.linear(x, W, b)], that is [x @ W.T + b]. *)
Definition linear (x W : Tensor R) (b : option (Tensor R)) : result (Tensor R) :=
  match shape W, shape x with
  | [out_f; in_f], _ :: _ =>
      if last (shape x) 0 =? in_f
      then
        let y := mkTensor (removelast (shape x) ++ [out_f])
                   (fun idx => Rsum in_f (fun k =>
                      (elem x (set_last idx k) * elem W [last idx 0%nat; k])%R)) in
        match b with
        | None => Ok y
        | Some bv => add y bv
        end
      else Raise RuntimeError
  | _, _ => Raise RuntimeError
  end.

(** [x @ y] for operands of at least two dimensions: a matrix product over
    the last two, broadcast over the others.  PyTorch gives one-dimensional
    operands a vector meaning, which the notebook never uses and the model
    reports as [Unsupported].  Over the reals a factor 0 makes a product 0;
    [Float.matmul] is the product where [0 * inf] is NaN. *)
Definition matmul (x y : Tensor R) : result (Tensor R) :=
  let rx := length (shape x) in
  let ry := length (shape y) in
  if (2 <=? rx) && (2 <=? ry)
  then
    let bx := firstn (rx - 2) (shape x) in
    let by_ := firstn (ry - 2) (shape y) in
    let k := nth (rx - 1) (shape x) 0 in
    if k =? nth (ry - 2) (shape y) 0
    then
      match broadcast_shapes bx by_ with
      | Some bs =>
          Ok (mkTensor (bs ++ [nth (rx - 2) (shape x) 0; nth (ry - 1) (shape y) 0])
                (fun idx =>
                   let bi := firstn (length idx - 2) idx in
                   let i := nth (length idx - 2) idx 0 in
                   let j := nth (length idx - 1) idx 0 in
                   Rsum k (fun l =>
                     (elem x (bidx bx bi ++ [i; l]) * elem y (bidx by_ bi ++ [l; j]))%R)))
      | None => Raise RuntimeError
      end
    else Raise RuntimeError
  else Raise Unsupported.

(** *** Masking and softmax *)

(** [x.masked_fill_(mask, v)]: the mask must broadcast to the shape of [x]. *)
Definition masked_fill (x : Tensor R) (mask : Tensor bool) (v : xreal)
  : result (Tensor xreal) :=
  match broadcast_shapes (shape x) (shape mask) with
  | Some s =>
      if shape_eqb s (shape x)
      then Ok (mkTensor (shape x)
                 (fun idx => if elem mask (bidx (shape mask) idx) then v
                             else Fin (elem x idx)))
      else Raise RuntimeError
  | None => Raise RuntimeError
  end.

(** Division of a score by a non-negative number: [-inf] stays [-inf]. *)
Definition xdiv (c : R) (v : xreal) : xreal :=
  match v with
  | Fin r => Fin (r / c)
  | NegInf => NegInf
  end.

Definition xdiv_scalar (x : Tensor xreal) (c : R) : Tensor xreal := map (xdiv c) x.

(** [exp] on scores: [exp(-inf) = 0]. *)
Definition xexp (v : xreal) : R :=
  match v with
  | Fin r => exp r
  | NegInf => 0%R
  end.

(** [torch.softmax(x, dim=-1)]. *)
Definition softmax_last (x : Tensor xreal) : Tensor R :=
  match shape x with
  | [] => mkTensor [] (fun idx => (xexp (elem x idx) / xexp (elem x idx))%R)
  | _ =>
      let d := last (shape x) 0 in
      mkTensor (shape x)
        (fun idx => (xexp (elem x idx) / Rsum d (fun j => xexp (elem x (set_last idx j))))%R)
  end.

(** [x.size(-1)]. *)
Definition size_last {A : Type} (x : Tensor A) : result nat :=
  match shape x with
  | [] => Raise IndexError
  | _ => Ok (last (shape x) 0)
  end.

(** [a, b, c = x.shape] and [a, b, c, d = x.shape]. *)
Definition unpack3 (s : list nat) : result (nat * nat * nat) :=
  match s with
  | [a; b; c] => Ok (a, b, c)
  | _ => Raise ValueError
  end.

Definition unpack4 (s : list nat) : result (nat * nat * nat * nat) :=
  match s with
  | [a; b; c; d] => Ok (a, b, c, d)
  | _ => Raise ValueError
  end.

(** *** Embedding lookup *)

(** Every index of a tensor of shape [s], in row-major order. *)
Fixpoint indices (s : list nat) : list (list nat) :=
  match s with
  | [] => [[]]
  | d :: s' => flat_map (fun i => List.map (cons i) (indices s')) (seq 0 d)
  end.

(** [F.embedding(input, weight)]: row [input[idx]] of [weight] for every
    index of [input]; an entry of [input] outside [0, weight.size(0))] is an
    [IndexError]. *)
Definition embedding (input : Tensor Z) (weight : Tensor R) : result (Tensor R) :=
  match shape weight with
  | [n; d] =>
      if forallb (fun idx => (0 <=? elem input idx)%Z && (elem input idx <? Z.of_nat n)%Z)
           (indices (shape input))
      then Ok (mkTensor (shape input ++ [d])
                 (fun idx => elem weight [Z.to_nat (elem input (removelast idx)); last idx 0]))
      else Raise IndexError
  | _ => Raise RuntimeError
  end.

(** *** Element types *)

Inductive dtype : Type :=
| float32
| bfloat16
| float16
| float64.

(** [torch.tensor(0, dtype=d).element_size()], in bytes. *)
Definition element_size (d : dtype) : nat :=
  match d with
  | float32 => 4
  | bfloat16 => 2
  | float16 => 2
  | float64 => 8
  end.

End Torch.

(** ** nn.Linear *)

(** The values a constructor draws for a layer's parameters. *)
Record LinearInit : Type := mkLinearInit {
  w0 : list nat -> R;
  b0 : list nat -> R
}.

Module Linear.

Record t : Type := mk {
  in_features : nat;
  out_features : nat;
  weight : Tensor R;
  bias : option (Tensor R)
}.

Definition init (in_features out_features : nat) (bias : bool) (i : LinearInit) : t :=
  mk in_features out_features
     (mkTensor [out_features; in_features] (w0 i))
     (if bias then Some (mkTensor [out_features] (b0 i)) else None).

Definition forward (self : t) (x : Tensor R) : result (Tensor R) :=
  Torch.linear x (weight self) (bias self).

(** The shapes [init] gives the parameters. *)
Definition wf (self : t) : Prop :=
  shape (weight self) = [out_features self; in_features self] /\
  match bias self with
  | Some b => shape b = [out_features self]
  | None => True
  end.

End Linear.

(** ** Configuration ([ExConfig], [Llama2Config7B]); the [dtype] field has no
    counterpart over exact reals. *)
Record Config : Type := mkConfig {
  vocab_size : nat;
  context_length : nat;
  emb_dim : nat;
  n_heads : nat;
  ff_bias : bool;
  n_layers : nat;
  hidden_dim : nat
}.

(** ** RMSNorm *)

Module RMSNorm.

Record t : Type := mk {
  eps : R;
  embd_dim : nat;
  weight : Tensor R
}.

Definition default_eps : R := (1 / 100000)%R.

Definition init (embd_dim : nat) (eps : R) : t :=
  mk eps embd_dim (Torch.ones [embd_dim]).

Definition forward (self : t) (x : Tensor R) : result (Tensor R) :=
  let means := Torch.mean_last_keepdim (Torch.pow x 2) in
  x_norm <- Torch.mul x (Torch.rsqrt (Torch.add_scalar means (eps self))) ;;
  y <- Torch.mul x_norm (weight self) ;;
  Ok (Torch.to_dtype y).

Definition wf (self : t) : Prop := shape (weight self) = [embd_dim self].

End RMSNorm.

(** ** FeedForward *)

Module FeedForward.

Record t : Type := mk {
  fc1 : Linear.t;
  fc2 : Linear.t;
  fc3 : Linear.t
}.

Definition init (config : Config) (i1 i2 i3 : LinearInit) : t :=
  mk (Linear.init (emb_dim config) (hidden_dim config) (ff_bias config) i1)
     (Linear.init (emb_dim config) (hidden_dim config) (ff_bias config) i2)
     (Linear.init (hidden_dim config) (emb_dim config) (ff_bias config) i3).

Definition forward (self : t) (x : Tensor R) : result (Tensor R) :=
  x_fc1 <- Linear.forward (fc1 self) x ;;
  x_fc2 <- Linear.forward (fc2 self) x ;;
  x <- Torch.mul (Torch.silu x_fc1) x_fc2 ;;
  Linear.forward (fc3 self) x.

Definition wf (self : t) (emb_dim hidden_dim : nat) : Prop :=
  Linear.wf (fc1 self) /\ Linear.wf (fc2 self) /\ Linear.wf (fc3 self) /\
  Linear.in_features (fc1 self) = emb_dim /\ Linear.out_features (fc1 self) = hidden_dim /\
  Linear.in_features (fc2 self) = emb_dim /\ Linear.out_features (fc2 self) = hidden_dim /\
  Linear.in_features (fc3 self) = hidden_dim /\ Linear.out_features (fc3 self) = emb_dim.

End FeedForward.

(** ** Rotary position embedding *)

(** [theta_base ** t] is modelled by [Rpower], which is the power function
    for a positive base. *)
Definition precompute_rope_params (head_dim : nat) (theta_base : R) (context_length : nat)
  : result (Tensor R * Tensor R) :=
  _ <- py_assert (head_dim mod 2 =? 0) "Embedding dimension must be even" ;;
  ar <- Torch.slice_to 0 (head_dim / 2) (Torch.arange 0 head_dim 2) ;;
  let inv_freq :=
    Torch.scalar_div 1 (Torch.scalar_pow theta_base
                          (Torch.div_scalar (Torch.float ar) (INR head_dim))) in
  let positions := Torch.arange 0 context_length 1 in
  pos <- Torch.unsqueeze 1 positions ;;
  freq <- Torch.unsqueeze 0 inv_freq ;;
  angles <- Torch.mul (Torch.float pos) freq ;;
  angles <- Torch.cat angles angles 1 ;;
  let cos := Torch.cos angles in
  let sin := Torch.sin angles in
  Ok (cos, sin).

Definition default_theta_base : R := 10000%R.

Definition compute_rope (x cos sin : Tensor R) : result (Tensor R) :=
  '(batch_size, num_heads, seq_len, head_dim) <- Torch.unpack4 (shape x) ;;
  _ <- py_assert (head_dim mod 2 =? 0) "Head dimension must be even" ;;
  x1 <- Torch.slice_to (Torch.last_dim x) (head_dim / 2) x ;;
  x2 <- Torch.slice_from (Torch.last_dim x) (head_dim / 2) x ;;
  rotated <- Torch.cat (Torch.neg x2) x1 (Torch.last_dim x) ;;
  cos <- Torch.rows_to seq_len cos ;;
  cos <- Torch.unsqueeze 0 cos ;;
  cos <- Torch.unsqueeze 0 cos ;;
  sin <- Torch.rows_to seq_len sin ;;
  sin <- Torch.unsqueeze 0 sin ;;
  sin <- Torch.unsqueeze 0 sin ;;
  xc <- Torch.mul x cos ;;
  rs <- Torch.mul rotated sin ;;
  x_rotated <- Torch.add xc rs ;;
  Ok (Torch.to_dtype x_rotated).

(** ** MultiHeadedAttention *)

Module MultiHeadedAttention.

Record t : Type := mk {
  d_out : nat;
  num_heads : nat;
  head_dim : nat;
  W_query : Linear.t;
  W_key : Linear.t;
  W_value : Linear.t;
  out_proj : Linear.t;
  mask : Tensor R;
  cos : Tensor R;
  sin : Tensor R
}.

Definition init (d_in d_out context_length num_heads : nat) (iq ik iv io : LinearInit)
  : result t :=
  r <- py_mod d_out num_heads ;;
  _ <- py_assert (r =? 0) "The output dimension (d_out) mus be divisible by n_heads" ;;
  head_dim <- py_floordiv d_out num_heads ;;
  let W_query := Linear.init d_in d_out false iq in
  let W_key := Linear.init d_in d_out false ik in
  let W_value := Linear.init d_in d_out false iv in
  let out_proj := Linear.init d_out d_out false io in
  mask <- Torch.triu (Torch.ones [context_length; context_length]) 1 ;;
  '(cos, sin) <- precompute_rope_params head_dim default_theta_base context_length ;;
  Ok (mk d_out num_heads head_dim W_query W_key W_value out_proj mask cos sin).

Definition forward (self : t) (x : Tensor R) : result (Tensor R) :=
  '(b, num_tokens, d_in) <- Torch.unpack3 (shape x) ;;
  queries <- Linear.forward (W_query self) x ;;
  keys <- Linear.forward (W_key self) x ;;
  values <- Linear.forward (W_value self) x ;;
  queries <- Torch.view queries [b; num_tokens; num_heads self; head_dim self] ;;
  keys <- Torch.view keys [b; num_tokens; num_heads self; head_dim self] ;;
  values <- Torch.view values [b; num_tokens; num_heads self; head_dim self] ;;
  queries <- Torch.transpose 1 2 queries ;;
  keys <- Torch.transpose 1 2 keys ;;
  values <- Torch.transpose 1 2 values ;;
  keys <- compute_rope keys (cos self) (sin self) ;;
  queries <- compute_rope queries (cos self) (sin self) ;;
  keys_t <- Torch.transpose 2 3 keys ;;
  attn_scores <- Torch.matmul queries keys_t ;;
  mask_bool <- Torch.slice_to 0 num_tokens (Torch.bool_ (mask self)) ;;
  mask_bool <- Torch.slice_to 1 num_tokens mask_bool ;;
  attn_scores <- Torch.masked_fill attn_scores mask_bool NegInf ;;
  hd <- Torch.size_last keys ;;
  let attn_weights := Torch.softmax_last (Torch.xdiv_scalar attn_scores (sqrt (INR hd))) in
  context_vec <- Torch.matmul attn_weights values ;;
  context_vec <- Torch.transpose 1 2 context_vec ;;
  context_vec <- Torch.reshape context_vec [b; num_tokens; d_out self] ;;
  context_vec <- Linear.forward (out_proj self) context_vec ;;
  Ok context_vec.

(** A module as [init] builds it, whatever values its weights hold. *)
Definition wf (self : t) (d_in context_length : nat) : Prop :=
  d_out self = num_heads self * head_dim self /\
  head_dim self mod 2 = 0 /\
  Linear.wf (W_query self) /\ Linear.wf (W_key self) /\
  Linear.wf (W_value self) /\ Linear.wf (out_proj self) /\
  Linear.bias (W_query self) = None /\ Linear.bias (W_key self) = None /\
  Linear.bias (W_value self) = None /\ Linear.bias (out_proj self) = None /\
  Linear.in_features (W_query self) = d_in /\ Linear.out_features (W_query self) = d_out self /\
  Linear.in_features (W_key self) = d_in /\ Linear.out_features (W_key self) = d_out self /\
  Linear.in_features (W_value self) = d_in /\ Linear.out_features (W_value self) = d_out self /\
  Linear.in_features (out_proj self) = d_out self /\
  Linear.out_features (out_proj self) = d_out self /\
  Torch.triu (Torch.ones [context_length; context_length]) 1 = Ok (mask self) /\
  precompute_rope_params (head_dim self) default_theta_base context_length
  = Ok (cos self, sin self) /\
  0 < num_heads self.

End MultiHeadedAttention.

(** ** TransformerBlock *)

Module TransformerBlock.

Record t : Type := mk {
  att : MultiHeadedAttention.t;
  ff : FeedForward.t;
  norm1 : RMSNorm.t;
  norm2 : RMSNorm.t
}.

Record Init : Type := mkInit {
  iq : LinearInit; ik : LinearInit; iv : LinearInit; io : LinearInit;
  i1 : LinearInit; i2 : LinearInit; i3 : LinearInit
}.

Definition init (cfg : Config) (i : Init) : result t :=
  att <- MultiHeadedAttention.init (emb_dim cfg) (emb_dim cfg) (context_length cfg)
           (n_heads cfg) (iq i) (ik i) (iv i) (io i) ;;
  let ff := FeedForward.init cfg (i1 i) (i2 i) (i3 i) in
  let norm1 := RMSNorm.init (emb_dim cfg) RMSNorm.default_eps in
  let norm2 := RMSNorm.init (emb_dim cfg) RMSNorm.default_eps in
  Ok (mk att ff norm1 norm2).

Definition forward (self : t) (x : Tensor R) : result (Tensor R) :=
  let residual := x in
  x <- RMSNorm.forward (norm1 self) x ;;
  x <- MultiHeadedAttention.forward (att self) x ;;
  x <- Torch.add x residual ;;
  let residual := x in
  x <- RMSNorm.forward (norm2 self) x ;;
  x <- FeedForward.forward (ff self) x ;;
  x <- Torch.add x residual ;;
  Ok x.

Definition wf (self : t) (emb_dim hidden_dim context_length : nat) : Prop :=
  MultiHeadedAttention.wf (att self) emb_dim context_length /\
  MultiHeadedAttention.d_out (att self) = emb_dim /\
  FeedForward.wf (ff self) emb_dim hidden_dim /\
  RMSNorm.wf (norm1 self) /\ RMSNorm.embd_dim (norm1 self) = emb_dim /\
  RMSNorm.wf (norm2 self) /\ RMSNorm.embd_dim (norm2 self) = emb_dim.

End TransformerBlock.

(** ** nn.Embedding *)

Module Embedding.

Record t : Type := mk {
  num_embeddings : nat;
  embedding_dim : nat;
  weight : Tensor R
}.

Definition init (num_embeddings embedding_dim : nat) (w : list nat -> R) : t :=
  mk num_embeddings embedding_dim (mkTensor [num_embeddings; embedding_dim] w).

Definition forward (self : t) (input : Tensor Z) : result (Tensor R) :=
  Torch.embedding input (weight self).

Definition wf (self : t) : Prop :=
  shape (weight self) = [num_embeddings self; embedding_dim self].

End Embedding.

(** ** nn.Sequential over transformer blocks *)

Module Sequential.

Fixpoint forward (modules : list TransformerBlock.t) (x : Tensor R) : result (Tensor R) :=
  match modules with
  | [] => Ok x
  | m :: modules' => x <- TransformerBlock.forward m x ;; forward modules' x
  end.

End Sequential.

(** A list comprehension whose body may raise: the elements are built in
    order and the first exception ends the loop. *)
Fixpoint mapM {A B : Type} (f : A -> result B) (l : list A) : result (list B) :=
  match l with
  | [] => Ok []
  | a :: l' => b <- f a ;; bs <- mapM f l' ;; Ok (b :: bs)
  end.

(** ** Llama2 *)

Module Llama2.

Record t : Type := mk {
  tok_emb : Embedding.t;
  trf_blocks : list TransformerBlock.t;
  final_norm : RMSNorm.t;
  out_head : Linear.t
}.

(** The values drawn for the embedding table, for layer [l] of the stack and
    for the output head. *)
Record Init : Type := mkInit {
  emb0 : list nat -> R;
  blocks0 : nat -> TransformerBlock.Init;
  head0 : LinearInit
}.

Definition init (cfg : Config) (i : Init) : result t :=
  let tok_emb := Embedding.init (vocab_size cfg) (emb_dim cfg) (emb0 i) in
  trf_blocks <- mapM (fun l => TransformerBlock.init cfg (blocks0 i l))
                  (seq 0 (n_layers cfg)) ;;
  let final_norm := RMSNorm.init (emb_dim cfg) RMSNorm.default_eps in
  let out_head := Linear.init (emb_dim cfg) (vocab_size cfg) false (head0 i) in
  Ok (mk tok_emb trf_blocks final_norm out_head).

Definition forward (self : t) (in_idx : Tensor Z) : result (Tensor R) :=
  tok_embeds <- Embedding.forward (tok_emb self) in_idx ;;
  let x := tok_embeds in
  x <- Sequential.forward (trf_blocks self) x ;;
  x <- RMSNorm.forward (final_norm self) x ;;
  logits <- Linear.forward (out_head self) x ;;
  Ok logits.

(** A model as [init] builds it, whatever values its weights hold. *)
Definition wf (self : t) (vocab_size emb_dim hidden_dim context_length : nat) : Prop :=
  Embedding.wf (tok_emb self) /\
  Embedding.num_embeddings (tok_emb self) = vocab_size /\
  Embedding.embedding_dim (tok_emb self) = emb_dim /\
  Forall (fun blk => TransformerBlock.wf blk emb_dim hidden_dim context_length)
    (trf_blocks self) /\
  RMSNorm.wf (final_norm self) /\ RMSNorm.embd_dim (final_norm self) = emb_dim /\
  Linear.wf (out_head self) /\ Linear.bias (out_head self) = None /\
  Linear.in_features (out_head self) = emb_dim /\
  Linear.out_features (out_head self) = vocab_size.

End Llama2.

(** [Llama2Config7B]: [vocab_size = 32000] and [hidden_dim = 11008], written
    as products to keep the numerals small. *)
Definition Llama2Config7B : Config :=
  mkConfig (32 * 1000) 4096 4096 32 false 32 (43 * 256).

(** ** Parameters, buffers and the memory estimate *)

Module nn.

(** [nn.Parameter]: a tensor and its [requires_grad] flag. *)
Record Parameter_ : Type := mkParameter {
  data : Tensor R;
  requires_grad : bool
}.

(** [nn.Parameter(t)]: gradients are required unless asked otherwise. *)
Definition new_parameter (t : Tensor R) : Parameter_ := mkParameter t true.

(** What [model_memory_size] asks of an [nn.Module]: its registered
    parameters and buffers, those of its submodules included, in
    registration order.  ([parameters()] lists a shared parameter once; no
    two modules of the notebook share one.) *)
Class Module_ (M : Type) : Type := {
  parameters : M -> list Parameter_;
  buffers : M -> list (Tensor R)
}.

End nn.

#[global] Instance Linear_Module : nn.Module_ Linear.t := {
  parameters self :=
    nn.new_parameter (Linear.weight self)
    :: match Linear.bias self with
       | Some b => [nn.new_parameter b]
       | None => []
       end;
  buffers self := []
}.

#[global] Instance Embedding_Module : nn.Module_ Embedding.t := {
  parameters self := [nn.new_parameter (Embedding.weight self)];
  buffers self := []
}.

(** [nn.Parameter(torch.ones(embd_dim)).float()] is the parameter itself,
    which is already of type float32, so the assignment registers it. *)
#[global] Instance RMSNorm_Module : nn.Module_ RMSNorm.t := {
  parameters self := [nn.new_parameter (RMSNorm.weight self)];
  buffers self := []
}.

#[global] Instance FeedForward_Module : nn.Module_ FeedForward.t := {
  parameters self :=
    nn.parameters (FeedForward.fc1 self) ++ nn.parameters (FeedForward.fc2 self)
    ++ nn.parameters (FeedForward.fc3 self);
  buffers self := []
}.

#[global] Instance MultiHeadedAttention_Module : nn.Module_ MultiHeadedAttention.t := {
  parameters self :=
    nn.parameters (MultiHeadedAttention.W_query self)
    ++ nn.parameters (MultiHeadedAttention.W_key self)
    ++ nn.parameters (MultiHeadedAttention.W_value self)
    ++ nn.parameters (MultiHeadedAttention.out_proj self);
  buffers self :=
    [MultiHeadedAttention.mask self; MultiHeadedAttention.cos self;
     MultiHeadedAttention.sin self]
}.

#[global] Instance TransformerBlock_Module : nn.Module_ TransformerBlock.t := {
  parameters self :=
    nn.parameters (TransformerBlock.att self) ++ nn.parameters (TransformerBlock.ff self)
    ++ nn.parameters (TransformerBlock.norm1 self)
    ++ nn.parameters (TransformerBlock.norm2 self);
  buffers self :=
    nn.buffers (TransformerBlock.att self) ++ nn.buffers (TransformerBlock.ff self)
    ++ nn.buffers (TransformerBlock.norm1 self) ++ nn.buffers (TransformerBlock.norm2 self)
}.

(** [nn.Sequential]: the modules in order. *)
#[global] Instance Sequential_Module (M : Type) (H : nn.Module_ M) : nn.Module_ (list M) := {
  parameters self := flat_map nn.parameters self;
  buffers self := flat_map nn.buffers self
}.

#[global] Instance Llama2_Module : nn.Module_ Llama2.t := {
  parameters self :=
    nn.parameters (Llama2.tok_emb self) ++ nn.parameters (Llama2.trf_blocks self)
    ++ nn.parameters (Llama2.final_norm self) ++ nn.parameters (Llama2.out_head self);
  buffers self :=
    nn.buffers (Llama2.tok_emb self) ++ nn.buffers (Llama2.trf_blocks self)
    ++ nn.buffers (Llama2.final_norm self) ++ nn.buffers (Llama2.out_head self)
}.

(** [sum(p.numel() for p in model.parameters())]. *)
Definition total_params {M : Type} {H : nn.Module_ M} (model : M) : nat :=
  list_sum (map (fun p => Torch.numel (shape (nn.data p))) (nn.parameters model)).

(** [sum(buf.numel() for buf in model.buffers())]. *)
Definition total_buffers {M : Type} {H : nn.Module_ M} (model : M) : nat :=
  list_sum (map (fun buf => Torch.numel (shape buf)) (nn.buffers model)).

(** The estimate in gigabytes; the quotient is Python's true division. *)
Definition model_memory_size {M : Type} {H : nn.Module_ M} (model : M)
  (input_dtype : Torch.dtype) : R :=
  let '(total_params, total_grads) :=
    fold_left
      (fun '(total_params, total_grads) param =>
         let param_size := Torch.numel (shape (nn.data param)) in
         let total_params := total_params + param_size in
         if nn.requires_grad param
         then (total_params, total_grads + param_size)
         else (total_params, total_grads))
      (nn.parameters model) (0, 0) in
  let total_buffers := total_buffers model in
  let element_size := Torch.element_size input_dtype in
  let total_memory_bytes := (total_params + total_grads + total_buffers) * element_size in
  let total_memory_gb := (INR total_memory_bytes / 1024 ^ 3)%R in
  total_memory_gb.

(** ** The forward pass entry by entry

    The same computations written from the specification's sentences, as
    functions of one token vector or one sequence.  [v k] is feature [k] of a
    token vector; [xs t k] is feature [k] of token [t]; [n] is the number of
    tokens.  The theorems compare the forward functions above with these. *)

Module Spec.

(** Output feature [o] of a linear layer: [sum_k v[k] * W[o][k]], plus the
    bias when there is one. *)
Definition linear (l : Linear.t) (v : nat -> R) (o : nat) : R :=
  let s := Rsum (Linear.in_features l)
             (fun k => (v k * elem (Linear.weight l) [o; k])%R) in
  match Linear.bias l with
  | Some b => (s + elem b [o])%R
  | None => s
  end.

(** [x * rsqrt(mean(x^2) + eps) * weight]. *)
Definition rms_norm (self : RMSNorm.t) (v : nat -> R) (k : nat) : R :=
  let n := RMSNorm.embd_dim self in
  (v k
   * (1 / sqrt (Rsum n (fun j => v j ^ 2) / INR n + RMSNorm.eps self))
   * elem (RMSNorm.weight self) [k])%R.

(** [fc3(SiLU(fc1(v)) * fc2(v))] with [SiLU(z) = z * sigmoid(z)]. *)
Definition feed_forward (self : FeedForward.t) (v : nat -> R) (o : nat) : R :=
  linear (FeedForward.fc3 self)
    (fun h => (let z := linear (FeedForward.fc1 self) v h in z * Torch.sigmoid z)
              * linear (FeedForward.fc2 self) v h)%R
    o.

(** The rotation angle of component pair [j] at position [m]:
    [m * theta_base^(-2j/head_dim)]. *)
Definition rope_angle (theta_base : R) (head_dim m j : nat) : R :=
  (INR m * Rpower theta_base (- (2 * INR j / INR head_dim)))%R.

(** Component [k] of the vector [v] at position [m] after the rotation of
    each pair [(v j, v (j + head_dim/2))] by [rope_angle]. *)
Definition rope_rotate (theta_base : R) (head_dim : nat) (v : nat -> R) (m k : nat) : R :=
  let half := head_dim / 2 in
  if k <? half
  then
    let a := rope_angle theta_base head_dim m k in
    (v k * cos a - v (k + half)%nat * sin a)%R
  else
    let a := rope_angle theta_base head_dim m (k - half) in
    (v k * cos a + v (k - half)%nat * sin a)%R.

Section Attention.

Variable self : MultiHeadedAttention.t.
Variable n : nat.
Variable xs : nat -> nat -> R.

Let head_dim : nat := MultiHeadedAttention.head_dim self.

(** Queries, keys and values of head [h]: a slice of width [head_dim] of the
    projection; queries and keys are rotated, values are not. *)
Definition query (h t k : nat) : R :=
  rope_rotate default_theta_base head_dim
    (fun k' => linear (MultiHeadedAttention.W_query self) (xs t) (h * head_dim + k')) t k.

Definition key (h t k : nat) : R :=
  rope_rotate default_theta_base head_dim
    (fun k' => linear (MultiHeadedAttention.W_key self) (xs t) (h * head_dim + k')) t k.

Definition value (h t k : nat) : R :=
  linear (MultiHeadedAttention.W_value self) (xs t) (h * head_dim + k).

(** [q . k^T]. *)
Definition score (h t j : nat) : R :=
  Rsum head_dim (fun k => (query h t k * key h j k)%R).

(** Key positions after the query position are set to [-inf]. *)
Definition masked_score (h t j : nat) : xreal :=
  if t <? j then NegInf else Fin (score h t j).

(** Softmax over the key positions of the scores divided by [sqrt head_dim]. *)
Definition attn_weight (h t j : nat) : R :=
  let e := fun j' => Torch.xexp (Torch.xdiv (sqrt (INR head_dim)) (masked_score h t j')) in
  (e j / Rsum n e)%R.

Definition context (h t k : nat) : R :=
  Rsum n (fun j => (attn_weight h t j * value h j k)%R).

(** The heads side by side, then the output projection. *)
Definition concat (t c : nat) : R :=
  context (c / head_dim) t (c mod head_dim).

Definition attention (t c : nat) : R :=
  linear (MultiHeadedAttention.out_proj self) (concat t) c.

End Attention.

(** The first residual sum [att(norm1(x)) + x] and the block's output
    [ff(norm2(h)) + h], in the order the code adds them. *)
Definition hidden (self : TransformerBlock.t) (n : nat) (xs : nat -> nat -> R) (t c : nat)
  : R :=
  (attention (TransformerBlock.att self) n
     (fun t' => rms_norm (TransformerBlock.norm1 self) (xs t')) t c
   + xs t c)%R.

Definition block (self : TransformerBlock.t) (n : nat) (xs : nat -> nat -> R) (t c : nat)
  : R :=
  (feed_forward (TransformerBlock.ff self)
     (rms_norm (TransformerBlock.norm2 self) (hidden self n xs t)) c
   + hidden self n xs t c)%R.

End Spec.

(** ** Tensors in storage

    The forward functions once more, now against a store.  A storage is
    allocated by every operation that produces a new tensor; [view],
    [transpose], slicing, [unsqueeze], [reshape] and [to] return a handle on
    the storage of their operand; [masked_fill_] overwrites the storage of
    its target.  Module parameters and buffers are handles as well. *)

Module Pure.
Module Linear := Linear.
Module RMSNorm := RMSNorm.
Module FeedForward := FeedForward.
Module MultiHeadedAttention := MultiHeadedAttention.
Module TransformerBlock := TransformerBlock.
End Pure.

Module Heap.

(** What a storage holds.  A storage that has received [-inf] holds scores. *)
Inductive dyn : Type :=
| DReal (t : Tensor R)
| DBool (t : Tensor bool)
| DScore (t : Tensor xreal).

Inductive view_op : Type :=
| SliceTo (d k : nat)
| SliceFrom (d k : nat)
| RowsTo (k : nat)
| Unsqueeze (d : nat)
| Transpose (d1 d2 : nat)
| Reshape (s : list nat).

Definition apply_view {A : Type} (op : view_op) (t : Tensor A) : result (Tensor A) :=
  match op with
  | SliceTo d k => Torch.slice_to d k t
  | SliceFrom d k => Torch.slice_from d k t
  | RowsTo k => Torch.rows_to k t
  | Unsqueeze d => Torch.unsqueeze d t
  | Transpose d1 d2 => Torch.transpose d1 d2 t
  | Reshape s => Torch.view t s
  end.

Definition dyn_view (op : view_op) (v : dyn) : result dyn :=
  match v with
  | DReal t => t' <- apply_view op t ;; Ok (DReal t')
  | DBool t => t' <- apply_view op t ;; Ok (DBool t')
  | DScore t => t' <- apply_view op t ;; Ok (DScore t')
  end.

Definition dyn_shape (v : dyn) : list nat :=
  match v with
  | DReal t => shape t
  | DBool t => shape t
  | DScore t => shape t
  end.

(** A tensor object: a storage and the views taken of it, oldest first. *)
Record handle : Type := mkHandle {
  loc : nat;
  views : list view_op
}.

Definition store : Type := list dyn.

Fixpoint update (s : store) (l : nat) (v : dyn) : store :=
  match s, l with
  | [], _ => []
  | _ :: s', 0 => v :: s'
  | a :: s', S l' => a :: update s' l' v
  end.

(** A handle without storage does not arise in Python; the model reports it
    as [Unsupported], as it does a storage read at the wrong type. *)
Definition lookup (s : store) (l : nat) : result dyn :=
  match nth_error s l with
  | Some v => Ok v
  | None => Raise Unsupported
  end.

Fixpoint through (vs : list view_op) (v : dyn) : result dyn :=
  match vs with
  | [] => Ok v
  | op :: vs' => v' <- dyn_view op v ;; through vs' v'
  end.

(** The tensor a handle denotes in a store. *)
Definition read (s : store) (h : handle) : result dyn :=
  v <- lookup s (loc h) ;; through (views h) v.

Definition as_real (v : dyn) : result (Tensor R) :=
  match v with
  | DReal t => Ok t
  | _ => Raise Unsupported
  end.

Definition as_bool (v : dyn) : result (Tensor bool) :=
  match v with
  | DBool t => Ok t
  | _ => Raise Unsupported
  end.

Definition as_score (v : dyn) : result (Tensor xreal) :=
  match v with
  | DScore t => Ok t
  | _ => Raise Unsupported
  end.

Definition read_real (s : store) (h : handle) : result (Tensor R) :=
  v <- read s h ;; as_real v.

Definition read_bool (s : store) (h : handle) : result (Tensor bool) :=
  v <- read s h ;; as_bool v.

Definition read_score (s : store) (h : handle) : result (Tensor xreal) :=
  v <- read s h ;; as_score v.

(** Computations on the store that may raise. *)
Definition M (A : Type) : Type := store -> result (A * store).

Definition ret {A : Type} (a : A) : M A := fun s => Ok (a, s).

Definition hbind {A B : Type} (m : M A) (k : A -> M B) : M B :=
  fun s =>
    match m s with
    | Ok (a, s') => k a s'
    | Raise e => Raise e
    end.

Definition lift {A : Type} (r : result A) : M A :=
  fun s =>
    match r with
    | Ok a => Ok (a, s)
    | Raise e => Raise e
    end.

Declare Scope heap_scope.
Delimit Scope heap_scope with heap.
Notation "x <- m ;; k" := (hbind m (fun x => k))
  (at level 61, m at next level, right associativity) : heap_scope.
Notation "' p <- m ;; k" := (hbind m (fun x => match x with p => k end))
  (at level 61, p pattern, m at next level, right associativity) : heap_scope.

Definition alloc (v : dyn) : M handle :=
  fun s => Ok (mkHandle (length s) [], s ++ [v]).

Definition get_real (h : handle) : M (Tensor R) := fun s => lift (read_real s h) s.
Definition get_bool (h : handle) : M (Tensor bool) := fun s => lift (read_bool s h) s.
Definition get_score (h : handle) : M (Tensor xreal) := fun s => lift (read_score s h) s.

(** An operation that returns a new real tensor. *)
Definition unary (f : Tensor R -> result (Tensor R)) (h : handle) : M handle :=
  (t <- get_real h ;; y <- lift (f t) ;; alloc (DReal y))%heap.

Definition binary (f : Tensor R -> Tensor R -> result (Tensor R)) (h1 h2 : handle)
  : M handle :=
  (t1 <- get_real h1 ;; t2 <- get_real h2 ;; y <- lift (f t1 t2) ;; alloc (DReal y))%heap.

(** An operation that returns a view: no storage is allocated. *)
Definition view (op : view_op) (h : handle) : M handle :=
  fun s =>
    let h' := mkHandle (loc h) (views h ++ [op]) in
    match read s h' with
    | Ok _ => Ok (h', s)
    | Raise e => Raise e
    end.

Definition shape_of (h : handle) : M (list nat) :=
  fun s =>
    match read s h with
    | Ok v => Ok (dyn_shape v, s)
    | Raise e => Raise e
    end.

(** [x.size(-1)]. *)
Definition size_last (h : handle) : M nat :=
  fun s =>
    match read s h with
    | Ok v =>
        match dyn_shape v with
        | [] => Raise IndexError
        | sh => Ok (last sh 0, s)
        end
    | Raise e => Raise e
    end.

(** [Tensor.bool()] returns a new tensor. *)
Definition bool_ (h : handle) : M handle :=
  (t <- get_real h ;; alloc (DBool (Torch.bool_ t)))%heap.

(** [h.masked_fill_(mask, v)] writes into the storage of [h].  Writing
    through a view is not modelled. *)
Definition masked_fill_ (h mask : handle) (v : xreal) : M unit :=
  fun s =>
    match views h with
    | [] =>
        match read_real s h, read_bool s mask with
        | Ok x, Ok m =>
            match Torch.masked_fill x m v with
            | Ok y => Ok (tt, update s (loc h) (DScore y))
            | Raise e => Raise e
            end
        | Raise e, _ => Raise e
        | _, Raise e => Raise e
        end
    | _ => Raise Unsupported
    end.

(** [torch.softmax(h / c, dim=-1)] on scores: the quotient is a new tensor
    and so is the softmax. *)
Definition div_scalar_score (h : handle) (c : R) : M handle :=
  (t <- get_score h ;; alloc (DScore (Torch.xdiv_scalar t c)))%heap.

Definition softmax_last (h : handle) : M handle :=
  (t <- get_score h ;; alloc (DReal (Torch.softmax_last t)))%heap.

(** [Tensor.to(dtype=...)] with the tensor's own dtype returns the tensor. *)
Definition to_dtype (h : handle) : M handle := ret h.

Definition total (f : Tensor R -> Tensor R) (t : Tensor R) : result (Tensor R) := Ok (f t).

(** *** nn.Linear *)

Module Linear.

Record t : Type := mk {
  in_features : nat;
  out_features : nat;
  weight : handle;
  bias : option handle
}.

Definition forward (self : t) (x : handle) : M handle :=
  match bias self with
  | Some b =>
      (xt <- get_real x ;;
       wt <- get_real (weight self) ;;
       bt <- get_real b ;;
       y <- lift (Torch.linear xt wt (Some bt)) ;;
       alloc (DReal y))%heap
  | None =>
      (xt <- get_real x ;;
       wt <- get_real (weight self) ;;
       y <- lift (Torch.linear xt wt None) ;;
       alloc (DReal y))%heap
  end.

(** The module whose parameters are the tensors the handles denote. *)
Definition load (s : store) (self : t) : result Pure.Linear.t :=
  w <- read_real s (weight self) ;;
  match bias self with
  | Some b =>
      bt <- read_real s b ;;
      Ok (Pure.Linear.mk (in_features self) (out_features self) w (Some bt))
  | None => Ok (Pure.Linear.mk (in_features self) (out_features self) w None)
  end.

End Linear.

(** *** RMSNorm *)

Module RMSNorm.

Record t : Type := mk {
  eps : R;
  embd_dim : nat;
  weight : handle
}.

Definition forward (self : t) (x : handle) : M handle :=
  (x2 <- unary (total (fun t => Torch.pow t 2)) x ;;
   means <- unary (total Torch.mean_last_keepdim) x2 ;;
   me <- unary (total (fun t => Torch.add_scalar t (eps self))) means ;;
   r <- unary (total Torch.rsqrt) me ;;
   x_norm <- binary Torch.mul x r ;;
   y <- binary Torch.mul x_norm (weight self) ;;
   to_dtype y)%heap.

Definition load (s : store) (self : t) : result Pure.RMSNorm.t :=
  w <- read_real s (weight self) ;;
  Ok (Pure.RMSNorm.mk (eps self) (embd_dim self) w).

End RMSNorm.

(** *** FeedForward *)

Module FeedForward.

Record t : Type := mk {
  fc1 : Linear.t;
  fc2 : Linear.t;
  fc3 : Linear.t
}.

Definition forward (self : t) (x : handle) : M handle :=
  (x_fc1 <- Linear.forward (fc1 self) x ;;
   x_fc2 <- Linear.forward (fc2 self) x ;;
   a <- unary (total Torch.silu) x_fc1 ;;
   x <- binary Torch.mul a x_fc2 ;;
   Linear.forward (fc3 self) x)%heap.

Definition load (s : store) (self : t) : result Pure.FeedForward.t :=
  l1 <- Linear.load s (fc1 self) ;;
  l2 <- Linear.load s (fc2 self) ;;
  l3 <- Linear.load s (fc3 self) ;;
  Ok (Pure.FeedForward.mk l1 l2 l3).

End FeedForward.

(** *** compute_rope *)

Definition compute_rope (x cos sin : handle) : M handle :=
  (sh <- shape_of x ;;
   '(batch_size, num_heads, seq_len, head_dim) <- lift (Torch.unpack4 sh) ;;
   _ <- lift (py_assert (head_dim mod 2 =? 0) "Head dimension must be even") ;;
   x1 <- view (SliceTo (length sh - 1) (head_dim / 2)) x ;;
   x2 <- view (SliceFrom (length sh - 1) (head_dim / 2)) x ;;
   nx2 <- unary (total Torch.neg) x2 ;;
   rotated <- binary (fun a b => Torch.cat a b (length sh - 1)) nx2 x1 ;;
   cos <- view (RowsTo seq_len) cos ;;
   cos <- view (Unsqueeze 0) cos ;;
   cos <- view (Unsqueeze 0) cos ;;
   sin <- view (RowsTo seq_len) sin ;;
   sin <- view (Unsqueeze 0) sin ;;
   sin <- view (Unsqueeze 0) sin ;;
   xc <- binary Torch.mul x cos ;;
   rs <- binary Torch.mul rotated sin ;;
   x_rotated <- binary Torch.add xc rs ;;
   to_dtype x_rotated)%heap.

(** *** MultiHeadedAttention *)

Module MultiHeadedAttention.

Record t : Type := mk {
  d_out : nat;
  num_heads : nat;
  head_dim : nat;
  W_query : Linear.t;
  W_key : Linear.t;
  W_value : Linear.t;
  out_proj : Linear.t;
  mask : handle;
  cos : handle;
  sin : handle
}.

Definition forward (self : t) (x : handle) : M handle :=
  (sh <- shape_of x ;;
   '(b, num_tokens, d_in) <- lift (Torch.unpack3 sh) ;;
   queries <- Linear.forward (W_query self) x ;;
   keys <- Linear.forward (W_key self) x ;;
   values <- Linear.forward (W_value self) x ;;
   queries <- view (Reshape [b; num_tokens; num_heads self; head_dim self]) queries ;;
   keys <- view (Reshape [b; num_tokens; num_heads self; head_dim self]) keys ;;
   values <- view (Reshape [b; num_tokens; num_heads self; head_dim self]) values ;;
   queries <- view (Transpose 1 2) queries ;;
   keys <- view (Transpose 1 2) keys ;;
   values <- view (Transpose 1 2) values ;;
   keys <- compute_rope keys (cos self) (sin self) ;;
   queries <- compute_rope queries (cos self) (sin self) ;;
   keys_t <- view (Transpose 2 3) keys ;;
   attn_scores <- binary Torch.matmul queries keys_t ;;
   mask_bool <- bool_ (mask self) ;;
   mask_bool <- view (SliceTo 0 num_tokens) mask_bool ;;
   mask_bool <- view (SliceTo 1 num_tokens) mask_bool ;;
   _ <- masked_fill_ attn_scores mask_bool NegInf ;;
   hd <- size_last keys ;;
   scaled <- div_scalar_score attn_scores (sqrt (INR hd)) ;;
   attn_weights <- softmax_last scaled ;;
   context_vec <- binary Torch.matmul attn_weights values ;;
   context_vec <- view (Transpose 1 2) context_vec ;;
   context_vec <- view (Reshape [b; num_tokens; d_out self]) context_vec ;;
   context_vec <- Linear.forward (out_proj self) context_vec ;;
   ret context_vec)%heap.

Definition load (s : store) (self : t) : result Pure.MultiHeadedAttention.t :=
  q <- Linear.load s (W_query self) ;;
  k <- Linear.load s (W_key self) ;;
  v <- Linear.load s (W_value self) ;;
  o <- Linear.load s (out_proj self) ;;
  m <- read_real s (mask self) ;;
  c <- read_real s (cos self) ;;
  sn <- read_real s (sin self) ;;
  Ok (Pure.MultiHeadedAttention.mk (d_out self) (num_heads self) (head_dim self) q k v o m c sn).

End MultiHeadedAttention.

(** *** TransformerBlock *)

Module TransformerBlock.

Record t : Type := mk {
  att : MultiHeadedAttention.t;
  ff : FeedForward.t;
  norm1 : RMSNorm.t;
  norm2 : RMSNorm.t
}.

Definition forward (self : t) (x : handle) : M handle :=
  (let residual := x in
   x <- RMSNorm.forward (norm1 self) x ;;
   x <- MultiHeadedAttention.forward (att self) x ;;
   x <- binary Torch.add x residual ;;
   let residual := x in
   x <- RMSNorm.forward (norm2 self) x ;;
   x <- FeedForward.forward (ff self) x ;;
   x <- binary Torch.add x residual ;;
   ret x)%heap.

Definition load (s : store) (self : t) : result Pure.TransformerBlock.t :=
  a <- MultiHeadedAttention.load s (att self) ;;
  f <- FeedForward.load s (ff self) ;;
  n1 <- RMSNorm.load s (norm1 self) ;;
  n2 <- RMSNorm.load s (norm2 self) ;;
  Ok (Pure.TransformerBlock.mk a f n1 n2).

End TransformerBlock.

(** Every storage of [s] holds the same tensor in [s']. *)
Definition preserved (s s' : store) : Prop :=
  forall l v, nth_error s l = Some v -> nth_error s' l = Some v.

(** A call that leaves the storages it found as they were and, called again
    on the store it left, returns an equal tensor. *)
Definition pure_call (run : M handle) (s : store) (y : Tensor R) : Prop :=
  exists h1 s1 h2 s2,
    run s = Ok (h1, s1) /\ preserved s s1 /\
    run s1 = Ok (h2, s2) /\ preserved s1 s2 /\
    read_real s1 h1 = Ok y /\ read_real s2 h2 = Ok y /\ read_real s2 h1 = Ok y.

End Heap.

(** ** The model in storage

    [Llama2.forward] against the store: the embedding lookup allocates its
    result, the blocks run one after the other on the store the previous one
    left.  The token ids are read and never written; they are passed as a
    value. *)

Module PureModel.
Module Embedding := Embedding.
Module Llama2 := Llama2.
End PureModel.

Module HeapModel.

Import Heap.

Module Embedding.

Record t : Type := mk {
  num_embeddings : nat;
  embedding_dim : nat;
  weight : handle
}.

Definition forward (self : t) (input : Tensor Z) : M handle :=
  (w <- get_real (weight self) ;;
   y <- lift (Torch.embedding input w) ;;
   alloc (DReal y))%heap.

Definition load (s : store) (self : t) : result PureModel.Embedding.t :=
  w <- read_real s (weight self) ;;
  Ok (PureModel.Embedding.mk (num_embeddings self) (embedding_dim self) w).

End Embedding.

Module Sequential.

Fixpoint forward (modules : list Heap.TransformerBlock.t) (x : handle) : M handle :=
  match modules with
  | [] => ret x
  | m :: modules' => (x <- Heap.TransformerBlock.forward m x ;; forward modules' x)%heap
  end.

End Sequential.

Module Llama2.

Record t : Type := mk {
  tok_emb : Embedding.t;
  trf_blocks : list Heap.TransformerBlock.t;
  final_norm : Heap.RMSNorm.t;
  out_head : Heap.Linear.t
}.

Definition forward (self : t) (in_idx : Tensor Z) : M handle :=
  (tok_embeds <- Embedding.forward (tok_emb self) in_idx ;;
   let x := tok_embeds in
   x <- Sequential.forward (trf_blocks self) x ;;
   x <- Heap.RMSNorm.forward (final_norm self) x ;;
   logits <- Heap.Linear.forward (out_head self) x ;;
   ret logits)%heap.

Definition load (s : store) (self : t) : result PureModel.Llama2.t :=
  e <- Embedding.load s (tok_emb self) ;;
  blocks <- mapM (Heap.TransformerBlock.load s) (trf_blocks self) ;;
  n <- Heap.RMSNorm.load s (final_norm self) ;;
  h <- Heap.Linear.load s (out_head self) ;;
  Ok (PureModel.Llama2.mk e blocks n h).

End Llama2.

End HeapModel.

(** ** Floating-point values

    The forward functions once more, over the values a float tensor holds:
    a real number, an infinity or NaN.  The arithmetic follows IEEE 754 on
    infinities and NaN, and a result beyond the largest number of the dtype
    is an infinity.  Inside the range it is exact: rounding and underflow
    are not modelled, there is one zero (a division by zero takes it as
    [+0]), and sums run from the first term to the last.  A layer computes
    in one dtype, the one its constructor is given; the casts
    [.to(dtype=x.dtype)] back from the float32 of the rotation tables and
    of the norm weights are not distinguished from it. *)

Module Float.

Inductive t : Type :=
| Num (r : R)
| PInf
| NInf
| NaN.

(** [torch.finfo(dtype).max]. *)
Definition finfo_max (dtype : Torch.dtype) : R :=
  match dtype with
  | Torch.float32 => (2 - / 2 ^ 23) * 2 ^ 127
  | Torch.bfloat16 => (2 - / 2 ^ 7) * 2 ^ 127
  | Torch.float16 => (2 - / 2 ^ 10) * 2 ^ 15
  | Torch.float64 => (2 - / 2 ^ 52) * 2 ^ 1023
  end%R.

(** The value of the exact result [r]: [r] itself in the range of the dtype,
    an infinity beyond. *)
Definition round (dtype : Torch.dtype) (r : R) : t :=
  if Rle_dec (Rabs r) (finfo_max dtype) then Num r
  else if Rlt_dec 0 r then PInf else NInf.

Definition is_finite (a : t) : Prop :=
  match a with
  | Num _ => True
  | _ => False
  end.

(** The values a tensor of the dtype can hold. *)
Definition representable (dtype : Torch.dtype) (a : t) : Prop :=
  match a with
  | Num r => (Rabs r <= finfo_max dtype)%R
  | _ => True
  end.

Definition neg (a : t) : t :=
  match a with
  | Num r => Num (- r)
  | PInf => NInf
  | NInf => PInf
  | NaN => NaN
  end.

Definition add (dtype : Torch.dtype) (a b : t) : t :=
  match a, b with
  | NaN, _ | _, NaN => NaN
  | Num x, Num y => round dtype (x + y)
  | PInf, NInf | NInf, PInf => NaN
  | PInf, _ | _, PInf => PInf
  | NInf, _ | _, NInf => NInf
  end.

Definition sub (dtype : Torch.dtype) (a b : t) : t := add dtype a (neg b).

(** An infinity times the number [r]: [inf * 0] is NaN. *)
Definition scale_inf (inf : t) (r : R) : t :=
  if Req_dec_T r 0 then NaN
  else if Rlt_dec 0 r then inf else neg inf.

Definition mul (dtype : Torch.dtype) (a b : t) : t :=
  match a, b with
  | NaN, _ | _, NaN => NaN
  | Num x, Num y => round dtype (x * y)
  | Num x, _ => scale_inf b x
  | _, Num y => scale_inf a y
  | PInf, PInf | NInf, NInf => PInf
  | PInf, NInf | NInf, PInf => NInf
  end.

Definition div (dtype : Torch.dtype) (a b : t) : t :=
  match a, b with
  | NaN, _ | _, NaN => NaN
  | Num x, Num y =>
      if Req_dec_T y 0
      then (if Req_dec_T x 0 then NaN else if Rlt_dec 0 x then PInf else NInf)
      else round dtype (x / y)
  | Num _, _ => Num 0
  | _, Num y => if Rlt_dec y 0 then neg a else a
  | _, _ => NaN
  end.

Definition exp (dtype : Torch.dtype) (a : t) : t :=
  match a with
  | Num r => round dtype (Rtrigo_def.exp r)
  | PInf => PInf
  | NInf => Num 0
  | NaN => NaN
  end.

(** [1 / sqrt(a)]. *)
Definition rsqrt (dtype : Torch.dtype) (a : t) : t :=
  match a with
  | Num r =>
      if Rlt_dec r 0 then NaN
      else if Req_dec_T r 0 then PInf
      else round dtype (1 / sqrt r)
  | PInf => Num 0
  | NInf => NaN
  | NaN => NaN
  end.

Definition sigmoid (dtype : Torch.dtype) (a : t) : t :=
  div dtype (Num 1) (add dtype (Num 1) (exp dtype (neg a))).

(** [nn.SiLU]. *)
Definition silu (dtype : Torch.dtype) (a : t) : t := mul dtype a (sigmoid dtype a).

(** The larger of two values; NaN wins. *)
Definition max (a b : t) : t :=
  match a, b with
  | NaN, _ | _, NaN => NaN
  | PInf, _ | _, PInf => PInf
  | NInf, c | c, NInf => c
  | Num x, Num y => Num (Rmax x y)
  end.

(** Finite sums [f 0 + ... + f (n-1)] and the largest of [f 0 ... f (n-1)]. *)
Fixpoint sum (dtype : Torch.dtype) (n : nat) (f : nat -> t) : t :=
  match n with
  | 0 => Num 0
  | S n' => add dtype (sum dtype n' f) (f n')
  end.

Fixpoint max_of (n : nat) (f : nat -> t) : t :=
  match n with
  | 0 => NInf
  | S n' => max (max_of n' f) (f n')
  end.

(** *** Tensors of floats *)

(** A tensor whose entries are all numbers. *)
Definition of_real (x : Tensor R) : Tensor t := Torch.map Num x.

(** [F.linear(x, W, b)]. *)
Definition linear (dtype : Torch.dtype) (x W : Tensor t) (b : option (Tensor t))
  : result (Tensor t) :=
  match shape W, shape x with
  | [out_f; in_f], _ :: _ =>
      if last (shape x) 0 =? in_f
      then
        let y := mkTensor (removelast (shape x) ++ [out_f])
                   (fun idx => sum dtype in_f (fun k =>
                      mul dtype (elem x (Torch.set_last idx k))
                        (elem W [last idx 0; k]))) in
        match b with
        | None => Ok y
        | Some bv => Torch.binop (add dtype) y bv
        end
      else Raise RuntimeError
  | _, _ => Raise RuntimeError
  end.

(** [x @ y]. *)
Definition matmul (dtype : Torch.dtype) (x y : Tensor t) : result (Tensor t) :=
  let rx := length (shape x) in
  let ry := length (shape y) in
  if (2 <=? rx) && (2 <=? ry)
  then
    let bx := firstn (rx - 2) (shape x) in
    let by_ := firstn (ry - 2) (shape y) in
    let k := nth (rx - 1) (shape x) 0 in
    if k =? nth (ry - 2) (shape y) 0
    then
      match Torch.broadcast_shapes bx by_ with
      | Some bs =>
          Ok (mkTensor (bs ++ [nth (rx - 2) (shape x) 0; nth (ry - 1) (shape y) 0])
                (fun idx =>
                   let bi := firstn (length idx - 2) idx in
                   let i := nth (length idx - 2) idx 0 in
                   let j := nth (length idx - 1) idx 0 in
                   sum dtype k (fun l =>
                     mul dtype (elem x (Torch.bidx bx bi ++ [i; l]))
                       (elem y (Torch.bidx by_ bi ++ [l; j])))))
      | None => Raise RuntimeError
      end
    else Raise RuntimeError
  else Raise Unsupported.

(** [x.masked_fill_(mask, v)]. *)
Definition masked_fill (x : Tensor t) (mask : Tensor bool) (v : t) : result (Tensor t) :=
  match Torch.broadcast_shapes (shape x) (shape mask) with
  | Some s =>
      if Torch.shape_eqb s (shape x)
      then Ok (mkTensor (shape x)
                 (fun idx => if elem mask (Torch.bidx (shape mask) idx) then v
                             else elem x idx))
      else Raise RuntimeError
  | None => Raise RuntimeError
  end.

(** [x / c] for a Python number [c]. *)
Definition div_scalar (dtype : Torch.dtype) (x : Tensor t) (c : R) : Tensor t :=
  Torch.map (fun v => div dtype v (Num c)) x.

(** [torch.softmax(x, dim=-1)]: the largest entry of a row is subtracted
    before the exponential. *)
Definition softmax_row (dtype : Torch.dtype) (d : nat) (row : nat -> t) (j : nat) : t :=
  let m := max_of d row in
  div dtype (exp dtype (sub dtype (row j) m))
    (sum dtype d (fun j' => exp dtype (sub dtype (row j') m))).

Definition softmax_last (dtype : Torch.dtype) (x : Tensor t) : Tensor t :=
  match shape x with
  | [] => mkTensor [] (fun idx => softmax_row dtype 1 (fun _ => elem x idx) 0)
  | _ =>
      let d := last (shape x) 0 in
      mkTensor (shape x)
        (fun idx => softmax_row dtype d (fun j => elem x (Torch.set_last idx j)) (last idx 0))
  end.

(** [x.mean(dim=-1, keepdim=True)]. *)
Definition mean_last_keepdim (dtype : Torch.dtype) (x : Tensor t) : Tensor t :=
  match shape x with
  | [] => x
  | _ =>
      let d := last (shape x) 0 in
      mkTensor (removelast (shape x) ++ [1])
        (fun idx => div dtype (sum dtype d (fun j => elem x (Torch.set_last idx j)))
                      (Num (INR d)))
  end.

(** [F.embedding(input, weight)]. *)
Definition embedding (input : Tensor Z) (weight : Tensor t) : result (Tensor t) :=
  match shape weight with
  | [n; d] =>
      if forallb (fun idx => (0 <=? elem input idx)%Z && (elem input idx <? Z.of_nat n)%Z)
           (Torch.indices (shape input))
      then Ok (mkTensor (shape input ++ [d])
                 (fun idx => elem weight [Z.to_nat (elem input (removelast idx)); last idx 0]))
      else Raise IndexError
  | _ => Raise RuntimeError
  end.

Definition compute_rope (dtype : Torch.dtype) (x cos sin : Tensor t) : result (Tensor t) :=
  '(batch_size, num_heads, seq_len, head_dim) <- Torch.unpack4 (shape x) ;;
  _ <- py_assert (head_dim mod 2 =? 0) "Head dimension must be even" ;;
  x1 <- Torch.slice_to (Torch.last_dim x) (head_dim / 2) x ;;
  x2 <- Torch.slice_from (Torch.last_dim x) (head_dim / 2) x ;;
  rotated <- Torch.cat (Torch.map neg x2) x1 (Torch.last_dim x) ;;
  cos <- Torch.rows_to seq_len cos ;;
  cos <- Torch.unsqueeze 0 cos ;;
  cos <- Torch.unsqueeze 0 cos ;;
  sin <- Torch.rows_to seq_len sin ;;
  sin <- Torch.unsqueeze 0 sin ;;
  sin <- Torch.unsqueeze 0 sin ;;
  xc <- Torch.binop (mul dtype) x cos ;;
  rs <- Torch.binop (mul dtype) rotated sin ;;
  x_rotated <- Torch.binop (add dtype) xc rs ;;
  Ok x_rotated.

Module Linear.

Record t : Type := mk {
  in_features : nat;
  out_features : nat;
  weight : Tensor Float.t;
  bias : option (Tensor Float.t);
  dtype : Torch.dtype
}.

(** The layer with the parameters of [l], held in [dtype]. *)
Definition of_real (dtype : Torch.dtype) (l : Pure.Linear.t) : t :=
  mk (Pure.Linear.in_features l) (Pure.Linear.out_features l)
     (Float.of_real (Pure.Linear.weight l))
     (option_map Float.of_real (Pure.Linear.bias l))
     dtype.

Definition forward (self : t) (x : Tensor Float.t) : result (Tensor Float.t) :=
  Float.linear (dtype self) x (weight self) (bias self).

Definition wf (self : t) : Prop :=
  shape (weight self) = [out_features self; in_features self] /\
  match bias self with
  | Some b => shape b = [out_features self]
  | None => True
  end.

End Linear.

Module MultiHeadedAttention.

Record t : Type := mk {
  d_out : nat;
  num_heads : nat;
  head_dim : nat;
  W_query : Linear.t;
  W_key : Linear.t;
  W_value : Linear.t;
  out_proj : Linear.t;
  mask : Tensor R;
  cos : Tensor R;
  sin : Tensor R;
  dtype : Torch.dtype
}.

(** The module with the parameters and buffers of [m]. *)
Definition of_real (dtype : Torch.dtype) (m : Pure.MultiHeadedAttention.t) : t :=
  mk (Pure.MultiHeadedAttention.d_out m) (Pure.MultiHeadedAttention.num_heads m)
     (Pure.MultiHeadedAttention.head_dim m)
     (Linear.of_real dtype (Pure.MultiHeadedAttention.W_query m))
     (Linear.of_real dtype (Pure.MultiHeadedAttention.W_key m))
     (Linear.of_real dtype (Pure.MultiHeadedAttention.W_value m))
     (Linear.of_real dtype (Pure.MultiHeadedAttention.out_proj m))
     (Pure.MultiHeadedAttention.mask m)
     (Pure.MultiHeadedAttention.cos m) (Pure.MultiHeadedAttention.sin m)
     dtype.

(** The constructor draws numbers for the weights; the mask and the rotation
    tables are numbers as well. *)
Definition init (d_in d_out context_length num_heads : nat) (dtype : Torch.dtype)
  (iq ik iv io : LinearInit) : result t :=
  m <- Pure.MultiHeadedAttention.init d_in d_out context_length num_heads iq ik iv io ;;
  Ok (of_real dtype m).

Definition forward (self : t) (x : Tensor Float.t) : result (Tensor Float.t) :=
  '(b, num_tokens, d_in) <- Torch.unpack3 (shape x) ;;
  queries <- Linear.forward (W_query self) x ;;
  keys <- Linear.forward (W_key self) x ;;
  values <- Linear.forward (W_value self) x ;;
  queries <- Torch.view queries [b; num_tokens; num_heads self; head_dim self] ;;
  keys <- Torch.view keys [b; num_tokens; num_heads self; head_dim self] ;;
  values <- Torch.view values [b; num_tokens; num_heads self; head_dim self] ;;
  queries <- Torch.transpose 1 2 queries ;;
  keys <- Torch.transpose 1 2 keys ;;
  values <- Torch.transpose 1 2 values ;;
  keys <- Float.compute_rope (dtype self) keys
            (Float.of_real (cos self)) (Float.of_real (sin self)) ;;
  queries <- Float.compute_rope (dtype self) queries
               (Float.of_real (cos self)) (Float.of_real (sin self)) ;;
  keys_t <- Torch.transpose 2 3 keys ;;
  attn_scores <- Float.matmul (dtype self) queries keys_t ;;
  mask_bool <- Torch.slice_to 0 num_tokens (Torch.bool_ (mask self)) ;;
  mask_bool <- Torch.slice_to 1 num_tokens mask_bool ;;
  attn_scores <- Float.masked_fill attn_scores mask_bool NInf ;;
  hd <- Torch.size_last keys ;;
  let attn_weights :=
    Float.softmax_last (dtype self)
      (Float.div_scalar (dtype self) attn_scores (sqrt (INR hd))) in
  context_vec <- Float.matmul (dtype self) attn_weights values ;;
  context_vec <- Torch.transpose 1 2 context_vec ;;
  context_vec <- Torch.reshape context_vec [b; num_tokens; d_out self] ;;
  context_vec <- Linear.forward (out_proj self) context_vec ;;
  Ok context_vec.

(** A module as [init] builds it, whatever values its weights hold. *)
Definition wf (self : t) (d_in context_length : nat) : Prop :=
  d_out self = num_heads self * head_dim self /\
  head_dim self mod 2 = 0 /\
  Linear.wf (W_query self) /\ Linear.wf (W_key self) /\
  Linear.wf (W_value self) /\ Linear.wf (out_proj self) /\
  Linear.bias (W_query self) = None /\ Linear.bias (W_key self) = None /\
  Linear.bias (W_value self) = None /\ Linear.bias (out_proj self) = None /\
  Linear.in_features (W_query self) = d_in /\ Linear.out_features (W_query self) = d_out self /\
  Linear.in_features (W_key self) = d_in /\ Linear.out_features (W_key self) = d_out self /\
  Linear.in_features (W_value self) = d_in /\ Linear.out_features (W_value self) = d_out self /\
  Linear.in_features (out_proj self) = d_out self /\
  Linear.out_features (out_proj self) = d_out self /\
  Linear.dtype (W_query self) = dtype self /\ Linear.dtype (W_key self) = dtype self /\
  Linear.dtype (W_value self) = dtype self /\ Linear.dtype (out_proj self) = dtype self /\
  Torch.triu (Torch.ones [context_length; context_length]) 1 = Ok (mask self) /\
  precompute_rope_params (head_dim self) default_theta_base context_length
  = Ok (cos self, sin self) /\
  0 < num_heads self.

End MultiHeadedAttention.

Module RMSNorm.

Record t : Type := mk {
  eps : R;
  embd_dim : nat;
  weight : Tensor Float.t;
  dtype : Torch.dtype
}.

Definition of_real (dtype : Torch.dtype) (m : Pure.RMSNorm.t) : t :=
  mk (Pure.RMSNorm.eps m) (Pure.RMSNorm.embd_dim m)
     (Float.of_real (Pure.RMSNorm.weight m)) dtype.

(** [x.pow(2)] is [x * x]. *)
Definition forward (self : t) (x : Tensor Float.t) : result (Tensor Float.t) :=
  let d := dtype self in
  let means := Float.mean_last_keepdim d (Torch.map (fun v => mul d v v) x) in
  x_norm <- Torch.binop (mul d) x
              (Torch.map (rsqrt d) (Torch.map (fun v => add d v (Num (eps self))) means)) ;;
  y <- Torch.binop (mul d) x_norm (weight self) ;;
  Ok y.

Definition wf (self : t) : Prop := shape (weight self) = [embd_dim self].

End RMSNorm.

Module FeedForward.

Record t : Type := mk {
  fc1 : Linear.t;
  fc2 : Linear.t;
  fc3 : Linear.t;
  dtype : Torch.dtype
}.

Definition of_real (dtype : Torch.dtype) (m : Pure.FeedForward.t) : t :=
  mk (Linear.of_real dtype (Pure.FeedForward.fc1 m))
     (Linear.of_real dtype (Pure.FeedForward.fc2 m))
     (Linear.of_real dtype (Pure.FeedForward.fc3 m)) dtype.

Definition forward (self : t) (x : Tensor Float.t) : result (Tensor Float.t) :=
  x_fc1 <- Linear.forward (fc1 self) x ;;
  x_fc2 <- Linear.forward (fc2 self) x ;;
  x <- Torch.binop (mul (dtype self)) (Torch.map (silu (dtype self)) x_fc1) x_fc2 ;;
  Linear.forward (fc3 self) x.

Definition wf (self : t) (emb_dim hidden_dim : nat) : Prop :=
  Linear.wf (fc1 self) /\ Linear.wf (fc2 self) /\ Linear.wf (fc3 self) /\
  Linear.in_features (fc1 self) = emb_dim /\ Linear.out_features (fc1 self) = hidden_dim /\
  Linear.in_features (fc2 self) = emb_dim /\ Linear.out_features (fc2 self) = hidden_dim /\
  Linear.in_features (fc3 self) = hidden_dim /\ Linear.out_features (fc3 self) = emb_dim.

End FeedForward.

Module TransformerBlock.

Record t : Type := mk {
  att : MultiHeadedAttention.t;
  ff : FeedForward.t;
  norm1 : RMSNorm.t;
  norm2 : RMSNorm.t;
  dtype : Torch.dtype
}.

Definition of_real (dtype : Torch.dtype) (m : Pure.TransformerBlock.t) : t :=
  mk (MultiHeadedAttention.of_real dtype (Pure.TransformerBlock.att m))
     (FeedForward.of_real dtype (Pure.TransformerBlock.ff m))
     (RMSNorm.of_real dtype (Pure.TransformerBlock.norm1 m))
     (RMSNorm.of_real dtype (Pure.TransformerBlock.norm2 m)) dtype.

Definition forward (self : t) (x : Tensor Float.t) : result (Tensor Float.t) :=
  let residual := x in
  x <- RMSNorm.forward (norm1 self) x ;;
  x <- MultiHeadedAttention.forward (att self) x ;;
  x <- Torch.binop (add (dtype self)) x residual ;;
  let residual := x in
  x <- RMSNorm.forward (norm2 self) x ;;
  x <- FeedForward.forward (ff self) x ;;
  x <- Torch.binop (add (dtype self)) x residual ;;
  Ok x.

Definition wf (self : t) (emb_dim hidden_dim context_length : nat) : Prop :=
  MultiHeadedAttention.wf (att self) emb_dim context_length /\
  MultiHeadedAttention.d_out (att self) = emb_dim /\
  FeedForward.wf (ff self) emb_dim hidden_dim /\
  RMSNorm.wf (norm1 self) /\ RMSNorm.embd_dim (norm1 self) = emb_dim /\
  RMSNorm.wf (norm2 self) /\ RMSNorm.embd_dim (norm2 self) = emb_dim.

End TransformerBlock.

Module Embedding.

Record t : Type := mk {
  num_embeddings : nat;
  embedding_dim : nat;
  weight : Tensor Float.t
}.

Definition of_real (m : PureModel.Embedding.t) : t :=
  mk (PureModel.Embedding.num_embeddings m) (PureModel.Embedding.embedding_dim m)
     (Float.of_real (PureModel.Embedding.weight m)).

Definition forward (self : t) (input : Tensor Z) : result (Tensor Float.t) :=
  Float.embedding input (weight self).

Definition wf (self : t) : Prop :=
  shape (weight self) = [num_embeddings self; embedding_dim self].

End Embedding.

Module Sequential.

Fixpoint forward (modules : list TransformerBlock.t) (x : Tensor Float.t)
  : result (Tensor Float.t) :=
  match modules with
  | [] => Ok x
  | m :: modules' => x <- TransformerBlock.forward m x ;; forward modules' x
  end.

(** In every block of the stack, run on [x], the value projection of the
    attention layer is finite at the token positions after [i] of sequence
    [b]. *)
Fixpoint values_finite_after (b i : nat) (modules : list TransformerBlock.t)
  (x : Tensor Float.t) : Prop :=
  match modules with
  | [] => True
  | m :: modules' =>
      (forall xn v t c,
         RMSNorm.forward (TransformerBlock.norm1 m) x = Ok xn ->
         Linear.forward (MultiHeadedAttention.W_value (TransformerBlock.att m)) xn = Ok v ->
         valid (shape v) [b; t; c] -> i < t -> is_finite (elem v [b; t; c])) /\
      (forall y, TransformerBlock.forward m x = Ok y -> values_finite_after b i modules' y)
  end.

End Sequential.

Module Llama2.

Record t : Type := mk {
  tok_emb : Embedding.t;
  trf_blocks : list TransformerBlock.t;
  final_norm : RMSNorm.t;
  out_head : Linear.t
}.

Definition of_real (dtype : Torch.dtype) (m : PureModel.Llama2.t) : t :=
  mk (Embedding.of_real (PureModel.Llama2.tok_emb m))
     (List.map (TransformerBlock.of_real dtype) (PureModel.Llama2.trf_blocks m))
     (RMSNorm.of_real dtype (PureModel.Llama2.final_norm m))
     (Linear.of_real dtype (PureModel.Llama2.out_head m)).

Definition forward (self : t) (in_idx : Tensor Z) : result (Tensor Float.t) :=
  tok_embeds <- Embedding.forward (tok_emb self) in_idx ;;
  let x := tok_embeds in
  x <- Sequential.forward (trf_blocks self) x ;;
  x <- RMSNorm.forward (final_norm self) x ;;
  logits <- Linear.forward (out_head self) x ;;
  Ok logits.

Definition wf (self : t) (vocab_size emb_dim hidden_dim context_length : nat) : Prop :=
  Embedding.wf (tok_emb self) /\
  Embedding.num_embeddings (tok_emb self) = vocab_size /\
  Embedding.embedding_dim (tok_emb self) = emb_dim /\
  Forall (fun blk => TransformerBlock.wf blk emb_dim hidden_dim context_length)
    (trf_blocks self) /\
  RMSNorm.wf (final_norm self) /\ RMSNorm.embd_dim (final_norm self) = emb_dim /\
  Linear.wf (out_head self) /\ Linear.bias (out_head self) = None /\
  Linear.in_features (out_head self) = emb_dim /\
  Linear.out_features (out_head self) = vocab_size.

End Llama2.

(** The forward pass entry by entry. *)
Module Entry.

Definition linear (l : Linear.t) (v : nat -> Float.t) (o : nat) : Float.t :=
  let s := sum (Linear.dtype l) (Linear.in_features l)
             (fun k => mul (Linear.dtype l) (v k) (elem (Linear.weight l) [o; k])) in
  match Linear.bias l with
  | Some b => add (Linear.dtype l) s (elem b [o])
  | None => s
  end.

Definition rope_rotate (dtype : Torch.dtype) (head_dim : nat) (v : nat -> Float.t)
  (m k : nat) : Float.t :=
  let half := head_dim / 2 in
  let a := Spec.rope_angle default_theta_base head_dim m (if k <? half then k else k - half) in
  add dtype (mul dtype (v k) (Num (Rtrigo_def.cos a)))
    (mul dtype (if k <? half then neg (v (k + half)) else v (k - half))
       (Num (Rtrigo_def.sin a))).

Section Attention.

Variable self : MultiHeadedAttention.t.
Variable n : nat.
Variable xs : nat -> nat -> Float.t.

Let head_dim : nat := MultiHeadedAttention.head_dim self.
Let dtype : Torch.dtype := MultiHeadedAttention.dtype self.

Definition query (h t k : nat) : Float.t :=
  rope_rotate dtype head_dim
    (fun k' => linear (MultiHeadedAttention.W_query self) (xs t) (h * head_dim + k')) t k.

Definition key (h t k : nat) : Float.t :=
  rope_rotate dtype head_dim
    (fun k' => linear (MultiHeadedAttention.W_key self) (xs t) (h * head_dim + k')) t k.

Definition value (h t k : nat) : Float.t :=
  linear (MultiHeadedAttention.W_value self) (xs t) (h * head_dim + k).

Definition score (h t j : nat) : Float.t :=
  sum dtype head_dim (fun k => mul dtype (query h t k) (key h j k)).

Definition masked_score (h t j : nat) : Float.t :=
  if t <? j then NInf else score h t j.

Definition scaled_score (h t j : nat) : Float.t :=
  div dtype (masked_score h t j) (Num (sqrt (INR head_dim))).

Definition attn_weight (h t j : nat) : Float.t :=
  softmax_row dtype n (scaled_score h t) j.

Definition context (h t k : nat) : Float.t :=
  sum dtype n (fun j => mul dtype (attn_weight h t j) (value h j k)).

Definition concat (t c : nat) : Float.t :=
  context (c / head_dim) t (c mod head_dim).

Definition attention (t c : nat) : Float.t :=
  linear (MultiHeadedAttention.out_proj self) (concat t) c.

End Attention.

Definition rms_norm (self : RMSNorm.t) (v : nat -> Float.t) (k : nat) : Float.t :=
  let d := RMSNorm.dtype self in
  let n := RMSNorm.embd_dim self in
  mul d
    (mul d (v k)
       (rsqrt d (add d (div d (sum d n (fun j => mul d (v j) (v j))) (Num (INR n)))
                   (Num (RMSNorm.eps self)))))
    (elem (RMSNorm.weight self) [k]).

Definition feed_forward (self : FeedForward.t) (v : nat -> Float.t) (o : nat) : Float.t :=
  let d := FeedForward.dtype self in
  linear (FeedForward.fc3 self)
    (fun h => mul d (silu d (linear (FeedForward.fc1 self) v h))
                (linear (FeedForward.fc2 self) v h))
    o.

Definition hidden (self : TransformerBlock.t) (n : nat) (xs : nat -> nat -> Float.t)
  (t c : nat) : Float.t :=
  add (TransformerBlock.dtype self)
    (attention (TransformerBlock.att self) n
       (fun t' => rms_norm (TransformerBlock.norm1 self) (xs t')) t c)
    (xs t c).

Definition block (self : TransformerBlock.t) (n : nat) (xs : nat -> nat -> Float.t)
  (t c : nat) : Float.t :=
  add (TransformerBlock.dtype self)
    (feed_forward (TransformerBlock.ff self)
       (rms_norm (TransformerBlock.norm2 self) (hidden self n xs t)) c)
    (hidden self n xs t c).

End Entry.

End Float.

(** ** Concrete instances

    The settings of the notebook's walk-through cells: [ExConfig] with
    [emb_dim = 8] and [hidden_dim = 4], four heads, a context of five
    positions and a batch of two sequences of four tokens. *)

Module Example.

Definition ExConfig : Config := mkConfig 0 5 8 4 false 1 4.

Definition draw : LinearInit :=
  mkLinearInit (fun idx => INR (nth 0 idx 0 + 2 * nth 1 idx 0)) (fun idx => INR (nth 0 idx 0)).

Definition inputs : Tensor R :=
  mkTensor [2; 4; 8] (fun idx => INR (nth 0 idx 0 + nth 1 idx 0 + nth 2 idx 0)).

(** [inputs] with every token after the second one changed. *)
Definition inputs' : Tensor R :=
  mkTensor [2; 4; 8]
    (fun idx => if nth 1 idx 0 <=? 1
                then INR (nth 0 idx 0 + nth 1 idx 0 + nth 2 idx 0)
                else 0%R).

Definition queries : Tensor R :=
  mkTensor [2; 4; 5; 16] (fun idx => INR (nth 2 idx 0 * nth 3 idx 0)).

Definition rms : RMSNorm.t := RMSNorm.init 8 RMSNorm.default_eps.

Definition ff : FeedForward.t := FeedForward.init ExConfig draw draw draw.

Definition get {A : Type} (r : result A) (default : A) : A :=
  match r with
  | Ok a => a
  | Raise _ => default
  end.

Definition no_linear : Linear.t := Linear.init 0 0 false draw.

Definition no_mha : MultiHeadedAttention.t :=
  MultiHeadedAttention.mk 0 0 0 no_linear no_linear no_linear no_linear
    (Torch.ones []) (Torch.ones []) (Torch.ones []).

Definition mha : MultiHeadedAttention.t :=
  get (MultiHeadedAttention.init 8 8 5 4 draw draw draw draw) no_mha.

Definition block : TransformerBlock.t :=
  get (TransformerBlock.init ExConfig
         (TransformerBlock.mkInit draw draw draw draw draw draw draw))
      (TransformerBlock.mk no_mha ff rms rms).

(** A store holding [inputs] and the parameters and buffers of [mha], and
    the module whose handles point into it. *)
Definition store : Heap.store :=
  [ Heap.DReal inputs;
    Heap.DReal (Linear.weight (MultiHeadedAttention.W_query mha));
    Heap.DReal (Linear.weight (MultiHeadedAttention.W_key mha));
    Heap.DReal (Linear.weight (MultiHeadedAttention.W_value mha));
    Heap.DReal (Linear.weight (MultiHeadedAttention.out_proj mha));
    Heap.DReal (MultiHeadedAttention.mask mha);
    Heap.DReal (MultiHeadedAttention.cos mha);
    Heap.DReal (MultiHeadedAttention.sin mha) ].

Definition at_ (l : nat) : Heap.handle := Heap.mkHandle l [].

Definition heap_mha : Heap.MultiHeadedAttention.t :=
  Heap.MultiHeadedAttention.mk 8 4 2
    (Heap.Linear.mk 8 8 (at_ 1) None) (Heap.Linear.mk 8 8 (at_ 2) None)
    (Heap.Linear.mk 8 8 (at_ 3) None) (Heap.Linear.mk 8 8 (at_ 4) None)
    (at_ 5) (at_ 6) (at_ 7).

(** A model of two layers over a vocabulary of ten tokens, and a batch of two
    sequences of four token ids. *)
Definition LlamaConfig : Config := mkConfig 10 5 8 4 false 2 4.

Definition llama_draw : Llama2.Init :=
  Llama2.mkInit (fun idx => INR (nth 0 idx 0 + nth 1 idx 0))
    (fun _ => TransformerBlock.mkInit draw draw draw draw draw draw draw) draw.

Definition no_model : Llama2.t :=
  Llama2.mk (Embedding.init 0 0 (fun _ => 0%R)) [] rms no_linear.

Definition model : Llama2.t := get (Llama2.init LlamaConfig llama_draw) no_model.

Definition tokens : Tensor Z :=
  mkTensor [2; 4] (fun idx => Z.of_nat (nth 0 idx 0 + 2 * nth 1 idx 0)).

(** [tokens] with every id after the second position changed. *)
Definition tokens' : Tensor Z :=
  mkTensor [2; 4]
    (fun idx => if nth 1 idx 0 <=? 1 then Z.of_nat (nth 0 idx 0 + 2 * nth 1 idx 0) else 9%Z).

(** [tokens] with the id 10, one past the vocabulary, at the last position
    of the second sequence. *)
Definition bad_tokens : Tensor Z :=
  mkTensor [2; 4]
    (fun idx => if (nth 0 idx 0 =? 1) && (nth 1 idx 0 =? 3) then 10%Z
                else Z.of_nat (nth 0 idx 0 + 2 * nth 1 idx 0)).

(** One sequence without a batch dimension, and a batch of sequences one
    token longer than the context. *)
Definition flat_tokens : Tensor Z := mkTensor [4] (fun idx => Z.of_nat (nth 0 idx 0)).

Definition long_tokens : Tensor Z := mkTensor [2; 6] (fun idx => Z.of_nat (nth 1 idx 0)).

Definition long_inputs : Tensor R :=
  mkTensor [2; 6; 8] (fun idx => INR (nth 1 idx 0 + nth 2 idx 0)).

(** An attention layer built for a context of one position. *)
Definition unit_mha : MultiHeadedAttention.t :=
  get (MultiHeadedAttention.init 8 8 1 4 draw draw draw draw) no_mha.

(** A model of one layer, a store holding its parameters and buffers, and
    the model whose handles point into it. *)
Definition small_model : Llama2.t :=
  get (Llama2.init (mkConfig 10 5 8 4 false 1 4) llama_draw) no_model.

Definition first_block : TransformerBlock.t := nth 0 (Llama2.trf_blocks small_model) block.

Definition model_store : Heap.store :=
  [ Heap.DReal (Embedding.weight (Llama2.tok_emb small_model));
    Heap.DReal (Linear.weight (MultiHeadedAttention.W_query (TransformerBlock.att first_block)));
    Heap.DReal (Linear.weight (MultiHeadedAttention.W_key (TransformerBlock.att first_block)));
    Heap.DReal (Linear.weight (MultiHeadedAttention.W_value (TransformerBlock.att first_block)));
    Heap.DReal (Linear.weight (MultiHeadedAttention.out_proj (TransformerBlock.att first_block)));
    Heap.DReal (MultiHeadedAttention.mask (TransformerBlock.att first_block));
    Heap.DReal (MultiHeadedAttention.cos (TransformerBlock.att first_block));
    Heap.DReal (MultiHeadedAttention.sin (TransformerBlock.att first_block));
    Heap.DReal (Linear.weight (FeedForward.fc1 (TransformerBlock.ff first_block)));
    Heap.DReal (Linear.weight (FeedForward.fc2 (TransformerBlock.ff first_block)));
    Heap.DReal (Linear.weight (FeedForward.fc3 (TransformerBlock.ff first_block)));
    Heap.DReal (RMSNorm.weight (TransformerBlock.norm1 first_block));
    Heap.DReal (RMSNorm.weight (TransformerBlock.norm2 first_block));
    Heap.DReal (RMSNorm.weight (Llama2.final_norm small_model));
    Heap.DReal (Linear.weight (Llama2.out_head small_model)) ].

Definition heap_model : HeapModel.Llama2.t :=
  HeapModel.Llama2.mk
    (HeapModel.Embedding.mk 10 8 (at_ 0))
    [ Heap.TransformerBlock.mk
        (Heap.MultiHeadedAttention.mk 8 4 2
           (Heap.Linear.mk 8 8 (at_ 1) None) (Heap.Linear.mk 8 8 (at_ 2) None)
           (Heap.Linear.mk 8 8 (at_ 3) None) (Heap.Linear.mk 8 8 (at_ 4) None)
           (at_ 5) (at_ 6) (at_ 7))
        (Heap.FeedForward.mk
           (Heap.Linear.mk 8 4 (at_ 8) None) (Heap.Linear.mk 8 4 (at_ 9) None)
           (Heap.Linear.mk 4 8 (at_ 10) None))
        (Heap.RMSNorm.mk RMSNorm.default_eps 8 (at_ 11))
        (Heap.RMSNorm.mk RMSNorm.default_eps 8 (at_ 12)) ]
    (Heap.RMSNorm.mk RMSNorm.default_eps 8 (at_ 13))
    (Heap.Linear.mk 8 10 (at_ 14) None).

(** A float module to run by hand, and inputs for it. *)
Definition zero_draw : LinearInit := mkLinearInit (fun _ => 0%R) (fun _ => 0%R).

Definition eye_draw : LinearInit :=
  mkLinearInit (fun idx => if nth 0 idx 0 =? nth 1 idx 0 then 1%R else 0%R) (fun _ => 0%R).

(** One head of width 2 over two positions, in float32: the query and key
    weights are zero, the value and output weights the identity. *)
Definition float_mha : Float.MultiHeadedAttention.t :=
  get
    (Float.MultiHeadedAttention.init 2 2 2 1 Torch.float32 zero_draw zero_draw eye_draw eye_draw)
    (Float.MultiHeadedAttention.of_real Torch.float32 no_mha).

Definition float_inputs : Tensor Float.t := mkTensor [1; 2; 2] (fun _ => Float.Num 1).

(** [float_inputs] with the second token set to zero, and with an infinity
    in the second token. *)
Definition float_inputs' : Tensor Float.t :=
  mkTensor [1; 2; 2] (fun idx => if nth 1 idx 0 =? 1 then Float.Num 0 else Float.Num 1).

(** The value projection of [float_inputs]. *)
Definition float_values : Tensor Float.t :=
  get (Float.Linear.forward (Float.MultiHeadedAttention.W_value float_mha) float_inputs)
      float_inputs.

Definition inf_inputs : Tensor Float.t :=
  mkTensor [1; 2; 2]
    (fun idx => if (nth 1 idx 0 =? 1) && (nth 2 idx 0 =? 0) then Float.PInf else Float.Num 1).

(** A float block and a float model of one layer around an attention layer
    with zero weights, over a vocabulary of two tokens: id 0 is embedded as
    (1, 1) and id 1 as (0, 0). *)
Definition FloatConfig : Config := mkConfig 2 2 2 1 false 1 2.

Definition zero_block : TransformerBlock.Init :=
  TransformerBlock.mkInit zero_draw zero_draw zero_draw zero_draw
    zero_draw zero_draw zero_draw.

Definition float_block : Float.TransformerBlock.t :=
  Float.TransformerBlock.of_real Torch.float32
    (get (TransformerBlock.init FloatConfig zero_block) block).

Definition float_model : Float.Llama2.t :=
  Float.Llama2.of_real Torch.float32
    (get (Llama2.init FloatConfig
            (Llama2.mkInit (fun idx => if nth 0 idx 0 =? 0 then 1%R else 0%R)
               (fun _ => zero_block) eye_draw))
         no_model).

Definition float_tokens : Tensor Z := mkTensor [1; 2] (fun _ => 0%Z).

Definition float_tokens' : Tensor Z := mkTensor [1; 2] (fun idx => Z.of_nat (nth 1 idx 0)).

End Example.

(** * Running the definitions on concrete inputs *)

Unset Implicit Arguments.

Example arange_evens :
  shape (Torch.arange 0 16 2) = [8] /\ elem (Torch.arange 0 16 2) [3] = 6.
Proof. split; reflexivity. Qed.

Example broadcast_rope_tables :
  Torch.broadcast_shapes [2; 4; 5; 16] [1; 1; 5; 16] = Some [2; 4; 5; 16] /\
  Torch.broadcast_shapes [1; 1; 3; 2] [1; 1; 2; 2] = None /\
  Torch.broadcast_shapes [1; 1; 1; 2] [1; 1; 0; 2] = Some [1; 1; 0; 2].
Proof. repeat split; reflexivity. Qed.

Example mask_is_strictly_upper :
  exists m,
    Torch.triu (Torch.ones [3; 3]) 1 = Ok m /\
    elem m [0; 1] = 1%R /\ elem m [1; 1] = 0%R /\ elem m [2; 0] = 0%R.
Proof. eexists. repeat split; reflexivity. Qed.

Example view_splits_heads :
  exists y,
    Torch.view (mkTensor [1; 2; 4] (fun idx => INR (nth 2 idx 0))) [1; 2; 2; 2] = Ok y /\
    elem y [0; 1; 1; 0] = 2%R.
Proof. eexists. split; [reflexivity|]. simpl. lra. Qed.

Example rms_norm_of_3_4 :
  exists y,
    RMSNorm.forward (RMSNorm.init 2 0) (mkTensor [2] (fun idx => INR (3 + nth 0 idx 0))) = Ok y /\
    elem y [0] = (3 / (5 / sqrt 2))%R.
Proof.
  eexists. split; [reflexivity|]. simpl.
  replace ((0 + (1 + 1 + 1) * ((1 + 1 + 1) * 1) + (1 + 1 + 1 + 1) * ((1 + 1 + 1 + 1) * 1))
           / (1 + 1) + 0)%R
    with (25 / 2)%R by lra.
  rewrite sqrt_div_alt by lra.
  replace 25%R with (5 * 5)%R by lra. rewrite sqrt_square by lra.
  assert (0 < sqrt 2)%R by (apply sqrt_lt_R0; lra).
  field. lra.
Qed.

Example rope_on_queries :
  exists cos sin y,
    precompute_rope_params 16 default_theta_base 5 = Ok (cos, sin) /\
    shape cos = [5; 16] /\
    compute_rope Example.queries cos sin = Ok y /\
    shape y = [2; 4; 5; 16].
Proof. eexists. eexists. eexists. repeat split; reflexivity. Qed.

Example rms_norm_on_the_store :
  exists h s',
    Heap.RMSNorm.forward (Heap.RMSNorm.mk RMSNorm.default_eps 8 (Example.at_ 1))
      (Example.at_ 0) [Heap.DReal Example.inputs; Heap.DReal (Torch.ones [8])]
    = Ok (h, s') /\
    firstn 2 s' = [Heap.DReal Example.inputs; Heap.DReal (Torch.ones [8])] /\
    length s' = 8 /\ h = Example.at_ 7.
Proof. eexists. eexists. repeat split; reflexivity. Qed.

Example masked_fill_overwrites :
  Heap.masked_fill_ (Example.at_ 0) (Example.at_ 1) NegInf
    [Heap.DReal (Torch.ones [2; 2]);
     Heap.DBool (mkTensor [2; 2] (fun idx => nth 0 idx 0 <? nth 1 idx 0))]
  = Ok (tt,
        [Heap.DScore (mkTensor [2; 2]
           (fun idx => if nth 0 (Torch.bidx [2; 2] idx) 0 <? nth 1 (Torch.bidx [2; 2] idx) 0
                       then NegInf else Fin 1));
         Heap.DBool (mkTensor [2; 2] (fun idx => nth 0 idx 0 <? nth 1 idx 0))]).
Proof. reflexivity. Qed.

Example indices_row_major : Torch.indices [2; 2] = [[0; 0]; [0; 1]; [1; 0]; [1; 1]].
Proof. reflexivity. Qed.

Example embedding_looks_up_rows :
  (exists y,
     Torch.embedding (mkTensor [2] (fun idx => Z.of_nat (nth 0 idx 0)))
       (mkTensor [3; 2] (fun idx => INR (10 * nth 0 idx 0 + nth 1 idx 0))) = Ok y /\
     shape y = [2; 2] /\ elem y [1; 1] = 11%R) /\
  Torch.embedding (mkTensor [1] (fun _ => 3%Z)) (mkTensor [3; 2] (fun _ => 0%R))
  = Raise IndexError /\
  Torch.embedding (mkTensor [1] (fun _ => (-1)%Z)) (mkTensor [3; 2] (fun _ => 0%R))
  = Raise IndexError.
Proof.
  split; [|split; reflexivity].
  eexists. split; [reflexivity|]. split; [reflexivity|]. simpl. lra.
Qed.

Example parameters_and_buffers_of_the_model :
  total_params Example.model = 904 /\ total_buffers Example.model = 90 /\
  length (nn.parameters Example.model) = 21 /\ length (nn.buffers Example.model) = 6.
Proof. repeat split; reflexivity. Qed.

(** Float arithmetic: NaN out of zero times infinity, overflow to infinity. *)
Example zero_times_infinity :
  Float.mul Torch.float32 (Float.Num 0) Float.PInf = Float.NaN /\
  Float.add Torch.float32 Float.PInf Float.NInf = Float.NaN /\
  Float.exp Torch.float32 Float.NInf = Float.Num 0.
Proof.
  repeat split. cbn. unfold Float.scale_inf.
  destruct (Req_dec_T 0 0); [reflexivity|lra].
Qed.

Example float32_overflows :
  Float.mul Torch.float32 (Float.Num (2 ^ 64)) (Float.Num (2 ^ 64)) = Float.PInf.
Proof.
  unfold Float.mul, Float.round, Float.finfo_max. rewrite <- pow_add.
  change (64 + 64) with (S 127). rewrite <- tech_pow_Rmult.
  assert (P : (0 < 2 ^ 127)%R) by (apply pow_lt; lra).
  assert (Q : (0 < / 2 ^ 23)%R) by (apply Rinv_0_lt_compat, pow_lt; lra).
  rewrite Rabs_right by nra.
  destruct (Rle_dec _ _) as [H|_]; [nra|].
  destruct (Rlt_dec _ _) as [_|H]; [reflexivity|nra].
Qed.

(** * Facts about the tensor operations *)

Lemma Rsum_ext (n : nat) (f g : nat -> R) :
  (forall k, k < n -> f k = g k) -> Rsum n f = Rsum n g.
Proof.
  induction n as [|n IH]; intros H; simpl; [reflexivity|].
  rewrite IH by (intros; apply H; lia).
  rewrite (H n) by lia. reflexivity.
Qed.

Lemma set_last_app (pi : list nat) (k j : nat) :
  Torch.set_last (pi ++ [k]) j = pi ++ [j].
Proof. unfold Torch.set_last. now rewrite removelast_last. Qed.

Lemma valid_app (s1 s2 i1 i2 : list nat) :
  valid s1 i1 -> valid s2 i2 -> valid (s1 ++ s2) (i1 ++ i2).
Proof. unfold valid. apply Forall2_app. Qed.

Lemma valid_rev (s idx : list nat) : valid s idx -> valid (rev s) (rev idx).
Proof.
  unfold valid. induction 1; simpl; [constructor|].
  apply Forall2_app; [assumption|]. constructor; [assumption|constructor].
Qed.

Lemma bdim_same (a : nat) : Torch.bdim a a = Some a.
Proof. unfold Torch.bdim. now rewrite Nat.eqb_refl. Qed.

Lemma bdim_one_r (a : nat) : Torch.bdim a 1 = Some a.
Proof.
  unfold Torch.bdim. destruct (a =? 1) eqn:E; [|reflexivity].
  apply Nat.eqb_eq in E. now subst.
Qed.

Lemma bdim_one_l (a : nat) : Torch.bdim 1 a = Some a.
Proof.
  unfold Torch.bdim. destruct (1 =? a) eqn:E; [|reflexivity].
  apply Nat.eqb_eq in E. now subst.
Qed.

Lemma bshape_rev_same (r : list nat) : Torch.bshape_rev r r = Some r.
Proof.
  induction r as [|a r IH]; simpl; [reflexivity|].
  now rewrite bdim_same, IH.
Qed.

Lemma bshape_rev_nil_r (r : list nat) : Torch.bshape_rev r [] = Some r.
Proof. now destruct r. Qed.

Lemma broadcast_same (s : list nat) : Torch.broadcast_shapes s s = Some s.
Proof.
  unfold Torch.broadcast_shapes. rewrite bshape_rev_same. simpl.
  now rewrite rev_involutive.
Qed.

(** A tensor of shape [pre ++ [d]] against one of shape [pre ++ [1]], the
    result of a reduction with [keepdim]. *)
Lemma broadcast_keepdim (pre : list nat) (d : nat) :
  Torch.broadcast_shapes (pre ++ [d]) (pre ++ [1]) = Some (pre ++ [d]).
Proof.
  unfold Torch.broadcast_shapes. rewrite !rev_unit. simpl.
  rewrite bdim_one_r, bshape_rev_same. simpl.
  now rewrite rev_involutive.
Qed.

(** A tensor of shape [pre ++ [d]] against a vector of length [d]. *)
Lemma broadcast_vector (pre : list nat) (d : nat) :
  Torch.broadcast_shapes (pre ++ [d]) [d] = Some (pre ++ [d]).
Proof.
  unfold Torch.broadcast_shapes. rewrite rev_unit. simpl.
  rewrite bdim_same, bshape_rev_nil_r. simpl.
  now rewrite rev_involutive.
Qed.

Lemma bidx_rev_valid (rs ri : list nat) : valid rs ri -> Torch.bidx_rev rs ri = ri.
Proof.
  unfold valid. induction 1 as [|i d ri rs Hlt _ IH]; simpl; [reflexivity|].
  rewrite IH. destruct (d =? 1) eqn:E; [|reflexivity].
  apply Nat.eqb_eq in E. f_equal. lia.
Qed.

(** An operand that already has the result's shape is read at the same index. *)
Lemma bidx_valid (s idx : list nat) : valid s idx -> Torch.bidx s idx = idx.
Proof.
  intros H. unfold Torch.bidx. rewrite bidx_rev_valid by now apply valid_rev.
  apply rev_involutive.
Qed.

Lemma bidx_app (pre pi : list nat) (d k : nat) :
  Torch.bidx (pre ++ [d]) (pi ++ [k]) = Torch.bidx pre pi ++ [if d =? 1 then 0 else k].
Proof. unfold Torch.bidx. rewrite !rev_unit. reflexivity. Qed.

Lemma bidx_vector (pi : list nat) (d k : nat) :
  k < d -> Torch.bidx [d] (pi ++ [k]) = [k].
Proof.
  intros H. unfold Torch.bidx. rewrite rev_unit. simpl.
  destruct (rev pi); destruct (d =? 1) eqn:E; simpl; try reflexivity;
    apply Nat.eqb_eq in E; f_equal; lia.
Qed.

Lemma bidx_keepdim (pre pi : list nat) (k : nat) :
  valid pre pi -> Torch.bidx (pre ++ [1]) (pi ++ [k]) = pi ++ [0].
Proof. intros H. rewrite bidx_app, bidx_valid by assumption. reflexivity. Qed.

Lemma bidx_full (pre pi : list nat) (d k : nat) :
  valid pre pi -> k < d -> Torch.bidx (pre ++ [d]) (pi ++ [k]) = pi ++ [k].
Proof.
  intros H Hk. apply bidx_valid. apply valid_app; [assumption|].
  constructor; [assumption|constructor].
Qed.

Lemma binop_ok {A B C : Type} (f : A -> B -> C) (x : Tensor A) (y : Tensor B) (s : list nat) :
  Torch.broadcast_shapes (shape x) (shape y) = Some s ->
  Torch.binop f x y =
  Ok (mkTensor s (fun idx =>
        f (elem x (Torch.bidx (shape x) idx)) (elem y (Torch.bidx (shape y) idx)))).
Proof. intros H. unfold Torch.binop. now rewrite H. Qed.

Lemma mean_last_keepdim_app (x : Tensor R) (pre : list nat) (d : nat) :
  shape x = pre ++ [d] ->
  Torch.mean_last_keepdim x =
  mkTensor (pre ++ [1])
    (fun idx => (Rsum d (fun j => elem x (Torch.set_last idx j)) / INR d)%R).
Proof.
  intros H. unfold Torch.mean_last_keepdim. rewrite H.
  rewrite last_last, removelast_last.
  destruct (pre ++ [d]) eqn:E; [|reflexivity].
  now destruct pre.
Qed.

(** * Linear, RMSNorm and FeedForward on tensors of any rank *)

Lemma spec_linear_ext (l : Linear.t) (v v' : nat -> R) (o : nat) :
  (forall k, k < Linear.in_features l -> v k = v' k) ->
  Spec.linear l v o = Spec.linear l v' o.
Proof.
  intros H. unfold Spec.linear.
  rewrite (Rsum_ext (Linear.in_features l)
             (fun k => (v k * elem (Linear.weight l) [o; k])%R)
             (fun k => (v' k * elem (Linear.weight l) [o; k])%R))
    by (intros k Hk; now rewrite H).
  reflexivity.
Qed.

Lemma Linear_forward_spec (l : Linear.t) (x : Tensor R) (pre : list nat) :
  Linear.wf l ->
  shape x = pre ++ [Linear.in_features l] ->
  exists y,
    Linear.forward l x = Ok y /\
    shape y = pre ++ [Linear.out_features l] /\
    forall pi o, valid pre pi -> o < Linear.out_features l ->
      elem y (pi ++ [o]) = Spec.linear l (fun k => elem x (pi ++ [k])) o.
Proof.
  intros [HW Hb] Hx. unfold Linear.forward, Torch.linear, Spec.linear.
  rewrite HW, Hx, last_last, Nat.eqb_refl, removelast_last.
  destruct (pre ++ [Linear.in_features l]) eqn:E; [now destruct pre|]. clear E.
  destruct (Linear.bias l) as [b|].
  - unfold Torch.add. erewrite binop_ok by (simpl; rewrite Hb; apply broadcast_vector).
    eexists. split; [reflexivity|]. split; [reflexivity|].
    intros pi o Hpi Ho. cbn [elem shape]. rewrite Hb.
    rewrite bidx_full, bidx_vector, last_last by assumption.
    f_equal. apply Rsum_ext. intros k _. now rewrite set_last_app.
  - eexists. split; [reflexivity|]. split; [reflexivity|].
    intros pi o Hpi Ho. cbn [elem]. rewrite last_last.
    apply Rsum_ext. intros k _. now rewrite set_last_app.
Qed.

Lemma RMSNorm_forward_spec (self : RMSNorm.t) (x : Tensor R) (pre : list nat) :
  RMSNorm.wf self ->
  shape x = pre ++ [RMSNorm.embd_dim self] ->
  exists y,
    RMSNorm.forward self x = Ok y /\
    shape y = pre ++ [RMSNorm.embd_dim self] /\
    forall pi k, valid pre pi -> k < RMSNorm.embd_dim self ->
      elem y (pi ++ [k]) = Spec.rms_norm self (fun j => elem x (pi ++ [j])) k.
Proof.
  intros Hw Hx. unfold RMSNorm.wf in Hw. unfold Spec.rms_norm.
  set (d := RMSNorm.embd_dim self) in *.
  unfold RMSNorm.forward, Torch.mul.
  rewrite (mean_last_keepdim_app (Torch.pow x 2) pre d) by exact Hx.
  erewrite binop_ok by (simpl; rewrite Hx; apply broadcast_keepdim).
  cbn [bind].
  erewrite binop_ok by (simpl; rewrite Hw; apply broadcast_vector).
  cbn [bind]. eexists. split; [reflexivity|]. split; [reflexivity|].
  intros pi k Hpi Hk.
  cbn [elem shape Torch.to_dtype Torch.rsqrt Torch.add_scalar Torch.map Torch.pow].
  rewrite Hx, Hw.
  rewrite !bidx_full, bidx_keepdim, bidx_vector by assumption.
  do 6 f_equal.
  apply Rsum_ext. intros j _. now rewrite set_last_app.
Qed.

Lemma FeedForward_forward_spec (self : FeedForward.t) (x : Tensor R) (pre : list nat)
  (emb hidden : nat) :
  FeedForward.wf self emb hidden ->
  shape x = pre ++ [emb] ->
  exists y,
    FeedForward.forward self x = Ok y /\
    shape y = pre ++ [emb] /\
    forall pi o, valid pre pi -> o < emb ->
      elem y (pi ++ [o]) = Spec.feed_forward self (fun k => elem x (pi ++ [k])) o.
Proof.
  intros (W1 & W2 & W3 & I1 & O1 & I2 & O2 & I3 & O3) Hx.
  unfold FeedForward.forward, Spec.feed_forward.
  destruct (Linear_forward_spec (FeedForward.fc1 self) x pre W1)
    as (y1 & E1 & S1 & V1); [now rewrite I1|].
  destruct (Linear_forward_spec (FeedForward.fc2 self) x pre W2)
    as (y2 & E2 & S2 & V2); [now rewrite I2|].
  rewrite E1, E2. cbn [bind]. unfold Torch.mul.
  erewrite binop_ok by (simpl; rewrite S1, S2, O1, O2; apply broadcast_same).
  cbn [bind].
  match goal with |- context [Linear.forward _ ?m] => set (g := m) end.
  destruct (Linear_forward_spec (FeedForward.fc3 self) g pre W3)
    as (y3 & E3 & S3 & V3); [now rewrite I3|].
  exists y3. split; [exact E3|]. split; [now rewrite S3, O3|].
  intros pi o Hpi Ho. rewrite V3 by (rewrite ?O3; assumption).
  apply spec_linear_ext. intros k Hk. rewrite I3 in Hk.
  subst g. cbn [elem shape Torch.silu Torch.map].
  rewrite S1, S2, O1, O2, !bidx_full by assumption.
  rewrite V1, V2 by (rewrite ?O1, ?O2; assumption). reflexivity.
Qed.

(** * Symbolic evaluation of the operations at ranks two to four *)

Lemma arange_even_half hd : hd mod 2 = 0 -> Nat.min (hd / 2) ((hd - 0 + (2 - 1)) / 2) = hd / 2.
Proof.
  intros H. apply Nat.min_l. apply Nat.Div0.div_le_mono. lia.
Qed.

Lemma half_double hd : hd mod 2 = 0 -> hd / 2 + hd / 2 = hd.
Proof. intros H. pose proof (Nat.div_mod_eq hd 2). lia. Qed.

Lemma rope_angle_code theta hd m j :
  (INR (0 + 1 * m) * (1 / Rpower theta (INR (0 + 2 * j) / INR hd)))%R
  = Spec.rope_angle theta hd m j.
Proof.
  unfold Spec.rope_angle. rewrite Nat.add_0_l, Nat.mul_1_l.
  f_equal. rewrite Rpower_Ropp. rewrite Nat.add_0_l, mult_INR. simpl INR.
  unfold Rdiv at 1. rewrite Rmult_1_l. reflexivity.
Qed.

(** Unfold the total operations and compute on shapes and indices, leaving
    arithmetic on symbolic dimensions alone. *)
Ltac tsimpl :=
  cbn [shape elem length rev app nth bind fst snd firstn
       Torch.upd Torch.insert_at Torch.remove_at Torch.swap Torch.set_last removelast last
       Torch.float Torch.map Torch.bool_ Torch.neg Torch.pow Torch.rsqrt Torch.cos Torch.sin
       Torch.add_scalar Torch.div_scalar Torch.scalar_div Torch.scalar_pow Torch.silu
       Torch.to_dtype Torch.xdiv_scalar Torch.ones Torch.arange Nat.sub
       Torch.bshape_rev Torch.bidx_rev Torch.shape_eqb option_map
       Torch.unpack3 Torch.unpack4 py_assert].

(** Decide the comparisons between closed numbers. *)
Ltac closed_cmp :=
  repeat match goal with
  | |- context [?a <? ?b] =>
      let v := eval vm_compute in (a <? b) in
      match v with
      | true => change (a <? b) with true
      | false => change (a <? b) with false
      end
  | |- context [?a <=? ?b] =>
      let v := eval vm_compute in (a <=? b) in
      match v with
      | true => change (a <=? b) with true
      | false => change (a <=? b) with false
      end
  | |- context [?a =? ?b] =>
      let v := eval vm_compute in (a =? b) in
      match v with
      | true => change (a =? b) with true
      | false => change (a =? b) with false
      end
  end; cbn [andb negb orb].

Ltac tstep := repeat (tsimpl; closed_cmp).

Lemma bsel (d i : nat) : i < d -> (if d =? 1 then 0 else i) = i.
Proof. intros H. destruct (d =? 1) eqn:E; [apply Nat.eqb_eq in E; lia|reflexivity]. Qed.

Lemma precompute_rope_params_spec hd theta ctx :
  hd mod 2 = 0 ->
  exists c s,
    precompute_rope_params hd theta ctx = Ok (c, s) /\
    is2 c ctx hd
      (fun m k => cos (Spec.rope_angle theta hd m (if k <? hd / 2 then k else k - hd / 2))) /\
    is2 s ctx hd
      (fun m k => sin (Spec.rope_angle theta hd m (if k <? hd / 2 then k else k - hd / 2))).
Proof.
  intros Hev. unfold precompute_rope_params.
  rewrite Hev. unfold Torch.slice_to, Torch.unsqueeze. tstep.
  rewrite arange_even_half by assumption.
  unfold Torch.mul. erewrite binop_ok.
  2:{ unfold Torch.broadcast_shapes. tstep.
      rewrite bdim_one_l, bdim_one_r. reflexivity. }
  unfold Torch.cat. tstep.
  rewrite !Nat.eqb_refl, !andb_false_r. tstep.
  rewrite Nat.sub_0_r, Nat.add_0_r, Nat.div_1_r, half_double by assumption.
  pose proof (half_double hd Hev) as Hh.
  eexists. eexists. split; [reflexivity|].
  split; (split; [reflexivity|]); intros m k Hm Hk; tstep;
    unfold Torch.bidx; tstep; rewrite (bsel ctx m) by assumption;
    destruct (k <? hd / 2) eqn:Ek;
    [apply Nat.ltb_lt in Ek|apply Nat.ltb_ge in Ek|apply Nat.ltb_lt in Ek|apply Nat.ltb_ge in Ek];
    tstep; rewrite bsel by lia; now rewrite rope_angle_code.
Qed.

(** Replace a tensor described by [is2], [is3] or [is4] by its shape and
    entry function. *)
Ltac open_is H :=
  let Hs := fresh "Hs" in let He := fresh "He" in
  destruct H as [Hs He];
  match type of Hs with shape ?x = _ =>
    let sx := fresh "sx" in let ex := fresh "ex" in
    destruct x as [sx ex]; cbn [shape elem] in Hs, He; subst sx
  end.

(** An index below the dimension is read as it is, also when the dimension
    is one. *)
Ltac bsel_tac :=
  repeat match goal with
  | |- context [if ?d =? 1 then 0 else ?i] => rewrite (bsel d i) by lia
  end.

Lemma half_le hd : hd / 2 <= hd.
Proof. apply Nat.Div0.div_le_upper_bound. lia. Qed.

Lemma compute_rope_spec (x cos sin : Tensor R) (b h s hd c0 : nat)
  (f : nat -> nat -> nat -> nat -> R) (fc fs : nat -> nat -> R) :
  is4 x b h s hd f -> hd mod 2 = 0 -> is2 cos c0 hd fc -> is2 sin c0 hd fs -> s <= c0 ->
  exists y,
    compute_rope x cos sin = Ok y /\
    is4 y b h s hd (fun i j m k =>
      (f i j m k * fc m k
       + (if k <? hd / 2 then - f i j m (k + hd / 2)%nat else f i j m (k - hd / 2)%nat)
         * fs m k)%R).
Proof.
  intros Hx Hev Hc Hs Hle. open_is Hx. open_is Hc. open_is Hs.
  pose proof (half_double hd Hev) as Hh. pose proof (half_le hd) as Hl.
  unfold compute_rope, Torch.last_dim. tstep. rewrite Hev.
  unfold Torch.slice_to, Torch.slice_from, Torch.rows_to, Torch.unsqueeze. tstep.
  unfold Torch.slice_to. tstep.
  unfold Torch.cat. tstep. rewrite !Nat.eqb_refl, !andb_false_r. tstep.
  rewrite (Nat.min_l (hd / 2) hd), (Nat.min_l s c0) by lia.
  replace (hd - hd / 2) with (hd / 2) by lia. rewrite Hh.
  unfold Torch.mul, Torch.add.
  erewrite binop_ok.
  2:{ unfold Torch.broadcast_shapes. tstep.
      rewrite !bdim_same, !bdim_one_r. reflexivity. }
  tstep.
  erewrite binop_ok.
  2:{ unfold Torch.broadcast_shapes. tstep.
      rewrite !bdim_same, !bdim_one_r. reflexivity. }
  tstep.
  erewrite binop_ok by (tstep; apply broadcast_same).
  tstep. eexists. split; [reflexivity|]. split; [reflexivity|].
  intros i j m k Hi Hj Hm Hk. tstep. unfold Torch.bidx. tstep.
  bsel_tac.
  rewrite He, He0, He1 by lia.
  destruct (k <? hd / 2) eqn:Ek;
    [apply Nat.ltb_lt in Ek|apply Nat.ltb_ge in Ek]; rewrite He by lia; reflexivity.
Qed.

Lemma divmod_lin (q d r : nat) : r < d -> (q * d + r) / d = q /\ (q * d + r) mod d = r.
Proof.
  intros H. split.
  - symmetry. apply (Nat.div_unique _ d q r); lia.
  - symmetry. apply (Nat.mod_unique _ d q r); lia.
Qed.

Lemma div_lin (q d r : nat) : r < d -> (q * d + r) / d = q.
Proof. intros H. now apply divmod_lin. Qed.

Lemma mod_lin (q d r : nat) : r < d -> (q * d + r) mod d = r.
Proof. intros H. now apply divmod_lin. Qed.

Lemma head_split (hd c : nat) : c / hd * hd + c mod hd = c.
Proof. pose proof (Nat.div_mod_eq c hd). lia. Qed.

Lemma view_split {A : Type} (x : Tensor A) (b n H hd : nat) (f : nat -> nat -> nat -> A) :
  is3 x b n (H * hd) f ->
  exists y,
    Torch.view x [b; n; H; hd] = Ok y /\
    is4 y b n H hd (fun i t h k => f i t (h * hd + k)).
Proof.
  intros Hx. open_is Hx. unfold Torch.view. tsimpl.
  replace (Torch.numel [b; n; H; hd]) with (Torch.numel [b; n; H * hd])
    by (unfold Torch.numel; simpl; lia).
  rewrite Nat.eqb_refl. eexists. split; [reflexivity|]. split; [reflexivity|].
  intros i t h k Hi Ht Hh Hk. tsimpl.
  unfold Torch.unravel, Torch.ravel. cbn [rev app Torch.unravel_rev Torch.ravel_from].
  assert (Hc : h * hd + k < H * hd) by nia.
  replace ((((0 * b + i) * n + t) * H + h) * hd + k)
    with ((i * n + t) * (H * hd) + (h * hd + k)) by lia.
  rewrite mod_lin, div_lin by assumption.
  rewrite mod_lin, div_lin by assumption.
  rewrite Nat.mod_small by assumption.
  now apply He.
Qed.

Lemma reshape_merge {A : Type} (x : Tensor A) (b n H hd : nat)
  (f : nat -> nat -> nat -> nat -> A) :
  is4 x b n H hd f ->
  exists y,
    Torch.reshape x [b; n; H * hd] = Ok y /\
    is3 y b n (H * hd) (fun i t c => f i t (c / hd) (c mod hd)).
Proof.
  intros Hx. open_is Hx. unfold Torch.reshape, Torch.view. tsimpl.
  replace (Torch.numel [b; n; H * hd]) with (Torch.numel [b; n; H; hd])
    by (unfold Torch.numel; simpl; lia).
  rewrite Nat.eqb_refl. eexists. split; [reflexivity|]. split; [reflexivity|].
  intros i t c Hi Ht Hc. tsimpl.
  unfold Torch.unravel, Torch.ravel. cbn [rev app Torch.unravel_rev Torch.ravel_from].
  assert (Hpos : 0 < hd) by nia.
  assert (Hm : c mod hd < hd) by (apply Nat.mod_upper_bound; lia).
  assert (Hd : c / hd < H) by (apply Nat.Div0.div_lt_upper_bound; lia).
  pose proof (Nat.div_mod_eq c hd) as Hdm.
  replace (((0 * b + i) * n + t) * (H * hd) + c)
    with (((i * n + t) * H + c / hd) * hd + c mod hd) by nia.
  rewrite mod_lin, div_lin by assumption.
  rewrite mod_lin, div_lin by assumption.
  rewrite mod_lin, div_lin by assumption.
  rewrite Nat.mod_small by assumption.
  now apply He.
Qed.

Lemma transpose12_spec {A : Type} (x : Tensor A) (a b c d : nat)
  (f : nat -> nat -> nat -> nat -> A) :
  is4 x a b c d f ->
  exists y, Torch.transpose 1 2 x = Ok y /\ is4 y a c b d (fun i j k l => f i k j l).
Proof.
  intros Hx. open_is Hx. unfold Torch.transpose. tstep.
  eexists. split; [reflexivity|]. split; [reflexivity|].
  intros i j k l Hi Hj Hk Hl. tstep. now apply He.
Qed.

Lemma transpose23_spec {A : Type} (x : Tensor A) (a b c d : nat)
  (f : nat -> nat -> nat -> nat -> A) :
  is4 x a b c d f ->
  exists y, Torch.transpose 2 3 x = Ok y /\ is4 y a b d c (fun i j k l => f i j l k).
Proof.
  intros Hx. open_is Hx. unfold Torch.transpose. tstep.
  eexists. split; [reflexivity|]. split; [reflexivity|].
  intros i j k l Hi Hj Hk Hl. tstep. now apply He.
Qed.

Lemma matmul_spec (x y : Tensor R) (a b m k p : nat)
  (f g : nat -> nat -> nat -> nat -> R) :
  is4 x a b m k f -> is4 y a b k p g ->
  exists z,
    Torch.matmul x y = Ok z /\
    is4 z a b m p (fun i j r c => Rsum k (fun l => (f i j r l * g i j l c)%R)).
Proof.
  intros Hx Hy. open_is Hx. open_is Hy. unfold Torch.matmul. tstep.
  rewrite Nat.eqb_refl, broadcast_same. tstep.
  eexists. split; [reflexivity|]. split; [reflexivity|].
  intros i j r c Hi Hj Hr Hc. tstep.
  apply Rsum_ext. intros l Hl.
  rewrite bidx_valid by (repeat constructor; assumption). tstep.
  rewrite He, He0 by assumption. reflexivity.
Qed.

Lemma mask_bool_spec (ctx n : nat) (mask : Tensor R) :
  Torch.triu (Torch.ones [ctx; ctx]) 1 = Ok mask -> n <= ctx ->
  exists mb,
    (m0 <- Torch.slice_to 0 n (Torch.bool_ mask) ;; Torch.slice_to 1 n m0) = Ok mb /\
    is2 mb n n (fun t j => t <? j).
Proof.
  intros Hm Hn. unfold Torch.triu in Hm. revert Hm. tstep. intros Hm.
  injection Hm as <-. unfold Torch.slice_to. tstep. unfold Torch.slice_to. tstep.
  rewrite Nat.min_l by assumption.
  eexists. split; [reflexivity|]. split; [reflexivity|].
  intros t j Ht Hj. tstep.
  replace (t + 1 <=? j) with (t <? j) by (unfold Nat.ltb; f_equal; lia).
  destruct (t <? j); destruct (Req_dec_T _ _) as [E|E]; try reflexivity; lra.
Qed.

Lemma masked_fill_spec (x : Tensor R) (mb : Tensor bool) (v : xreal) (a b c d : nat)
  (f : nat -> nat -> nat -> nat -> R) (g : nat -> nat -> bool) :
  is4 x a b c d f -> is2 mb c d g ->
  exists y,
    Torch.masked_fill x mb v = Ok y /\
    is4 y a b c d (fun i j k l => if g k l then v else Fin (f i j k l)).
Proof.
  intros Hx Hm. open_is Hx. open_is Hm. unfold Torch.masked_fill. tstep.
  unfold Torch.broadcast_shapes. tstep. rewrite !bdim_same. tstep.
  rewrite !Nat.eqb_refl. tstep.
  eexists. split; [reflexivity|]. split; [reflexivity|].
  intros i j k l Hi Hj Hk Hl. tstep. unfold Torch.bidx. tstep. bsel_tac.
  rewrite He, He0 by assumption. reflexivity.
Qed.

Lemma map_is4 {A B : Type} (g : A -> B) (x : Tensor A) (a b c d : nat)
  (f : nat -> nat -> nat -> nat -> A) :
  is4 x a b c d f -> is4 (Torch.map g x) a b c d (fun i j k l => g (f i j k l)).
Proof.
  intros [Hs He]. split; [exact Hs|]. intros. tsimpl. now rewrite He.
Qed.

Lemma softmax_spec (x : Tensor xreal) (a b c d : nat)
  (f : nat -> nat -> nat -> nat -> xreal) :
  is4 x a b c d f ->
  is4 (Torch.softmax_last x) a b c d
    (fun i j k l => (Torch.xexp (f i j k l) / Rsum d (fun l' => Torch.xexp (f i j k l')))%R).
Proof.
  intros Hx. open_is Hx. unfold Torch.softmax_last. tstep.
  split; [reflexivity|]. intros i j k l Hi Hj Hk Hl. tstep.
  rewrite He by assumption. f_equal.
  apply Rsum_ext. intros l' Hl'. now rewrite He.
Qed.

Lemma is3_self {A : Type} (x : Tensor A) (a b c : nat) :
  shape x = [a; b; c] -> is3 x a b c (fun i j k => elem x [i; j; k]).
Proof. intros H. split; [exact H|reflexivity]. Qed.

Lemma is4_self {A : Type} (x : Tensor A) (a b c d : nat) :
  shape x = [a; b; c; d] -> is4 x a b c d (fun i j k l => elem x [i; j; k; l]).
Proof. intros H. split; [exact H|reflexivity]. Qed.

Lemma valid2 (a b i j : nat) : i < a -> j < b -> valid [a; b] [i; j].
Proof. intros. repeat constructor; assumption. Qed.

Lemma linear_is3 (l : Linear.t) (x : Tensor R) (b n : nat) (f : nat -> nat -> nat -> R) :
  Linear.wf l -> is3 x b n (Linear.in_features l) f ->
  exists y,
    Linear.forward l x = Ok y /\
    is3 y b n (Linear.out_features l) (fun i t o => Spec.linear l (f i t) o).
Proof.
  intros Hl [Hs He].
  destruct (Linear_forward_spec l x [b; n] Hl Hs) as (y & E & S & V).
  exists y. split; [exact E|]. split; [exact S|].
  intros i t o Hi Ht Ho. specialize (V [i; t] o (valid2 b n i t Hi Ht) Ho).
  cbn [app] in V. rewrite V.
  apply spec_linear_ext. intros k Hk. now apply He.
Qed.

Lemma spec_rms_norm_ext (self : RMSNorm.t) (v v' : nat -> R) (k : nat) :
  (forall j, j < RMSNorm.embd_dim self -> v j = v' j) -> k < RMSNorm.embd_dim self ->
  Spec.rms_norm self v k = Spec.rms_norm self v' k.
Proof.
  intros H Hk. unfold Spec.rms_norm. rewrite (H k Hk).
  do 6 f_equal. apply Rsum_ext. intros j Hj. now rewrite H.
Qed.

Lemma rmsnorm_is3 (self : RMSNorm.t) (x : Tensor R) (b n : nat) (f : nat -> nat -> nat -> R) :
  RMSNorm.wf self -> is3 x b n (RMSNorm.embd_dim self) f ->
  exists y,
    RMSNorm.forward self x = Ok y /\
    is3 y b n (RMSNorm.embd_dim self) (fun i t k => Spec.rms_norm self (f i t) k).
Proof.
  intros Hw [Hs He].
  destruct (RMSNorm_forward_spec self x [b; n] Hw Hs) as (y & E & S & V).
  exists y. split; [exact E|]. split; [exact S|].
  intros i t k Hi Ht Hk. specialize (V [i; t] k (valid2 b n i t Hi Ht) Hk).
  cbn [app] in V. rewrite V.
  apply spec_rms_norm_ext; [|assumption]. intros j Hj. now apply He.
Qed.

Lemma spec_feed_forward_ext (self : FeedForward.t) (emb hidden : nat) (v v' : nat -> R) (o : nat) :
  FeedForward.wf self emb hidden ->
  (forall k, k < emb -> v k = v' k) ->
  Spec.feed_forward self v o = Spec.feed_forward self v' o.
Proof.
  intros (W1 & W2 & W3 & I1 & O1 & I2 & O2 & I3 & O3) H. unfold Spec.feed_forward.
  apply spec_linear_ext. intros h Hh.
  rewrite (spec_linear_ext (FeedForward.fc1 self) v v') by (rewrite I1; exact H).
  rewrite (spec_linear_ext (FeedForward.fc2 self) v v') by (rewrite I2; exact H).
  reflexivity.
Qed.

Lemma ff_is3 (self : FeedForward.t) (x : Tensor R) (b n emb hidden : nat)
  (f : nat -> nat -> nat -> R) :
  FeedForward.wf self emb hidden -> is3 x b n emb f ->
  exists y,
    FeedForward.forward self x = Ok y /\
    is3 y b n emb (fun i t o => Spec.feed_forward self (f i t) o).
Proof.
  intros Hw [Hs He].
  destruct (FeedForward_forward_spec self x [b; n] emb hidden Hw Hs) as (y & E & S & V).
  exists y. split; [exact E|]. split; [exact S|].
  intros i t o Hi Ht Ho. specialize (V [i; t] o (valid2 b n i t Hi Ht) Ho).
  cbn [app] in V. rewrite V.
  apply (spec_feed_forward_ext self emb hidden); [assumption|].
  intros k Hk. now apply He.
Qed.

Lemma add_is3 (x y : Tensor R) (a b c : nat) (f g : nat -> nat -> nat -> R) :
  is3 x a b c f -> is3 y a b c g ->
  exists z, Torch.add x y = Ok z /\ is3 z a b c (fun i j k => (f i j k + g i j k)%R).
Proof.
  intros [Sx Ex] [Sy Ey]. unfold Torch.add.
  erewrite binop_ok by (rewrite Sx, Sy; apply broadcast_same).
  eexists. split; [reflexivity|]. split; [reflexivity|].
  intros i j k Hi Hj Hk. tsimpl. rewrite Sx, Sy.
  rewrite !bidx_valid by (repeat constructor; assumption).
  now rewrite Ex, Ey.
Qed.

Lemma rope_is4 (x c sn : Tensor R) (b h s hd ctx : nat) (theta : R)
  (f : nat -> nat -> nat -> nat -> R) :
  is4 x b h s hd f -> hd mod 2 = 0 ->
  precompute_rope_params hd theta ctx = Ok (c, sn) -> s <= ctx ->
  exists y,
    compute_rope x c sn = Ok y /\
    is4 y b h s hd (fun i j m k => Spec.rope_rotate theta hd (f i j m) m k).
Proof.
  intros Hx Hev Hp Hle.
  destruct (precompute_rope_params_spec hd theta ctx Hev) as (c' & s' & Hp' & Hc & Hs).
  rewrite Hp in Hp'. injection Hp' as <- <-.
  destruct (compute_rope_spec x c sn b h s hd ctx f _ _ Hx Hev Hc Hs Hle) as (y & Ey & [Sy Vy]).
  exists y. split; [exact Ey|]. split; [exact Sy|].
  intros i j m k Hi Hj Hm Hk. rewrite Vy by assumption.
  unfold Spec.rope_rotate. destruct (k <? hd / 2); cbv zeta; ring.
Qed.

Lemma MHA_forward_spec (self : MultiHeadedAttention.t) (x : Tensor R) (d_in ctx b n : nat) :
  MultiHeadedAttention.wf self d_in ctx ->
  shape x = [b; n; d_in] -> n <= ctx ->
  exists y,
    MultiHeadedAttention.forward self x = Ok y /\
    is3 y b n (MultiHeadedAttention.d_out self)
      (fun i t c => Spec.attention self n (fun t' k => elem x [i; t'; k]) t c).
Proof.
  intros Hwf Hx Hn.
  destruct Hwf as (Hd & Hev & Wq & Wk & Wv & Wo & _ & _ & _ & _
                   & Iq & Oq & Ik & Ok_ & Iv & Ov & Io & Oo & Hmask & Hrope & _).
  unfold MultiHeadedAttention.forward. rewrite Hx. tsimpl.
  pose proof (is3_self x b n d_in Hx) as X.
  destruct (linear_is3 (MultiHeadedAttention.W_query self) x b n
              (fun i j k => elem x [i; j; k]) Wq) as (q & Eq & Q);
    [rewrite Iq; exact X|].
  destruct (linear_is3 (MultiHeadedAttention.W_key self) x b n
              (fun i j k => elem x [i; j; k]) Wk) as (k & Ek & K);
    [rewrite Ik; exact X|].
  destruct (linear_is3 (MultiHeadedAttention.W_value self) x b n
              (fun i j k => elem x [i; j; k]) Wv) as (v & Ev & V);
    [rewrite Iv; exact X|].
  rewrite Oq, Hd in Q. rewrite Ok_, Hd in K. rewrite Ov, Hd in V.
  rewrite Eq, Ek, Ev. tsimpl.
  destruct (view_split q b n _ _ _ Q) as (q1 & Eq1 & Q1).
  destruct (view_split k b n _ _ _ K) as (k1 & Ek1 & K1).
  destruct (view_split v b n _ _ _ V) as (v1 & Ev1 & V1).
  rewrite Eq1, Ek1, Ev1. tsimpl.
  destruct (transpose12_spec q1 _ _ _ _ _ Q1) as (q2 & Eq2 & Q2).
  destruct (transpose12_spec k1 _ _ _ _ _ K1) as (k2 & Ek2 & K2).
  destruct (transpose12_spec v1 _ _ _ _ _ V1) as (v2 & Ev2 & V2).
  rewrite Eq2, Ek2, Ev2. tsimpl.
  destruct (rope_is4 k2 _ _ _ _ _ _ _ _ _ K2 Hev Hrope Hn) as (k3 & Ek3 & K3).
  destruct (rope_is4 q2 _ _ _ _ _ _ _ _ _ Q2 Hev Hrope Hn) as (q3 & Eq3 & Q3).
  rewrite Ek3, Eq3. tsimpl.
  destruct (transpose23_spec k3 _ _ _ _ _ K3) as (kt & Ekt & KT).
  rewrite Ekt. tsimpl.
  destruct (matmul_spec q3 kt _ _ _ _ _ _ _ Q3 KT) as (sc & Esc & SC).
  rewrite Esc. tsimpl.
  destruct (mask_bool_spec ctx n _ Hmask Hn) as (mb & Emb & MB).
  unfold bind in Emb.
  destruct (Torch.slice_to 0 n (Torch.bool_ (MultiHeadedAttention.mask self))) as [m0|e];
    [|discriminate].
  tsimpl. rewrite Emb. tsimpl.
  destruct (masked_fill_spec sc mb NegInf _ _ _ _ _ _ SC MB) as (ms & Ems & MS).
  rewrite Ems. tsimpl.
  unfold Torch.size_last. rewrite (proj1 K3). tsimpl.
  pose proof (softmax_spec _ _ _ _ _ _
                (map_is4 (Torch.xdiv (sqrt (INR (MultiHeadedAttention.head_dim self)))) ms
                   _ _ _ _ _ MS)) as AW.
  destruct (matmul_spec _ v2 _ _ _ _ _ _ _ AW V2) as (cv & Ecv & CV).
  unfold Torch.xdiv_scalar. rewrite Ecv. tsimpl.
  destruct (transpose12_spec cv _ _ _ _ _ CV) as (cv1 & Ecv1 & CV1).
  rewrite Ecv1. tsimpl.
  destruct (reshape_merge cv1 _ _ _ _ _ CV1) as (cv2 & Ecv2 & CV2).
  rewrite Hd, Ecv2. tsimpl.
  rewrite <- Hd, <- Io in CV2.
  destruct (linear_is3 (MultiHeadedAttention.out_proj self) cv2 b n _ Wo CV2) as (o & Eo & O).
  rewrite Eo. tsimpl.
  exists o. split; [reflexivity|]. rewrite Oo, Hd in O. exact O.
Qed.

(** * Attention looks backwards only *)

Lemma rope_rotate_ext (theta : R) (hd : nat) (v v' : nat -> R) (m k : nat) :
  (forall j, v j = v' j) -> Spec.rope_rotate theta hd v m k = Spec.rope_rotate theta hd v' m k.
Proof. intros H. unfold Spec.rope_rotate. now rewrite !H. Qed.

Section Causality.

Variable self : MultiHeadedAttention.t.
Variables d_in n t : nat.
Variables xs xs' : nat -> nat -> R.
Hypothesis Iq : Linear.in_features (MultiHeadedAttention.W_query self) = d_in.
Hypothesis Ik : Linear.in_features (MultiHeadedAttention.W_key self) = d_in.
Hypothesis Iv : Linear.in_features (MultiHeadedAttention.W_value self) = d_in.
Hypothesis agree : forall t' k, t' < n -> t' <= t -> k < d_in -> xs t' k = xs' t' k.
Hypothesis Ht : t < n.

Lemma query_causal (h k : nat) :
  Spec.query self xs h t k = Spec.query self xs' h t k.
Proof.
  unfold Spec.query. apply rope_rotate_ext. intros j.
  apply spec_linear_ext. intros k' Hk'. rewrite Iq in Hk'. apply agree; lia.
Qed.

Lemma key_causal (h j k : nat) :
  j <= t ->
  Spec.key self xs h j k = Spec.key self xs' h j k.
Proof.
  intros Hj. unfold Spec.key. apply rope_rotate_ext. intros j'.
  apply spec_linear_ext. intros k' Hk'. rewrite Ik in Hk'. apply agree; lia.
Qed.

Lemma value_causal (h j k : nat) :
  j <= t ->
  Spec.value self xs h j k = Spec.value self xs' h j k.
Proof.
  intros Hj. unfold Spec.value.
  apply spec_linear_ext. intros k' Hk'. rewrite Iv in Hk'. apply agree; lia.
Qed.

Lemma masked_score_causal (h j : nat) :
  Spec.masked_score self xs h t j
  = Spec.masked_score self xs' h t j.
Proof.
  unfold Spec.masked_score, Spec.score.
  destruct (t <? j) eqn:E; [reflexivity|]. apply Nat.ltb_ge in E.
  f_equal. apply Rsum_ext. intros k _.
  now rewrite query_causal, key_causal.
Qed.

Lemma attn_weight_causal (h j : nat) :
  Spec.attn_weight self n xs h t j
  = Spec.attn_weight self n xs' h t j.
Proof.
  unfold Spec.attn_weight. rewrite masked_score_causal. f_equal.
  apply Rsum_ext. intros j' _. now rewrite masked_score_causal.
Qed.

(** A key position after the query position gets weight zero. *)
Lemma attn_weight_future (ys : nat -> nat -> R) (h j : nat) :
  t < j -> Spec.attn_weight self n ys h t j = 0%R.
Proof.
  intros Hj. unfold Spec.attn_weight, Spec.masked_score.
  apply Nat.ltb_lt in Hj. rewrite Hj. cbn [Torch.xdiv Torch.xexp].
  unfold Rdiv. apply Rmult_0_l.
Qed.

Lemma context_causal (h k : nat) :
  Spec.context self n xs h t k = Spec.context self n xs' h t k.
Proof.
  unfold Spec.context. apply Rsum_ext. intros j Hj.
  destruct (Nat.le_gt_cases j t) as [Hle|Hgt].
  - now rewrite attn_weight_causal, value_causal.
  - rewrite !attn_weight_future by assumption. now rewrite !Rmult_0_l.
Qed.

Lemma attention_causal (c : nat) :
  Spec.attention self n xs t c = Spec.attention self n xs' t c.
Proof.
  unfold Spec.attention. apply spec_linear_ext. intros c' _.
  unfold Spec.concat. apply context_causal.
Qed.

End Causality.

Lemma spec_attention_ext (self : MultiHeadedAttention.t) (d_in ctx n t c : nat)
  (xs xs' : nat -> nat -> R) :
  MultiHeadedAttention.wf self d_in ctx -> t < n ->
  (forall t' k, t' < n -> k < d_in -> xs t' k = xs' t' k) ->
  Spec.attention self n xs t c = Spec.attention self n xs' t c.
Proof.
  intros Hwf Ht H.
  destruct Hwf as (_ & _ & _ & _ & _ & _ & _ & _ & _ & _ & Iq & _ & Ik & _ & Iv & _).
  apply (attention_causal self d_in n t xs xs' Iq Ik Iv); [|assumption].
  intros t' k Ht' _ Hk. now apply H.
Qed.

Lemma mha_is3 (self : MultiHeadedAttention.t) (x : Tensor R) (d_in ctx b n : nat)
  (f : nat -> nat -> nat -> R) :
  MultiHeadedAttention.wf self d_in ctx ->
  is3 x b n d_in f -> n <= ctx ->
  exists y,
    MultiHeadedAttention.forward self x = Ok y /\
    is3 y b n (MultiHeadedAttention.d_out self)
      (fun i t c => Spec.attention self n (f i) t c).
Proof.
  intros Hwf [Hs He] Hn.
  destruct (MHA_forward_spec self x d_in ctx b n Hwf Hs Hn) as (y & Ey & Sy & Vy).
  exists y. split; [exact Ey|]. split; [exact Sy|].
  intros i t c Hi Ht Hc. rewrite Vy by assumption.
  apply (spec_attention_ext self d_in ctx); [assumption..|].
  intros t' k Ht' Hk. now apply He.
Qed.

Lemma TransformerBlock_forward_spec (self : TransformerBlock.t) (x : Tensor R)
  (emb hidden ctx b n : nat) :
  TransformerBlock.wf self emb hidden ctx ->
  shape x = [b; n; emb] -> n <= ctx ->
  exists y,
    TransformerBlock.forward self x = Ok y /\
    is3 y b n emb
      (fun i t c => Spec.block self n (fun t' k => elem x [i; t'; k]) t c).
Proof.
  intros (Ha & Hd & Hf & N1 & E1 & N2 & E2) Hx Hn.
  unfold TransformerBlock.forward.
  pose proof (is3_self x b n emb Hx) as X.
  destruct (rmsnorm_is3 (TransformerBlock.norm1 self) x b n
              (fun i j k => elem x [i; j; k]) N1) as (x1 & Ex1 & X1);
    [rewrite E1; exact X|].
  rewrite E1 in X1. rewrite Ex1. cbn [bind].
  destruct (mha_is3 (TransformerBlock.att self) x1 emb ctx b n _ Ha X1 Hn) as (a & Ea & A).
  rewrite Hd in A. rewrite Ea. cbn [bind].
  destruct (add_is3 a x b n emb _ _ A X) as (h & Eh & H).
  rewrite Eh. cbn [bind].
  rewrite <- E2 in H.
  destruct (rmsnorm_is3 (TransformerBlock.norm2 self) h b n _ N2 H) as (h1 & Eh1 & H1).
  rewrite E2 in H1, H. rewrite Eh1. cbn [bind].
  destruct (ff_is3 (TransformerBlock.ff self) h1 b n emb hidden _ Hf H1) as (g & Eg & G).
  rewrite Eg. cbn [bind].
  destruct (add_is3 g h b n emb _ _ G H) as (y & Ey & Y).
  rewrite Ey. cbn [bind].
  exists y. split; [reflexivity|]. exact Y.
Qed.

(** * Rotations *)

Lemma Rsum_shift (a b : nat) (g : nat -> R) :
  Rsum (a + b) g = (Rsum a g + Rsum b (fun j => g (a + j)%nat))%R.
Proof.
  induction b as [|b IH]; simpl.
  - rewrite Nat.add_0_r. lra.
  - rewrite Nat.add_succ_r. simpl. rewrite IH. lra.
Qed.

Lemma Rsum_plus (n : nat) (f g : nat -> R) :
  Rsum n (fun j => (f j + g j)%R) = (Rsum n f + Rsum n g)%R.
Proof. induction n as [|n IH]; simpl; [lra|rewrite IH; lra]. Qed.

Lemma Rsum_pairs (h : nat) (g : nat -> R) :
  Rsum (h + h) g = Rsum h (fun j => (g j + g (j + h)%nat)%R).
Proof.
  rewrite Rsum_shift, Rsum_plus. f_equal.
  apply Rsum_ext. intros j _. now rewrite Nat.add_comm.
Qed.

Lemma rotation_preserves_squares (x z a : R) :
  ((x * cos a - z * sin a) ^ 2 + (z * cos a + x * sin a) ^ 2 = x ^ 2 + z ^ 2)%R.
Proof.
  pose proof (sin2_cos2 a) as H. unfold Rsqr in H.
  replace ((x * cos a - z * sin a) ^ 2 + (z * cos a + x * sin a) ^ 2)%R
    with ((x ^ 2 + z ^ 2) * (sin a * sin a + cos a * cos a))%R by ring.
  rewrite H. ring.
Qed.

Lemma rope_rotate_low (theta : R) (hd : nat) (v : nat -> R) (m j : nat) :
  j < hd / 2 ->
  Spec.rope_rotate theta hd v m j
  = (v j * cos (Spec.rope_angle theta hd m j)
     - v (j + hd / 2)%nat * sin (Spec.rope_angle theta hd m j))%R.
Proof.
  intros H. unfold Spec.rope_rotate. apply Nat.ltb_lt in H. now rewrite H.
Qed.

Lemma rope_rotate_high (theta : R) (hd : nat) (v : nat -> R) (m j : nat) :
  Spec.rope_rotate theta hd v m (j + hd / 2)
  = (v (j + hd / 2)%nat * cos (Spec.rope_angle theta hd m j)
     + v j * sin (Spec.rope_angle theta hd m j))%R.
Proof.
  unfold Spec.rope_rotate.
  replace (j + hd / 2 <? hd / 2) with false by (symmetry; apply Nat.ltb_ge; lia).
  cbv zeta. now rewrite Nat.add_sub.
Qed.

Lemma rope_angle_zero (theta : R) (hd j : nat) : Spec.rope_angle theta hd 0 j = 0%R.
Proof. unfold Spec.rope_angle. simpl. ring. Qed.


Lemma rope_rotate_norm (theta : R) (hd : nat) (v : nat -> R) (m : nat) :
  hd mod 2 = 0 ->
  Rsum hd (fun k => (Spec.rope_rotate theta hd v m k ^ 2)%R) = Rsum hd (fun k => (v k ^ 2)%R).
Proof.
  intros Hev.
  assert (Hp : forall g, Rsum hd g = Rsum (hd / 2) (fun j => (g j + g (j + hd / 2)%nat)%R)).
  { intros g. rewrite <- (half_double hd Hev) at 1. apply Rsum_pairs. }
  rewrite !Hp. apply Rsum_ext. intros j Hj.
  rewrite rope_rotate_high, rope_rotate_low by assumption.
  apply rotation_preserves_squares.
Qed.

(** * Constructors and errors *)


Lemma Linear_init_wf (i o : nat) (bias : bool) (d : LinearInit) :
  Linear.wf (Linear.init i o bias d).
Proof. split; [reflexivity|]. destruct bias; simpl; trivial. Qed.

Lemma FeedForward_init_wf (config : Config) (i1 i2 i3 : LinearInit) :
  FeedForward.wf (FeedForward.init config i1 i2 i3) (emb_dim config) (hidden_dim config).
Proof. repeat split; try reflexivity; simpl; destruct (ff_bias config); simpl; trivial. Qed.

Lemma precompute_rope_params_odd (hd : nat) (theta : R) (ctx : nat) :
  hd mod 2 = 1 ->
  precompute_rope_params hd theta ctx
  = Raise (AssertionError "Embedding dimension must be even").
Proof. intros H. unfold precompute_rope_params. now rewrite H. Qed.

Lemma mod2_cases (n : nat) : n mod 2 = 0 \/ n mod 2 = 1.
Proof. pose proof (Nat.mod_upper_bound n 2). lia. Qed.

Lemma MHA_init_zero_heads (d_in d_out ctx : nat) (iq ik iv io : LinearInit) :
  MultiHeadedAttention.init d_in d_out ctx 0 iq ik iv io = Raise ZeroDivisionError.
Proof. reflexivity. Qed.

Lemma MHA_init_not_divisible (d_in d_out ctx nh : nat) (iq ik iv io : LinearInit) :
  0 < nh -> d_out mod nh <> 0 ->
  MultiHeadedAttention.init d_in d_out ctx nh iq ik iv io
  = Raise (AssertionError "The output dimension (d_out) mus be divisible by n_heads").
Proof.
  intros Hn Hd. unfold MultiHeadedAttention.init, py_mod.
  destruct (Nat.eqb_spec nh 0) as [E|_]; [lia|]. cbn [bind].
  destruct (Nat.eqb_spec (d_out mod nh) 0) as [E|_]; [contradiction|]. reflexivity.
Qed.

Lemma MHA_init_odd_head (d_in d_out ctx nh : nat) (iq ik iv io : LinearInit) :
  0 < nh -> d_out mod nh = 0 -> (d_out / nh) mod 2 = 1 ->
  MultiHeadedAttention.init d_in d_out ctx nh iq ik iv io
  = Raise (AssertionError "Embedding dimension must be even").
Proof.
  intros Hn Hd Ho. unfold MultiHeadedAttention.init, py_mod, py_floordiv.
  destruct (Nat.eqb_spec nh 0) as [E|_]; [lia|]. cbn [bind].
  rewrite Hd. cbn [Nat.eqb py_assert bind].
  unfold Torch.triu. tstep.
  now rewrite precompute_rope_params_odd.
Qed.

Lemma MHA_init_ok (d_in d_out ctx nh : nat) (iq ik iv io : LinearInit) :
  0 < nh -> d_out mod nh = 0 -> (d_out / nh) mod 2 = 0 ->
  exists self,
    MultiHeadedAttention.init d_in d_out ctx nh iq ik iv io = Ok self /\
    MultiHeadedAttention.wf self d_in ctx /\
    MultiHeadedAttention.d_out self = d_out /\
    MultiHeadedAttention.num_heads self = nh.
Proof.
  intros Hn Hd He. unfold MultiHeadedAttention.init, py_mod, py_floordiv.
  destruct (Nat.eqb_spec nh 0) as [E|_]; [lia|]. cbn [bind].
  rewrite Hd. cbn [Nat.eqb py_assert bind].
  unfold Torch.triu. tstep.
  destruct (precompute_rope_params_spec (d_out / nh) default_theta_base ctx He)
    as (c & s & Hp & _).
  rewrite Hp. cbn [bind]. eexists. split; [reflexivity|].
  repeat split; try reflexivity; cbn; try assumption.
  pose proof (Nat.div_mod_eq d_out nh). lia.
Qed.

(** The constructor of a block returns a well-formed block. *)
Lemma TransformerBlock_init_ok (cfg : Config) (i : TransformerBlock.Init) :
  0 < n_heads cfg -> emb_dim cfg mod n_heads cfg = 0 ->
  (emb_dim cfg / n_heads cfg) mod 2 = 0 ->
  exists self,
    TransformerBlock.init cfg i = Ok self /\
    TransformerBlock.wf self (emb_dim cfg) (hidden_dim cfg) (context_length cfg).
Proof.
  intros Hn Hd He. unfold TransformerBlock.init.
  destruct (MHA_init_ok (emb_dim cfg) (emb_dim cfg) (context_length cfg) (n_heads cfg)
              (TransformerBlock.iq i) (TransformerBlock.ik i) (TransformerBlock.iv i)
              (TransformerBlock.io i) Hn Hd He) as (att & Ha & Hw & Ho & _).
  rewrite Ha. cbn [bind]. eexists. split; [reflexivity|].
  repeat split; cbn [TransformerBlock.att TransformerBlock.ff TransformerBlock.norm1
                     TransformerBlock.norm2]; try assumption; try reflexivity;
    try apply Hw; try apply FeedForward_init_wf.
Qed.

Lemma bind_assertion_free {A B : Type} (m : result A) (k : A -> result B) :
  assertion_free m -> (forall a, assertion_free (k a)) -> assertion_free (bind m k).
Proof. destruct m as [a|e]; simpl; auto. Qed.

Ltac af_cases :=
  repeat match goal with
  | |- assertion_free (if ?c then _ else _) => destruct c
  | |- assertion_free (match ?c with _ => _ end) => destruct c
  end; exact I.

Lemma slice_to_af {A : Type} (d k : nat) (x : Tensor A) : assertion_free (Torch.slice_to d k x).
Proof. unfold Torch.slice_to. af_cases. Qed.

Lemma slice_from_af {A : Type} (d k : nat) (x : Tensor A) :
  assertion_free (Torch.slice_from d k x).
Proof. unfold Torch.slice_from. af_cases. Qed.

Lemma rows_to_af {A : Type} (k : nat) (x : Tensor A) : assertion_free (Torch.rows_to k x).
Proof. unfold Torch.rows_to, Torch.slice_to. af_cases. Qed.

Lemma unsqueeze_af {A : Type} (d : nat) (x : Tensor A) : assertion_free (Torch.unsqueeze d x).
Proof. unfold Torch.unsqueeze. af_cases. Qed.

Lemma cat_af {A : Type} (a b : Tensor A) (d : nat) : assertion_free (Torch.cat a b d).
Proof. unfold Torch.cat. af_cases. Qed.

Lemma binop_af {A B C : Type} (f : A -> B -> C) (x : Tensor A) (y : Tensor B) :
  assertion_free (Torch.binop f x y).
Proof. unfold Torch.binop. af_cases. Qed.

Lemma compute_rope_even_af (x cos sin : Tensor R) (b h s hd : nat) :
  shape x = [b; h; s; hd] -> hd mod 2 = 0 -> assertion_free (compute_rope x cos sin).
Proof.
  intros Hx Hev. unfold compute_rope. rewrite Hx. tsimpl. rewrite Hev. tstep.
  repeat (apply bind_assertion_free;
          [first [apply slice_to_af | apply slice_from_af | apply rows_to_af
                 | apply unsqueeze_af | apply cat_af | apply binop_af]
          |intros ?]).
  exact I.
Qed.

Lemma compute_rope_odd (x cos sin : Tensor R) (b h s hd : nat) :
  shape x = [b; h; s; hd] -> hd mod 2 = 1 ->
  compute_rope x cos sin = Raise (AssertionError "Head dimension must be even").
Proof. intros Hx Ho. unfold compute_rope. rewrite Hx. tsimpl. now rewrite Ho. Qed.

(** * The store *)

Section StoreFacts.

Import Heap.

Lemma nth_error_app_some (s e : store) (l : nat) (v : dyn) :
  nth_error s l = Some v -> nth_error (s ++ e) l = Some v.
Proof.
  intros H. rewrite nth_error_app1; [exact H|].
  apply nth_error_Some. congruence.
Qed.

Lemma lookup_app (s e : store) (l : nat) (v : dyn) :
  lookup s l = Ok v -> lookup (s ++ e) l = Ok v.
Proof.
  unfold lookup. destruct (nth_error s l) eqn:E; [|discriminate].
  intros H. now rewrite (nth_error_app_some s e l d E).
Qed.

Lemma lookup_new (s : store) (v : dyn) : lookup (s ++ [v]) (length s) = Ok v.
Proof. unfold lookup. now rewrite nth_error_app2, Nat.sub_diag by lia. Qed.

Lemma read_app (s e : store) (h : handle) (v : dyn) :
  read s h = Ok v -> read (s ++ e) h = Ok v.
Proof.
  unfold read. destruct (lookup s (loc h)) eqn:E; [|discriminate].
  cbn [bind]. intros H. now rewrite (lookup_app s e _ _ E).
Qed.

Lemma read_new (s : store) (v : dyn) : read (s ++ [v]) (mkHandle (length s) []) = Ok v.
Proof. unfold read. cbn [loc views]. now rewrite lookup_new. Qed.

Lemma read_real_inv (s : store) (h : handle) (t : Tensor R) :
  read_real s h = Ok t -> read s h = Ok (DReal t).
Proof.
  unfold read_real. destruct (read s h) as [[x|x|x]|e]; cbn; congruence.
Qed.

Lemma read_bool_inv (s : store) (h : handle) (t : Tensor bool) :
  read_bool s h = Ok t -> read s h = Ok (DBool t).
Proof.
  unfold read_bool. destruct (read s h) as [[x|x|x]|e]; cbn; congruence.
Qed.

Lemma read_score_inv (s : store) (h : handle) (t : Tensor xreal) :
  read_score s h = Ok t -> read s h = Ok (DScore t).
Proof.
  unfold read_score. destruct (read s h) as [[x|x|x]|e]; cbn; congruence.
Qed.

Lemma read_real_app (s e : store) (h : handle) (t : Tensor R) :
  read_real s h = Ok t -> read_real (s ++ e) h = Ok t.
Proof.
  intros H. apply read_real_inv in H. unfold read_real.
  now rewrite (read_app s e h _ H).
Qed.

Lemma read_bool_app (s e : store) (h : handle) (t : Tensor bool) :
  read_bool s h = Ok t -> read_bool (s ++ e) h = Ok t.
Proof.
  intros H. apply read_bool_inv in H. unfold read_bool.
  now rewrite (read_app s e h _ H).
Qed.

Lemma read_score_app (s e : store) (h : handle) (t : Tensor xreal) :
  read_score s h = Ok t -> read_score (s ++ e) h = Ok t.
Proof.
  intros H. apply read_score_inv in H. unfold read_score.
  now rewrite (read_app s e h _ H).
Qed.

Lemma read_real_new (s : store) (t : Tensor R) :
  read_real (s ++ [DReal t]) (mkHandle (length s) []) = Ok t.
Proof. unfold read_real. now rewrite read_new. Qed.

Lemma read_bool_new (s : store) (t : Tensor bool) :
  read_bool (s ++ [DBool t]) (mkHandle (length s) []) = Ok t.
Proof. unfold read_bool. now rewrite read_new. Qed.

Lemma read_score_new (s : store) (t : Tensor xreal) :
  read_score (s ++ [DScore t]) (mkHandle (length s) []) = Ok t.
Proof. unfold read_score. now rewrite read_new. Qed.

Lemma through_snoc (vs : list view_op) (op : view_op) (v : dyn) :
  through (vs ++ [op]) v = bind (through vs v) (dyn_view op).
Proof.
  revert v. induction vs as [|o vs IH]; intros v; cbn [through app bind].
  - destruct (dyn_view op v); reflexivity.
  - destruct (dyn_view o v) as [v'|e]; cbn [bind]; [apply IH|reflexivity].
Qed.

Lemma read_view (s : store) (h : handle) (op : view_op) :
  read s (mkHandle (loc h) (views h ++ [op])) = bind (read s h) (dyn_view op).
Proof.
  unfold read. cbn [loc views].
  destruct (lookup s (loc h)) as [v|e]; cbn [bind]; [apply through_snoc|reflexivity].
Qed.

Lemma update_new (s : store) (a v : dyn) : update (s ++ [a]) (length s) v = s ++ [v].
Proof. induction s as [|b s IH]; cbn; [reflexivity|now rewrite IH]. Qed.

Lemma update_app_l (s e : store) (l : nat) (v : dyn) :
  l < length s -> update (s ++ e) l v = update s l v ++ e.
Proof.
  revert l. induction s as [|b s IH]; intros l H; cbn in *; [lia|].
  destruct l; [reflexivity|]. cbn. now rewrite IH by lia.
Qed.

(** Overwriting a storage allocated after [s] was taken. *)
Lemma update_fresh (s e : store) (a v : dyn) :
  update ((s ++ [a]) ++ e) (length s) v = (s ++ [v]) ++ e.
Proof.
  rewrite update_app_l by (rewrite length_app; simpl; lia).
  now rewrite update_new.
Qed.

Lemma preserved_app (s e : store) : preserved s (s ++ e).
Proof. intros l v H. now apply nth_error_app_some. Qed.

Lemma preserved_trans (s1 s2 s3 : store) :
  preserved s1 s2 -> preserved s2 s3 -> preserved s1 s3.
Proof. intros H1 H2 l v H. apply H2, H1, H. Qed.

(** *** Running the primitives *)

Lemma unary_run (f : Tensor R -> result (Tensor R)) (h : handle) (s : store)
  (t y : Tensor R) :
  read_real s h = Ok t -> f t = Ok y ->
  unary f h s = Ok (mkHandle (length s) [], s ++ [DReal y]).
Proof.
  intros Hr Hf. unfold unary, hbind, get_real, lift, alloc. now rewrite Hr, Hf.
Qed.

Lemma binary_run (f : Tensor R -> Tensor R -> result (Tensor R)) (h1 h2 : handle)
  (s : store) (t1 t2 y : Tensor R) :
  read_real s h1 = Ok t1 -> read_real s h2 = Ok t2 -> f t1 t2 = Ok y ->
  binary f h1 h2 s = Ok (mkHandle (length s) [], s ++ [DReal y]).
Proof.
  intros H1 H2 Hf. unfold binary, hbind, get_real, lift, alloc. now rewrite H1, H2, Hf.
Qed.

Lemma view_real_run (op : view_op) (h : handle) (s : store) (t t' : Tensor R) :
  read_real s h = Ok t -> apply_view op t = Ok t' ->
  view op h s = Ok (mkHandle (loc h) (views h ++ [op]), s) /\
  read_real s (mkHandle (loc h) (views h ++ [op])) = Ok t'.
Proof.
  intros Hr Hv. apply read_real_inv in Hr.
  assert (E : read s (mkHandle (loc h) (views h ++ [op])) = Ok (DReal t')).
  { rewrite read_view, Hr. cbn [bind dyn_view]. now rewrite Hv. }
  split.
  - unfold view. now rewrite E.
  - unfold read_real. now rewrite E.
Qed.

Lemma view_bool_run (op : view_op) (h : handle) (s : store) (t t' : Tensor bool) :
  read_bool s h = Ok t -> apply_view op t = Ok t' ->
  view op h s = Ok (mkHandle (loc h) (views h ++ [op]), s) /\
  read_bool s (mkHandle (loc h) (views h ++ [op])) = Ok t'.
Proof.
  intros Hr Hv. apply read_bool_inv in Hr.
  assert (E : read s (mkHandle (loc h) (views h ++ [op])) = Ok (DBool t')).
  { rewrite read_view, Hr. cbn [bind dyn_view]. now rewrite Hv. }
  split.
  - unfold view. now rewrite E.
  - unfold read_bool. now rewrite E.
Qed.

Lemma shape_of_run (h : handle) (s : store) (t : Tensor R) :
  read_real s h = Ok t -> shape_of h s = Ok (shape t, s).
Proof. intros Hr. apply read_real_inv in Hr. unfold shape_of. now rewrite Hr. Qed.

Lemma size_last_run (h : handle) (s : store) (t : Tensor R) (n : nat) :
  read_real s h = Ok t -> Torch.size_last t = Ok n -> size_last h s = Ok (n, s).
Proof.
  intros Hr Hn. apply read_real_inv in Hr. unfold size_last. rewrite Hr. cbn [dyn_shape].
  unfold Torch.size_last in Hn. destruct (shape t); [discriminate|]. congruence.
Qed.

Lemma bool_run (h : handle) (s : store) (t : Tensor R) :
  read_real s h = Ok t ->
  bool_ h s = Ok (mkHandle (length s) [], s ++ [DBool (Torch.bool_ t)]).
Proof. intros Hr. unfold bool_, hbind, get_real, lift, alloc. now rewrite Hr. Qed.

Lemma masked_fill_run (h mask : handle) (v : xreal) (s : store)
  (x : Tensor R) (m : Tensor bool) (y : Tensor xreal) :
  views h = [] -> read_real s h = Ok x -> read_bool s mask = Ok m ->
  Torch.masked_fill x m v = Ok y ->
  masked_fill_ h mask v s = Ok (tt, update s (loc h) (DScore y)).
Proof.
  intros Hv Hx Hm Hy. unfold masked_fill_. now rewrite Hv, Hx, Hm, Hy.
Qed.

Lemma div_scalar_score_run (h : handle) (c : R) (s : store) (t : Tensor xreal) :
  read_score s h = Ok t ->
  div_scalar_score h c s
  = Ok (mkHandle (length s) [], s ++ [DScore (Torch.xdiv_scalar t c)]).
Proof. intros Hr. unfold div_scalar_score, hbind, get_score, lift, alloc. now rewrite Hr. Qed.

Lemma softmax_last_run (h : handle) (s : store) (t : Tensor xreal) :
  read_score s h = Ok t ->
  softmax_last h s = Ok (mkHandle (length s) [], s ++ [DReal (Torch.softmax_last t)]).
Proof. intros Hr. unfold softmax_last, hbind, get_score, lift, alloc. now rewrite Hr. Qed.

End StoreFacts.

(** A handle keeps its meaning when the store grows. *)
Ltac solve_read :=
  first
    [ eassumption
    | apply read_real_new
    | apply read_bool_new
    | apply read_score_new
    | apply read_real_app; solve_read
    | apply read_bool_app; solve_read
    | apply read_score_app; solve_read ].

(** * The forward functions on the store compute what the pure ones do *)

(** Take apart a successful chain of binds in a hypothesis. *)
Ltac peel H :=
  repeat match type of H with
  | bind ?m _ = Ok _ =>
      let E := fresh "E" in
      destruct m eqn:E; cbn [bind] in H; [|discriminate H]
  | (match ?p with pair _ _ => _ end) = Ok _ => destruct p
  | (match ?m with _ => _ end) = Ok _ =>
      let E := fresh "E" in destruct m eqn:E; try discriminate H
  end.

(** Run the primitive at the head of a computation on the store. *)
Ltac hview op h s :=
  let Hv := fresh "Hv" in
  first
    [ eassert (Hv : _ /\ _)
        by (eapply (view_real_run op h s); [solve_read|cbn [Heap.apply_view]; eassumption])
    | eassert (Hv : _ /\ _)
        by (eapply (view_bool_run op h s); [solve_read|cbn [Heap.apply_view]; eassumption]) ];
  let Hrun := fresh "Hrun" in
  let Hread := fresh "Hread" in
  destruct Hv as [Hrun Hread]; rewrite Hrun; clear Hrun.

Ltac hlift r :=
  unfold Heap.lift at 1;
  match goal with
  | H : r = Ok _ |- _ => rewrite H
  end.

Ltac hstep :=
  cbv beta iota;
  lazymatch goal with
  | |- context [Heap.unary ?f ?h ?s] =>
      erewrite (unary_run f h s);
      [ | solve_read | first [reflexivity | eassumption] ]
  | |- context [Heap.binary ?f ?h1 ?h2 ?s] =>
      erewrite (binary_run f h1 h2 s);
      [ | solve_read | solve_read | first [reflexivity | eassumption] ]
  | |- context [Heap.view ?op ?h ?s] => hview op h s
  | |- context [Heap.shape_of ?h ?s] =>
      erewrite (shape_of_run h s); [ | solve_read ]
  | |- context [Heap.size_last ?h ?s] =>
      erewrite (size_last_run h s); [ | solve_read | eassumption ]
  | |- context [Heap.bool_ ?h ?s] =>
      erewrite (bool_run h s); [ | solve_read ]
  | |- context [Heap.masked_fill_ ?h ?m ?v ?s] =>
      erewrite (masked_fill_run h m v s);
      [ cbn [Heap.loc]; rewrite update_fresh
      | reflexivity | solve_read | solve_read | eassumption ]
  | |- context [Heap.div_scalar_score ?h ?c ?s] =>
      erewrite (div_scalar_score_run h c s); [ | solve_read ]
  | |- context [Heap.softmax_last ?h ?s] =>
      erewrite (softmax_last_run h s); [ | solve_read ]
  | |- context [Heap.lift ?r ?s] => hlift r
  end.

(** Close a run: the store reached extends the initial one and the handle
    returned denotes the expected tensor. *)
Ltac hfinish :=
  cbv beta iota;
  lazymatch goal with
  | |- exists h ext, Ok (?H, ?S) = _ /\ Heap.read_real _ _ = Ok ?y =>
      let Hr := fresh "Hr" in
      assert (Hr : Heap.read_real S H = Ok y) by (unfold Torch.to_dtype; solve_read);
      repeat rewrite <- app_assoc in Hr |- *;
      eexists; eexists; split; [reflexivity|exact Hr]
  end.

Lemma Linear_load_app (s e : Heap.store) (self : Heap.Linear.t) (l : Linear.t) :
  Heap.Linear.load s self = Ok l -> Heap.Linear.load (s ++ e) self = Ok l.
Proof.
  unfold Heap.Linear.load. intros H. peel H.
  - rewrite (read_real_app s e _ _ E), (read_real_app s e _ _ E1). exact H.
  - rewrite (read_real_app s e _ _ E). exact H.
Qed.

Lemma Linear_run (s : Heap.store) (self : Heap.Linear.t) (x : Heap.handle) (l : Linear.t)
  (xv yv : Tensor R) :
  Heap.Linear.load s self = Ok l -> Heap.read_real s x = Ok xv ->
  Linear.forward l xv = Ok yv ->
  Heap.Linear.forward self x s = Ok (Heap.mkHandle (length s) [], s ++ [Heap.DReal yv]).
Proof.
  unfold Heap.Linear.load, Heap.Linear.forward, Linear.forward.
  intros Hl Hx Hy. peel Hl; injection Hl as <-; cbn in Hy;
    unfold Heap.hbind, Heap.get_real, Heap.lift, Heap.alloc;
    rewrite ?Hx, ?E, ?E1, ?Hy; reflexivity.
Qed.

Lemma RMSNorm_load_app (s e : Heap.store) (self : Heap.RMSNorm.t) (m : RMSNorm.t) :
  Heap.RMSNorm.load s self = Ok m -> Heap.RMSNorm.load (s ++ e) self = Ok m.
Proof.
  unfold Heap.RMSNorm.load. intros H. peel H.
  rewrite (read_real_app s e _ _ E). exact H.
Qed.

Lemma RMSNorm_run (s : Heap.store) (self : Heap.RMSNorm.t) (x : Heap.handle) (m : RMSNorm.t)
  (xv yv : Tensor R) :
  Heap.RMSNorm.load s self = Ok m -> Heap.read_real s x = Ok xv ->
  RMSNorm.forward m xv = Ok yv ->
  exists h ext,
    Heap.RMSNorm.forward self x s = Ok (h, s ++ ext) /\
    Heap.read_real (s ++ ext) h = Ok yv.
Proof.
  unfold Heap.RMSNorm.load, RMSNorm.forward. intros Hl Hx Hy.
  peel Hl. injection Hl as <-. cbn [RMSNorm.eps RMSNorm.weight] in Hy.
  peel Hy. injection Hy as <-.
  unfold Heap.RMSNorm.forward, Heap.hbind, Heap.to_dtype, Heap.ret, Heap.total.
  do 6 hstep. hfinish.
Qed.

Lemma FeedForward_load_app (s e : Heap.store) (self : Heap.FeedForward.t) (m : FeedForward.t) :
  Heap.FeedForward.load s self = Ok m -> Heap.FeedForward.load (s ++ e) self = Ok m.
Proof.
  unfold Heap.FeedForward.load. intros H. peel H.
  rewrite (Linear_load_app s e _ _ E), (Linear_load_app s e _ _ E0),
    (Linear_load_app s e _ _ E1). exact H.
Qed.

Lemma FeedForward_run (s : Heap.store) (self : Heap.FeedForward.t) (x : Heap.handle)
  (m : FeedForward.t) (xv yv : Tensor R) :
  Heap.FeedForward.load s self = Ok m -> Heap.read_real s x = Ok xv ->
  FeedForward.forward m xv = Ok yv ->
  exists h ext,
    Heap.FeedForward.forward self x s = Ok (h, s ++ ext) /\
    Heap.read_real (s ++ ext) h = Ok yv.
Proof.
  unfold Heap.FeedForward.load, FeedForward.forward. intros Hl Hx Hy.
  peel Hl. injection Hl as <-.
  cbn [FeedForward.fc1 FeedForward.fc2 FeedForward.fc3] in Hy. peel Hy.
  unfold Heap.FeedForward.forward, Heap.hbind, Heap.total.
  erewrite Linear_run by (try eassumption; solve_read). cbv beta iota.
  erewrite Linear_run
    by (try eassumption; first [apply Linear_load_app; eassumption | solve_read]).
  do 2 hstep. cbv beta iota.
  erewrite Linear_run
    by (try eassumption; first [repeat apply Linear_load_app; eassumption | solve_read]).
  hfinish.
Qed.

Lemma compute_rope_run (s : Heap.store) (x cos sin : Heap.handle) (xv cv sv yv : Tensor R) :
  Heap.read_real s x = Ok xv -> Heap.read_real s cos = Ok cv -> Heap.read_real s sin = Ok sv ->
  compute_rope xv cv sv = Ok yv ->
  exists h ext,
    Heap.compute_rope x cos sin s = Ok (h, s ++ ext) /\
    Heap.read_real (s ++ ext) h = Ok yv.
Proof.
  unfold compute_rope, Torch.last_dim. intros Hx Hc Hs Hy. peel Hy. injection Hy as <-.
  unfold Heap.compute_rope, Heap.hbind, Heap.to_dtype, Heap.ret, Heap.total.
  do 16 hstep. hfinish.
Qed.

Ltac hlinear :=
  cbv beta iota;
  lazymatch goal with
  | |- context [Heap.Linear.forward ?self ?x ?s] =>
      erewrite (Linear_run s self x);
      [ | first [eassumption | repeat apply Linear_load_app; eassumption]
        | solve_read | eassumption ]
  end.

Ltac hrope :=
  cbv beta iota;
  lazymatch goal with
  | |- context [Heap.compute_rope ?x ?c ?sn ?s] =>
      let h := fresh "h" in
      let ext := fresh "ext" in
      let Hrun := fresh "Hrun" in
      let Hread := fresh "Hread" in
      edestruct (compute_rope_run s x c sn) as (h & ext & Hrun & Hread);
      [ solve_read | solve_read | solve_read | eassumption | rewrite Hrun; clear Hrun ]
  end.

Lemma MHA_load_app (s e : Heap.store) (self : Heap.MultiHeadedAttention.t)
  (m : MultiHeadedAttention.t) :
  Heap.MultiHeadedAttention.load s self = Ok m ->
  Heap.MultiHeadedAttention.load (s ++ e) self = Ok m.
Proof.
  unfold Heap.MultiHeadedAttention.load. intros H. peel H.
  rewrite (Linear_load_app s e _ _ E), (Linear_load_app s e _ _ E0),
    (Linear_load_app s e _ _ E1), (Linear_load_app s e _ _ E2),
    (read_real_app s e _ _ E3), (read_real_app s e _ _ E4), (read_real_app s e _ _ E5).
  exact H.
Qed.

Lemma MHA_run (s : Heap.store) (self : Heap.MultiHeadedAttention.t) (x : Heap.handle)
  (m : MultiHeadedAttention.t) (xv yv : Tensor R) :
  Heap.MultiHeadedAttention.load s self = Ok m -> Heap.read_real s x = Ok xv ->
  MultiHeadedAttention.forward m xv = Ok yv ->
  exists h ext,
    Heap.MultiHeadedAttention.forward self x s = Ok (h, s ++ ext) /\
    Heap.read_real (s ++ ext) h = Ok yv.
Proof.
  unfold Heap.MultiHeadedAttention.load, MultiHeadedAttention.forward. intros Hl Hx Hy.
  peel Hl. injection Hl as <-.
  cbn [MultiHeadedAttention.W_query MultiHeadedAttention.W_key MultiHeadedAttention.W_value
       MultiHeadedAttention.out_proj MultiHeadedAttention.mask MultiHeadedAttention.cos
       MultiHeadedAttention.sin MultiHeadedAttention.num_heads MultiHeadedAttention.head_dim
       MultiHeadedAttention.d_out] in Hy.
  peel Hy. injection Hy as <-.
  unfold Heap.MultiHeadedAttention.forward, Heap.hbind, Heap.ret.
  do 2 hstep. do 3 hlinear. do 6 hstep. do 2 hrope. do 12 hstep.
  hlinear. hfinish.
Qed.

Lemma TransformerBlock_run (s : Heap.store) (self : Heap.TransformerBlock.t) (x : Heap.handle)
  (m : TransformerBlock.t) (xv yv : Tensor R) :
  Heap.TransformerBlock.load s self = Ok m -> Heap.read_real s x = Ok xv ->
  TransformerBlock.forward m xv = Ok yv ->
  exists h ext,
    Heap.TransformerBlock.forward self x s = Ok (h, s ++ ext) /\
    Heap.read_real (s ++ ext) h = Ok yv.
Proof.
  unfold Heap.TransformerBlock.load, TransformerBlock.forward. intros Hl Hx Hy.
  peel Hl. injection Hl as <-.
  cbn [TransformerBlock.att TransformerBlock.ff TransformerBlock.norm1
       TransformerBlock.norm2] in Hy.
  peel Hy. injection Hy as <-.
  unfold Heap.TransformerBlock.forward, Heap.hbind, Heap.ret. cbv zeta.
  destruct (RMSNorm_run s _ x _ xv _ E1 Hx E3) as (h1 & e1 & R1 & P1).
  rewrite R1. cbv beta iota.
  destruct (MHA_run (s ++ e1) _ h1 _ _ _ (MHA_load_app s e1 _ _ E) P1 E4)
    as (h2 & e2 & R2 & P2).
  rewrite R2. hstep.
  destruct (RMSNorm_run _ (Heap.TransformerBlock.norm2 self) (Heap.mkHandle
              (length ((s ++ e1) ++ e2)) []) _ a5 _
              (RMSNorm_load_app _ [Heap.DReal a5] _ _
                 (RMSNorm_load_app _ e2 _ _ (RMSNorm_load_app s e1 _ _ E2)))
              (read_real_new _ _) E6) as (h3 & e3 & R3 & P3).
  cbv beta iota. rewrite R3. cbv beta iota.
  destruct (FeedForward_run _ (Heap.TransformerBlock.ff self) h3 _ a6 _
              (FeedForward_load_app _ e3 _ _
                 (FeedForward_load_app _ [Heap.DReal a5] _ _
                    (FeedForward_load_app _ e2 _ _ (FeedForward_load_app s e1 _ _ E0))))
              P3 E7) as (h4 & e4 & R4 & P4).
  rewrite R4. hstep. hfinish.
Qed.

Lemma preserved_read (s s' : Heap.store) (h : Heap.handle) (v : Heap.dyn) :
  Heap.preserved s s' -> Heap.read s h = Ok v -> Heap.read s' h = Ok v.
Proof.
  intros Hp. unfold Heap.read, Heap.lookup.
  destruct (nth_error s (Heap.loc h)) as [d|] eqn:E; [|discriminate].
  now rewrite (Hp _ _ E).
Qed.

Lemma pure_call_intro (run : Heap.M Heap.handle) (s : Heap.store) (y : Tensor R) :
  (forall e, exists h ext,
      run (s ++ e) = Ok (h, (s ++ e) ++ ext) /\
      Heap.read_real ((s ++ e) ++ ext) h = Ok y) ->
  Heap.pure_call run s y.
Proof.
  intros H.
  destruct (H []) as (h1 & e1 & R1 & P1). rewrite app_nil_r in R1, P1.
  destruct (H e1) as (h2 & e2 & R2 & P2).
  exists h1, (s ++ e1), h2, ((s ++ e1) ++ e2).
  repeat split; try assumption; try apply preserved_app.
  now apply read_real_app.
Qed.

(** The exponential of a scaled score. *)
Lemma xexp_xdiv (c : R) (v : xreal) :
  Torch.xexp (Torch.xdiv c v)
  = match v with
    | NegInf => 0%R
    | Fin s => exp (s / c)
    end.
Proof. now destruct v. Qed.

(** * A rotation table of one row *)

(** A table of one row is broadcast over every position. *)
Lemma compute_rope_single_row (x cos sin : Tensor R) (b h s hd : nat)
  (f : nat -> nat -> nat -> nat -> R) (fc fs : nat -> nat -> R) :
  is4 x b h s hd f -> hd mod 2 = 0 -> is2 cos 1 hd fc -> is2 sin 1 hd fs -> 1 <= s ->
  exists y,
    compute_rope x cos sin = Ok y /\
    is4 y b h s hd (fun i j m k =>
      (f i j m k * fc 0%nat k
       + (if k <? hd / 2 then - f i j m (k + hd / 2)%nat else f i j m (k - hd / 2)%nat)
         * fs 0%nat k)%R).
Proof.
  intros Hx Hev Hc Hs Hle. open_is Hx. open_is Hc. open_is Hs.
  pose proof (half_double hd Hev) as Hh. pose proof (half_le hd) as Hl.
  unfold compute_rope, Torch.last_dim. tstep. rewrite Hev.
  unfold Torch.slice_to, Torch.slice_from, Torch.rows_to, Torch.unsqueeze. tstep.
  unfold Torch.slice_to. tstep.
  unfold Torch.cat. tstep. rewrite !Nat.eqb_refl, !andb_false_r. tstep.
  rewrite (Nat.min_l (hd / 2) hd), (Nat.min_r s 1) by lia.
  replace (hd - hd / 2) with (hd / 2) by lia. rewrite Hh.
  unfold Torch.mul, Torch.add.
  erewrite binop_ok.
  2:{ unfold Torch.broadcast_shapes. tstep.
      rewrite !bdim_same, !bdim_one_r. reflexivity. }
  tstep.
  erewrite binop_ok.
  2:{ unfold Torch.broadcast_shapes. tstep.
      rewrite !bdim_same, !bdim_one_r. reflexivity. }
  tstep.
  erewrite binop_ok by (tstep; apply broadcast_same).
  tstep. eexists. split; [reflexivity|]. split; [reflexivity|].
  intros i j m k Hi Hj Hm Hk. tstep. unfold Torch.bidx. tstep.
  bsel_tac.
  rewrite He, He0, He1 by lia.
  destruct (k <? hd / 2) eqn:Ek;
    [apply Nat.ltb_lt in Ek|apply Nat.ltb_ge in Ek]; rewrite He by lia; reflexivity.
Qed.

Lemma rope_single_row_identity (x c sn : Tensor R) (b h s hd : nat) (theta : R)
  (f : nat -> nat -> nat -> nat -> R) :
  is4 x b h s hd f -> hd mod 2 = 0 ->
  precompute_rope_params hd theta 1 = Ok (c, sn) -> 1 <= s ->
  exists y, compute_rope x c sn = Ok y /\ is4 y b h s hd f.
Proof.
  intros Hx Hev Hp Hle.
  destruct (precompute_rope_params_spec hd theta 1 Hev) as (c' & s' & Hp' & Hc & Hs).
  rewrite Hp in Hp'. injection Hp' as <- <-.
  destruct (compute_rope_single_row x c sn b h s hd f _ _ Hx Hev Hc Hs Hle)
    as (y & Ey & [Sy Vy]).
  exists y. split; [exact Ey|]. split; [exact Sy|].
  intros i j m k Hi Hj Hm Hk. rewrite Vy by assumption.
  rewrite rope_angle_zero, cos_0, sin_0. ring.
Qed.

(** * The attention layer over floats *)

Lemma Fsum_ext (dtype : Torch.dtype) (n : nat) (f g : nat -> Float.t) :
  (forall k, k < n -> f k = g k) -> Float.sum dtype n f = Float.sum dtype n g.
Proof.
  intros H. induction n as [|n IH]; [reflexivity|].
  cbn [Float.sum]. rewrite IH, H by (intros; try apply H; lia). reflexivity.
Qed.

Lemma Fmax_ext (n : nat) (f g : nat -> Float.t) :
  (forall k, k < n -> f k = g k) -> Float.max_of n f = Float.max_of n g.
Proof.
  intros H. induction n as [|n IH]; [reflexivity|].
  cbn [Float.max_of]. rewrite IH, H by (intros; try apply H; lia). reflexivity.
Qed.

Lemma softmax_row_ext (dtype : Torch.dtype) (n : nat) (f g : nat -> Float.t) (j : nat) :
  (forall k, k < n -> f k = g k) -> j < n ->
  Float.softmax_row dtype n f j = Float.softmax_row dtype n g j.
Proof.
  intros H Hj. unfold Float.softmax_row.
  rewrite (Fmax_ext n f g H), (H j Hj). f_equal.
  apply Fsum_ext. intros k Hk. now rewrite H.
Qed.

Lemma entry_linear_ext (l : Float.Linear.t) (v v' : nat -> Float.t) (o : nat) :
  (forall k, k < Float.Linear.in_features l -> v k = v' k) ->
  Float.Entry.linear l v o = Float.Entry.linear l v' o.
Proof.
  intros H. unfold Float.Entry.linear.
  rewrite (Fsum_ext (Float.Linear.dtype l) (Float.Linear.in_features l)
             (fun k => Float.mul (Float.Linear.dtype l) (v k)
                         (elem (Float.Linear.weight l) [o; k]))
             (fun k => Float.mul (Float.Linear.dtype l) (v' k)
                         (elem (Float.Linear.weight l) [o; k])))
    by (intros k Hk; now rewrite H).
  reflexivity.
Qed.

Lemma float_linear_spec (l : Float.Linear.t) (x : Tensor Float.t) (pre : list nat) :
  Float.Linear.wf l ->
  shape x = pre ++ [Float.Linear.in_features l] ->
  exists y,
    Float.Linear.forward l x = Ok y /\
    shape y = pre ++ [Float.Linear.out_features l] /\
    forall pi o, valid pre pi -> o < Float.Linear.out_features l ->
      elem y (pi ++ [o]) = Float.Entry.linear l (fun k => elem x (pi ++ [k])) o.
Proof.
  intros [HW Hb] Hx. unfold Float.Linear.forward, Float.linear, Float.Entry.linear.
  rewrite HW, Hx, last_last, Nat.eqb_refl, removelast_last.
  destruct (pre ++ [Float.Linear.in_features l]) eqn:E; [now destruct pre|]. clear E.
  destruct (Float.Linear.bias l) as [b|].
  - erewrite binop_ok by (simpl; rewrite Hb; apply broadcast_vector).
    eexists. split; [reflexivity|]. split; [reflexivity|].
    intros pi o Hpi Ho. cbn [elem shape]. rewrite Hb.
    rewrite bidx_full, bidx_vector, last_last by assumption.
    f_equal. apply Fsum_ext. intros k _. now rewrite set_last_app.
  - eexists. split; [reflexivity|]. split; [reflexivity|].
    intros pi o Hpi Ho. cbn [elem]. rewrite last_last.
    apply Fsum_ext. intros k _. now rewrite set_last_app.
Qed.

Lemma float_linear_is3 (l : Float.Linear.t) (x : Tensor Float.t) (b n : nat)
  (f : nat -> nat -> nat -> Float.t) :
  Float.Linear.wf l -> is3 x b n (Float.Linear.in_features l) f ->
  exists y,
    Float.Linear.forward l x = Ok y /\
    is3 y b n (Float.Linear.out_features l) (fun i t o => Float.Entry.linear l (f i t) o).
Proof.
  intros Hl [Hs He].
  destruct (float_linear_spec l x [b; n] Hl Hs) as (y & E & S & V).
  exists y. split; [exact E|]. split; [exact S|].
  intros i t o Hi Ht Ho. specialize (V [i; t] o (valid2 b n i t Hi Ht) Ho).
  cbn [app] in V. rewrite V.
  apply entry_linear_ext. intros k Hk. now apply He.
Qed.

Lemma float_compute_rope_spec (dtype : Torch.dtype) (x cos sin : Tensor Float.t)
  (b h s hd c0 : nat)
  (f : nat -> nat -> nat -> nat -> Float.t) (fc fs : nat -> nat -> Float.t) :
  is4 x b h s hd f -> hd mod 2 = 0 -> is2 cos c0 hd fc -> is2 sin c0 hd fs -> s <= c0 ->
  exists y,
    Float.compute_rope dtype x cos sin = Ok y /\
    is4 y b h s hd (fun i j m k =>
      Float.add dtype (Float.mul dtype (f i j m k) (fc m k))
        (Float.mul dtype
           (if k <? hd / 2 then Float.neg (f i j m (k + hd / 2)) else f i j m (k - hd / 2))
           (fs m k))).
Proof.
  intros Hx Hev Hc Hs Hle. open_is Hx. open_is Hc. open_is Hs.
  pose proof (half_double hd Hev) as Hh. pose proof (half_le hd) as Hl.
  unfold Float.compute_rope, Torch.last_dim. tstep. rewrite Hev.
  unfold Torch.slice_to, Torch.slice_from, Torch.rows_to, Torch.unsqueeze. tstep.
  unfold Torch.slice_to. tstep.
  unfold Torch.cat. tstep. rewrite !Nat.eqb_refl, !andb_false_r. tstep.
  rewrite (Nat.min_l (hd / 2) hd), (Nat.min_l s c0) by lia.
  replace (hd - hd / 2) with (hd / 2) by lia. rewrite Hh.
  erewrite binop_ok.
  2:{ unfold Torch.broadcast_shapes. tstep.
      rewrite !bdim_same, !bdim_one_r. reflexivity. }
  tstep.
  erewrite binop_ok.
  2:{ unfold Torch.broadcast_shapes. tstep.
      rewrite !bdim_same, !bdim_one_r. reflexivity. }
  tstep.
  erewrite binop_ok by (tstep; apply broadcast_same).
  tstep. eexists. split; [reflexivity|]. split; [reflexivity|].
  intros i j m k Hi Hj Hm Hk. tstep. unfold Torch.bidx. tstep.
  bsel_tac.
  rewrite He, He0, He1 by lia.
  destruct (k <? hd / 2) eqn:Ek;
    [apply Nat.ltb_lt in Ek|apply Nat.ltb_ge in Ek]; rewrite He by lia; reflexivity.
Qed.

Lemma float_rope_is4 (dtype : Torch.dtype) (x : Tensor Float.t) (c sn : Tensor R)
  (b h s hd ctx : nat) (f : nat -> nat -> nat -> nat -> Float.t) :
  is4 x b h s hd f -> hd mod 2 = 0 ->
  precompute_rope_params hd default_theta_base ctx = Ok (c, sn) -> s <= ctx ->
  exists y,
    Float.compute_rope dtype x (Float.of_real c) (Float.of_real sn) = Ok y /\
    is4 y b h s hd (fun i j m k => Float.Entry.rope_rotate dtype hd (f i j m) m k).
Proof.
  intros Hx Hev Hp Hle.
  destruct (precompute_rope_params_spec hd default_theta_base ctx Hev)
    as (c' & s' & Hp' & Hc & Hs).
  rewrite Hp in Hp'. injection Hp' as <- <-.
  assert (Hc' : is2 (Float.of_real c) ctx hd
                  (fun m k => Float.Num (cos (Spec.rope_angle default_theta_base hd m
                                                (if k <? hd / 2 then k else k - hd / 2))))).
  { destruct Hc as [S E]. split; [exact S|]. intros m k Hm Hk.
    unfold Float.of_real. tsimpl. now rewrite E. }
  assert (Hs' : is2 (Float.of_real sn) ctx hd
                  (fun m k => Float.Num (sin (Spec.rope_angle default_theta_base hd m
                                                (if k <? hd / 2 then k else k - hd / 2))))).
  { destruct Hs as [S E]. split; [exact S|]. intros m k Hm Hk.
    unfold Float.of_real. tsimpl. now rewrite E. }
  destruct (float_compute_rope_spec dtype x _ _ b h s hd ctx f _ _ Hx Hev Hc' Hs' Hle)
    as (y & Ey & [Sy Vy]).
  exists y. split; [exact Ey|]. split; [exact Sy|].
  intros i j m k Hi Hj Hm Hk. rewrite Vy by assumption. reflexivity.
Qed.

Lemma float_matmul_spec (dtype : Torch.dtype) (x y : Tensor Float.t) (a b m k p : nat)
  (f g : nat -> nat -> nat -> nat -> Float.t) :
  is4 x a b m k f -> is4 y a b k p g ->
  exists z,
    Float.matmul dtype x y = Ok z /\
    is4 z a b m p (fun i j r c =>
      Float.sum dtype k (fun l => Float.mul dtype (f i j r l) (g i j l c))).
Proof.
  intros Hx Hy. open_is Hx. open_is Hy. unfold Float.matmul. tstep.
  rewrite Nat.eqb_refl, broadcast_same. tstep.
  eexists. split; [reflexivity|]. split; [reflexivity|].
  intros i j r c Hi Hj Hr Hc. tstep.
  apply Fsum_ext. intros l Hl.
  rewrite bidx_valid by (repeat constructor; assumption). tstep.
  rewrite He, He0 by assumption. reflexivity.
Qed.

Lemma float_masked_fill_spec (x : Tensor Float.t) (mb : Tensor bool) (v : Float.t)
  (a b c d : nat) (f : nat -> nat -> nat -> nat -> Float.t) (g : nat -> nat -> bool) :
  is4 x a b c d f -> is2 mb c d g ->
  exists y,
    Float.masked_fill x mb v = Ok y /\
    is4 y a b c d (fun i j k l => if g k l then v else f i j k l).
Proof.
  intros Hx Hm. open_is Hx. open_is Hm. unfold Float.masked_fill. tstep.
  unfold Torch.broadcast_shapes. tstep. rewrite !bdim_same. tstep.
  rewrite !Nat.eqb_refl. tstep.
  eexists. split; [reflexivity|]. split; [reflexivity|].
  intros i j k l Hi Hj Hk Hl. tstep. unfold Torch.bidx. tstep. bsel_tac.
  rewrite He, He0 by assumption. reflexivity.
Qed.

Lemma float_softmax_spec (dtype : Torch.dtype) (x : Tensor Float.t) (a b c d : nat)
  (f : nat -> nat -> nat -> nat -> Float.t) :
  is4 x a b c d f ->
  is4 (Float.softmax_last dtype x) a b c d
    (fun i j k l => Float.softmax_row dtype d (f i j k) l).
Proof.
  intros Hx. open_is Hx. unfold Float.softmax_last. tstep.
  split; [reflexivity|]. intros i j k l Hi Hj Hk Hl. tstep.
  apply softmax_row_ext; [|assumption]. intros l' Hl'. now rewrite He.
Qed.

Lemma float_MHA_forward_spec (self : Float.MultiHeadedAttention.t) (x : Tensor Float.t)
  (d_in ctx b n : nat) :
  Float.MultiHeadedAttention.wf self d_in ctx ->
  shape x = [b; n; d_in] -> n <= ctx ->
  exists y,
    Float.MultiHeadedAttention.forward self x = Ok y /\
    is3 y b n (Float.MultiHeadedAttention.d_out self)
      (fun i t c => Float.Entry.attention self n (fun t' k => elem x [i; t'; k]) t c).
Proof.
  intros Hwf Hx Hn.
  destruct Hwf as (Hd & Hev & Wq & Wk & Wv & Wo & _ & _ & _ & _
                   & Iq & Oq & Ik & Ok_ & Iv & Ov & Io & Oo & _ & _ & _ & _
                   & Hmask & Hrope & _).
  unfold Float.MultiHeadedAttention.forward. rewrite Hx. tsimpl.
  pose proof (is3_self x b n d_in Hx) as X.
  destruct (float_linear_is3 (Float.MultiHeadedAttention.W_query self) x b n
              (fun i j k => elem x [i; j; k]) Wq) as (q & Eq & Q);
    [rewrite Iq; exact X|].
  destruct (float_linear_is3 (Float.MultiHeadedAttention.W_key self) x b n
              (fun i j k => elem x [i; j; k]) Wk) as (k & Ek & K);
    [rewrite Ik; exact X|].
  destruct (float_linear_is3 (Float.MultiHeadedAttention.W_value self) x b n
              (fun i j k => elem x [i; j; k]) Wv) as (v & Ev & V);
    [rewrite Iv; exact X|].
  rewrite Oq, Hd in Q. rewrite Ok_, Hd in K. rewrite Ov, Hd in V.
  rewrite Eq, Ek, Ev. tsimpl.
  destruct (view_split q b n _ _ _ Q) as (q1 & Eq1 & Q1).
  destruct (view_split k b n _ _ _ K) as (k1 & Ek1 & K1).
  destruct (view_split v b n _ _ _ V) as (v1 & Ev1 & V1).
  rewrite Eq1, Ek1, Ev1. tsimpl.
  destruct (transpose12_spec q1 _ _ _ _ _ Q1) as (q2 & Eq2 & Q2).
  destruct (transpose12_spec k1 _ _ _ _ _ K1) as (k2 & Ek2 & K2).
  destruct (transpose12_spec v1 _ _ _ _ _ V1) as (v2 & Ev2 & V2).
  rewrite Eq2, Ek2, Ev2. tsimpl.
  destruct (float_rope_is4 (Float.MultiHeadedAttention.dtype self)
              k2 _ _ _ _ _ _ _ _ K2 Hev Hrope Hn) as (k3 & Ek3 & K3).
  destruct (float_rope_is4 (Float.MultiHeadedAttention.dtype self)
              q2 _ _ _ _ _ _ _ _ Q2 Hev Hrope Hn) as (q3 & Eq3 & Q3).
  rewrite Ek3, Eq3. tsimpl.
  destruct (transpose23_spec k3 _ _ _ _ _ K3) as (kt & Ekt & KT).
  rewrite Ekt. tsimpl.
  destruct (float_matmul_spec (Float.MultiHeadedAttention.dtype self)
              q3 kt _ _ _ _ _ _ _ Q3 KT) as (sc & Esc & SC).
  rewrite Esc. tsimpl.
  destruct (mask_bool_spec ctx n _ Hmask Hn) as (mb & Emb & MB).
  unfold bind in Emb.
  destruct (Torch.slice_to 0 n (Torch.bool_ (Float.MultiHeadedAttention.mask self))) as [m0|e];
    [|discriminate].
  tsimpl. rewrite Emb. tsimpl.
  destruct (float_masked_fill_spec sc mb Float.NInf _ _ _ _ _ _ SC MB) as (ms & Ems & MS).
  rewrite Ems. tsimpl.
  unfold Torch.size_last. rewrite (proj1 K3). tsimpl.
  pose proof (float_softmax_spec (Float.MultiHeadedAttention.dtype self) _ _ _ _ _ _
                (map_is4
                   (fun v => Float.div (Float.MultiHeadedAttention.dtype self) v
                               (Float.Num
                                  (sqrt (INR (Float.MultiHeadedAttention.head_dim self)))))
                   ms _ _ _ _ _ MS)) as AW.
  destruct (float_matmul_spec (Float.MultiHeadedAttention.dtype self)
              _ v2 _ _ _ _ _ _ _ AW V2) as (cv & Ecv & CV).
  unfold Float.div_scalar. rewrite Ecv. tsimpl.
  destruct (transpose12_spec cv _ _ _ _ _ CV) as (cv1 & Ecv1 & CV1).
  rewrite Ecv1. tsimpl.
  destruct (reshape_merge cv1 _ _ _ _ _ CV1) as (cv2 & Ecv2 & CV2).
  rewrite Hd, Ecv2. tsimpl.
  rewrite <- Hd, <- Io in CV2.
  destruct (float_linear_is3 (Float.MultiHeadedAttention.out_proj self) cv2 b n _ Wo CV2)
    as (o & Eo & O).
  rewrite Eo. tsimpl.
  exists o. split; [reflexivity|]. rewrite Oo, Hd in O.
  destruct O as [So Vo]. split; [exact So|].
  intros i t c Hi Ht Hc. rewrite Vo by assumption. reflexivity.
Qed.

(** * Float arithmetic *)

Lemma finfo_max_ge_1 (dtype : Torch.dtype) : (1 <= Float.finfo_max dtype)%R.
Proof.
  assert (P : forall n, (1 <= 2 ^ n)%R) by (intros n; apply pow_R1_Rle; lra).
  assert (Q : forall n, (0 < / 2 ^ n <= 1)%R).
  { intros n. pose proof (P n). split; [apply Rinv_0_lt_compat; lra|].
    rewrite <- Rinv_1. apply Rinv_le_contravar; lra. }
  destruct dtype; unfold Float.finfo_max.
  - pose proof (P 127). pose proof (Q 23). nra.
  - pose proof (P 127). pose proof (Q 7). nra.
  - pose proof (P 15). pose proof (Q 10). nra.
  - pose proof (P 1023). pose proof (Q 52). nra.
Qed.

Lemma round_unit (dtype : Torch.dtype) (r : R) :
  (Rabs r <= 1)%R -> Float.round dtype r = Float.Num r.
Proof.
  intros H. unfold Float.round. pose proof (finfo_max_ge_1 dtype).
  destruct (Rle_dec (Rabs r) (Float.finfo_max dtype)); [reflexivity|lra].
Qed.

Lemma round_zero (dtype : Torch.dtype) (r : R) : r = 0%R -> Float.round dtype r = Float.Num 0.
Proof. intros ->. apply round_unit. rewrite Rabs_R0. lra. Qed.

Lemma round_one (dtype : Torch.dtype) (r : R) : r = 1%R -> Float.round dtype r = Float.Num 1.
Proof. intros ->. apply round_unit. rewrite Rabs_R1. lra. Qed.

Lemma mul_zero_finite (dtype : Torch.dtype) (a : Float.t) :
  Float.is_finite a -> Float.mul dtype (Float.Num 0) a = Float.Num 0.
Proof.
  destruct a; cbn; try contradiction. intros _. apply round_zero. ring.
Qed.

Lemma div_ninf_sqrt (dtype : Torch.dtype) (c : R) :
  Float.div dtype Float.NInf (Float.Num (sqrt c)) = Float.NInf.
Proof.
  cbn. pose proof (sqrt_pos c). destruct (Rlt_dec (sqrt c) 0); [lra|reflexivity].
Qed.

(** A masked position of a row gets the weight 0, or NaN when the row has no
    finite largest entry. *)
Lemma softmax_row_masked (dtype : Torch.dtype) (n : nat) (row : nat -> Float.t) (j : nat) :
  row j = Float.NInf ->
  Float.softmax_row dtype n row j = Float.Num 0 \/ Float.softmax_row dtype n row j = Float.NaN.
Proof.
  intros H. unfold Float.softmax_row. rewrite H.
  destruct (Float.max_of n row); cbn;
    try (right; reflexivity).
  - destruct (Float.sum dtype n _); cbn; auto.
    destruct (Req_dec_T r0 0); [destruct (Req_dec_T 0 0); [auto|lra]|].
    left. apply round_zero. unfold Rdiv. ring.
  - destruct (Float.sum dtype n _); cbn; auto.
    destruct (Req_dec_T r 0); [destruct (Req_dec_T 0 0); [auto|lra]|].
    left. apply round_zero. unfold Rdiv. ring.
Qed.

Lemma mul_masked (dtype : Torch.dtype) (w a b : Float.t) :
  w = Float.Num 0 \/ w = Float.NaN -> Float.is_finite a -> Float.is_finite b ->
  Float.mul dtype w a = Float.mul dtype w b.
Proof.
  intros [-> | ->] Ha Hb.
  - now rewrite !mul_zero_finite.
  - reflexivity.
Qed.

(** * Attention over floats looks backwards only, as long as the later value
    projections are finite *)

Lemma entry_rope_rotate_ext (dtype : Torch.dtype) (hd : nat) (v v' : nat -> Float.t)
  (m k : nat) :
  (forall j, v j = v' j) ->
  Float.Entry.rope_rotate dtype hd v m k = Float.Entry.rope_rotate dtype hd v' m k.
Proof. intros H. unfold Float.Entry.rope_rotate. now rewrite !H. Qed.

Section FloatCausality.

Variable self : Float.MultiHeadedAttention.t.
Variables d_in n t i : nat.
Variables xs xs' : nat -> nat -> Float.t.
Hypothesis Iq : Float.Linear.in_features (Float.MultiHeadedAttention.W_query self) = d_in.
Hypothesis Ik : Float.Linear.in_features (Float.MultiHeadedAttention.W_key self) = d_in.
Hypothesis Iv : Float.Linear.in_features (Float.MultiHeadedAttention.W_value self) = d_in.
Hypothesis Io : Float.Linear.in_features (Float.MultiHeadedAttention.out_proj self)
                = Float.MultiHeadedAttention.d_out self.
Hypothesis agree : forall t' k, t' < n -> t' <= i -> k < d_in -> xs t' k = xs' t' k.
Hypothesis Ht : t < n.
Hypothesis Hti : t <= i.
Hypothesis later_finite : forall j c, j < n -> i < j ->
  c < Float.MultiHeadedAttention.d_out self ->
  Float.is_finite (Float.Entry.linear (Float.MultiHeadedAttention.W_value self) (xs j) c) /\
  Float.is_finite (Float.Entry.linear (Float.MultiHeadedAttention.W_value self) (xs' j) c).

Lemma entry_query_causal (h k : nat) :
  Float.Entry.query self xs h t k = Float.Entry.query self xs' h t k.
Proof.
  unfold Float.Entry.query. apply entry_rope_rotate_ext. intros j.
  apply entry_linear_ext. intros k' Hk'. rewrite Iq in Hk'. apply agree; lia.
Qed.

Lemma entry_key_causal (h j k : nat) :
  j <= t ->
  Float.Entry.key self xs h j k = Float.Entry.key self xs' h j k.
Proof.
  intros Hj. unfold Float.Entry.key. apply entry_rope_rotate_ext. intros j'.
  apply entry_linear_ext. intros k' Hk'. rewrite Ik in Hk'. apply agree; lia.
Qed.

Lemma entry_value_causal (h j k : nat) :
  j <= i -> j < n ->
  Float.Entry.value self xs h j k = Float.Entry.value self xs' h j k.
Proof.
  intros Hj Hn. unfold Float.Entry.value.
  apply entry_linear_ext. intros k' Hk'. rewrite Iv in Hk'. apply agree; lia.
Qed.

Lemma entry_scaled_score_causal (h j : nat) :
  Float.Entry.scaled_score self xs h t j = Float.Entry.scaled_score self xs' h t j.
Proof.
  unfold Float.Entry.scaled_score, Float.Entry.masked_score, Float.Entry.score.
  destruct (t <? j) eqn:E; [reflexivity|]. apply Nat.ltb_ge in E.
  f_equal. apply Fsum_ext. intros k _.
  now rewrite entry_query_causal, entry_key_causal.
Qed.

Lemma entry_attn_weight_causal (h j : nat) :
  j < n ->
  Float.Entry.attn_weight self n xs h t j = Float.Entry.attn_weight self n xs' h t j.
Proof.
  intros Hj. unfold Float.Entry.attn_weight.
  apply softmax_row_ext; [|assumption]. intros j' _. apply entry_scaled_score_causal.
Qed.

Lemma entry_attn_weight_future (ys : nat -> nat -> Float.t) (h j : nat) :
  t < j ->
  Float.Entry.attn_weight self n ys h t j = Float.Num 0 \/
  Float.Entry.attn_weight self n ys h t j = Float.NaN.
Proof.
  intros Hj. unfold Float.Entry.attn_weight. apply softmax_row_masked.
  unfold Float.Entry.scaled_score, Float.Entry.masked_score.
  apply Nat.ltb_lt in Hj. rewrite Hj. apply div_ninf_sqrt.
Qed.

Lemma entry_context_causal (h k : nat) :
  h * Float.MultiHeadedAttention.head_dim self + k < Float.MultiHeadedAttention.d_out self ->
  Float.Entry.context self n xs h t k = Float.Entry.context self n xs' h t k.
Proof.
  intros Hc. unfold Float.Entry.context. apply Fsum_ext. intros j Hj.
  rewrite <- entry_attn_weight_causal by assumption.
  destruct (Nat.le_gt_cases j i) as [Hle|Hgt].
  - now rewrite entry_value_causal.
  - apply mul_masked.
    + apply entry_attn_weight_future. lia.
    + apply (later_finite j _ Hj Hgt Hc).
    + apply (later_finite j _ Hj Hgt Hc).
Qed.

Lemma entry_attention_causal (c : nat) :
  Float.Entry.attention self n xs t c = Float.Entry.attention self n xs' t c.
Proof.
  unfold Float.Entry.attention. apply entry_linear_ext. intros c' Hc'.
  unfold Float.Entry.concat. apply entry_context_causal.
  rewrite head_split. now rewrite <- Io.
Qed.

End FloatCausality.

(** * The first position over floats *)

Lemma round_representable (dtype : Torch.dtype) (r : R) :
  Float.representable dtype (Float.round dtype r).
Proof.
  unfold Float.round. destruct (Rle_dec _ _); [assumption|].
  now destruct (Rlt_dec 0 r).
Qed.

Lemma round_id (dtype : Torch.dtype) (r : R) :
  Float.representable dtype (Float.Num r) -> Float.round dtype r = Float.Num r.
Proof.
  cbn. intros H. unfold Float.round. destruct (Rle_dec _ _); [reflexivity|contradiction].
Qed.

Lemma add_representable (dtype : Torch.dtype) (a b : Float.t) :
  Float.representable dtype (Float.add dtype a b).
Proof. destruct a, b; cbn; try exact I. apply round_representable. Qed.

Lemma sum_representable (dtype : Torch.dtype) (n : nat) (f : nat -> Float.t) :
  Float.representable dtype (Float.sum dtype n f).
Proof.
  destruct n; cbn [Float.sum]; [|apply add_representable].
  cbn. rewrite Rabs_R0. pose proof (finfo_max_ge_1 dtype). lra.
Qed.

Lemma mul_one_l (dtype : Torch.dtype) (a : Float.t) :
  Float.representable dtype a -> Float.mul dtype (Float.Num 1) a = a.
Proof.
  destruct a; intros H; cbn; unfold Float.scale_inf; try reflexivity.
  - rewrite Rmult_1_l. now apply round_id.
  - destruct (Req_dec_T 1 0); [lra|]. destruct (Rlt_dec 0 1); [reflexivity|lra].
  - destruct (Req_dec_T 1 0); [lra|]. destruct (Rlt_dec 0 1); [reflexivity|lra].
Qed.

Lemma mul_zero_nonfinite (dtype : Torch.dtype) (a : Float.t) :
  ~ Float.is_finite a -> Float.mul dtype (Float.Num 0) a = Float.NaN.
Proof.
  destruct a; cbn; unfold Float.scale_inf; intros H; try reflexivity.
  - now destruct H.
  - destruct (Req_dec_T 0 0); [reflexivity|lra].
  - destruct (Req_dec_T 0 0); [reflexivity|lra].
Qed.

Lemma add_zero_l (dtype : Torch.dtype) (a : Float.t) :
  Float.representable dtype a -> Float.add dtype (Float.Num 0) a = a.
Proof.
  destruct a; intros H; cbn; try reflexivity. rewrite Rplus_0_l. now apply round_id.
Qed.

Lemma add_zero_r (dtype : Torch.dtype) (a : Float.t) :
  Float.representable dtype a -> Float.add dtype a (Float.Num 0) = a.
Proof.
  destruct a; intros H; cbn; try reflexivity. rewrite Rplus_0_r. now apply round_id.
Qed.

Lemma add_nan_r (dtype : Torch.dtype) (a : Float.t) : Float.add dtype a Float.NaN = Float.NaN.
Proof. now destruct a. Qed.

Lemma sum_nan (dtype : Torch.dtype) (n : nat) (f : nat -> Float.t) (j : nat) :
  j < n -> f j = Float.NaN -> Float.sum dtype n f = Float.NaN.
Proof.
  intros Hj Hf. induction n as [|n IH]; [lia|]. cbn [Float.sum].
  destruct (Nat.eq_dec j n) as [->|Hne].
  - rewrite Hf. apply add_nan_r.
  - rewrite IH by lia. reflexivity.
Qed.

(** A sum whose terms after the first are zero. *)
Lemma sum_first (dtype : Torch.dtype) (n : nat) (f : nat -> Float.t) :
  0 < n -> Float.representable dtype (f 0) ->
  (forall j, 0 < j -> j < n -> f j = Float.Num 0) ->
  Float.sum dtype n f = f 0.
Proof.
  intros Hn H0 Hz. induction n as [|n IH]; [lia|]. cbn [Float.sum].
  destruct n as [|n].
  - cbn [Float.sum]. now apply add_zero_l.
  - rewrite IH by (intros; try apply Hz; lia).
    rewrite (Hz (S n)) by lia. now apply add_zero_r.
Qed.

Lemma max_of_first (n : nat) (row : nat -> Float.t) (a : R) :
  0 < n -> row 0 = Float.Num a ->
  (forall j, 0 < j -> j < n -> row j = Float.NInf) ->
  Float.max_of n row = Float.Num a.
Proof.
  intros Hn H0 Hm. induction n as [|n IH]; [lia|]. cbn [Float.max_of].
  destruct n as [|n].
  - cbn [Float.max_of]. now rewrite H0.
  - rewrite IH by (intros; try apply Hm; lia).
    now rewrite (Hm (S n)) by lia.
Qed.

Lemma exp_zero (dtype : Torch.dtype) (a : R) :
  Float.exp dtype (Float.sub dtype (Float.Num a) (Float.Num a)) = Float.Num 1.
Proof.
  cbn. rewrite (round_zero dtype (a + - a)) by ring. cbn.
  apply round_one. apply exp_0.
Qed.

Lemma div_one (dtype : Torch.dtype) : Float.div dtype (Float.Num 1) (Float.Num 1) = Float.Num 1.
Proof. cbn. destruct (Req_dec_T 1 0); [lra|]. apply round_one. field. Qed.

Lemma div_zero_one (dtype : Torch.dtype) :
  Float.div dtype (Float.Num 0) (Float.Num 1) = Float.Num 0.
Proof. cbn. destruct (Req_dec_T 1 0); [lra|]. apply round_zero. field. Qed.

Lemma representable_one (dtype : Torch.dtype) : Float.representable dtype (Float.Num 1).
Proof. cbn. rewrite Rabs_R1. apply finfo_max_ge_1. Qed.

(** A row whose entries after the first are masked: the first entry takes
    the whole weight. *)
Lemma softmax_row_first (dtype : Torch.dtype) (n : nat) (row : nat -> Float.t) (a : R) :
  0 < n -> row 0 = Float.Num a ->
  (forall j, 0 < j -> j < n -> row j = Float.NInf) ->
  Float.softmax_row dtype n row 0 = Float.Num 1 /\
  forall j, 0 < j -> j < n -> Float.softmax_row dtype n row j = Float.Num 0.
Proof.
  intros Hn H0 Hm. unfold Float.softmax_row.
  rewrite (max_of_first n row a Hn H0 Hm).
  assert (S : Float.sum dtype n
                (fun j' => Float.exp dtype (Float.sub dtype (row j') (Float.Num a)))
              = Float.Num 1).
  { rewrite sum_first; [rewrite H0; apply exp_zero|assumption| |].
    - rewrite H0, exp_zero. apply representable_one.
    - intros j Hj Hjn. now rewrite Hm. }
  rewrite S. split.
  - rewrite H0, exp_zero. apply div_one.
  - intros j Hj Hjn. rewrite Hm by assumption. cbn [Float.sub Float.neg Float.add Float.exp].
    apply div_zero_one.
Qed.

Lemma sqrt_INR_ge_1 (n : nat) : 0 < n -> (1 <= sqrt (INR n))%R.
Proof.
  intros H. rewrite <- sqrt_1. apply sqrt_le_1_alt.
  change 1%R with (INR 1). apply le_INR. lia.
Qed.

(** Dividing a number by a number of at least one leaves it in range. *)
Lemma div_finite (dtype : Torch.dtype) (s c : R) :
  Float.representable dtype (Float.Num s) -> (1 <= c)%R ->
  Float.div dtype (Float.Num s) (Float.Num c) = Float.Num (s / c).
Proof.
  cbn. intros Hs Hc. destruct (Req_dec_T c 0); [lra|].
  unfold Float.round. destruct (Rle_dec _ _) as [|N]; [reflexivity|]. exfalso. apply N.
  unfold Rdiv. rewrite Rabs_mult, (Rabs_right (/ c)).
  - assert (0 < / c <= 1)%R.
    { split; [apply Rinv_0_lt_compat; lra|].
      rewrite <- Rinv_1. apply Rinv_le_contravar; lra. }
    pose proof (Rabs_pos s). nra.
  - apply Rle_ge. left. apply Rinv_0_lt_compat. lra.
Qed.

Section FirstPosition.

Variable self : Float.MultiHeadedAttention.t.
Variable n : nat.
Variable xs : nat -> nat -> Float.t.
Variable h : nat.
Hypothesis Hn : 0 < n.
Hypothesis Hhd : 0 < Float.MultiHeadedAttention.head_dim self.
Hypothesis score_finite : Float.is_finite (Float.Entry.score self xs h 0 0).

Lemma entry_attn_weight_first :
  Float.Entry.attn_weight self n xs h 0 0 = Float.Num 1 /\
  forall j, 0 < j -> j < n -> Float.Entry.attn_weight self n xs h 0 j = Float.Num 0.
Proof.
  unfold Float.Entry.attn_weight.
  destruct (Float.Entry.score self xs h 0 0) as [s| | |] eqn:E; try contradiction.
  apply (softmax_row_first _ n _
           (s / sqrt (INR (Float.MultiHeadedAttention.head_dim self)))); [assumption| |].
  - unfold Float.Entry.scaled_score, Float.Entry.masked_score. cbn [Nat.ltb Nat.leb].
    rewrite E. apply div_finite; [|now apply sqrt_INR_ge_1].
    rewrite <- E. apply sum_representable.
  - intros j Hj Hjn. unfold Float.Entry.scaled_score, Float.Entry.masked_score.
    apply Nat.ltb_lt in Hj. rewrite Hj. apply div_ninf_sqrt.
Qed.

Hypothesis Dv : Float.Linear.dtype (Float.MultiHeadedAttention.W_value self)
                = Float.MultiHeadedAttention.dtype self.

Lemma entry_linear_representable (l : Float.Linear.t) (v : nat -> Float.t) (o : nat) :
  Float.representable (Float.Linear.dtype l) (Float.Entry.linear l v o).
Proof.
  unfold Float.Entry.linear. destruct (Float.Linear.bias l).
  - apply add_representable.
  - apply sum_representable.
Qed.

(** With finite values after it, the first position returns its own value. *)
Lemma entry_context_first (k : nat) :
  (forall j, 0 < j -> j < n -> Float.is_finite (Float.Entry.value self xs h j k)) ->
  Float.Entry.context self n xs h 0 k = Float.Entry.value self xs h 0 k.
Proof.
  intros Hfin. destruct entry_attn_weight_first as [W0 Wj].
  assert (R0 : Float.representable (Float.MultiHeadedAttention.dtype self)
                 (Float.Entry.value self xs h 0 k)).
  { rewrite <- Dv. apply entry_linear_representable. }
  unfold Float.Entry.context.
  rewrite sum_first; [rewrite W0; now apply mul_one_l|assumption| |].
  - rewrite W0, mul_one_l; assumption.
  - intros j Hj Hjn. rewrite Wj by assumption. apply mul_zero_finite. now apply Hfin.
Qed.

(** A value after the first position that is not finite turns the context
    of the first position into NaN. *)
Lemma entry_context_leak (j k : nat) :
  0 < j -> j < n -> ~ Float.is_finite (Float.Entry.value self xs h j k) ->
  Float.Entry.context self n xs h 0 k = Float.NaN.
Proof.
  intros Hj Hjn Hinf. destruct entry_attn_weight_first as [_ Wj].
  unfold Float.Entry.context. apply (sum_nan _ n _ j Hjn).
  rewrite Wj by assumption. now apply mul_zero_nonfinite.
Qed.

End FirstPosition.

Lemma entry_linear_nan (l : Float.Linear.t) (v : nat -> Float.t) (o k : nat) :
  Float.Linear.bias l = None -> k < Float.Linear.in_features l -> v k = Float.NaN ->
  Float.Entry.linear l v o = Float.NaN.
Proof.
  intros Hb Hk Hv. unfold Float.Entry.linear. rewrite Hb.
  apply (sum_nan _ _ _ k Hk). now rewrite Hv.
Qed.

(** * A float module run by hand *)

Lemma float_mha_wf : Float.MultiHeadedAttention.wf Example.float_mha 2 2.
Proof. repeat split; first [reflexivity | lazy; lia]. Qed.

(** Evaluate float arithmetic on the numbers 0 and 1. *)
Ltac fstep :=
  match goal with
  | |- context [Float.round ?d ?r] =>
      first [ rewrite (round_zero d r) by lra | rewrite (round_one d r) by lra ]
  | |- context [Req_dec_T ?a ?b] => destruct (Req_dec_T a b); try (exfalso; lra)
  | |- context [Rlt_dec ?a ?b] => destruct (Rlt_dec a b); try (exfalso; lra)
  end.

Ltac fcalc :=
  repeat (cbn [Float.sum Float.mul Float.add Float.sub Float.neg Float.div Float.exp
               Float.max Float.max_of Float.is_finite];
          unfold Float.scale_inf;
          try fstep).

(** Unfold the layers of [Example.float_mha]. *)
Ltac float_mha_layers :=
  change (Float.MultiHeadedAttention.W_query Example.float_mha)
    with (Float.Linear.of_real Torch.float32 (Linear.init 2 2 false Example.zero_draw));
  change (Float.MultiHeadedAttention.W_key Example.float_mha)
    with (Float.Linear.of_real Torch.float32 (Linear.init 2 2 false Example.zero_draw));
  change (Float.MultiHeadedAttention.W_value Example.float_mha)
    with (Float.Linear.of_real Torch.float32 (Linear.init 2 2 false Example.eye_draw));
  change (Float.MultiHeadedAttention.out_proj Example.float_mha)
    with (Float.Linear.of_real Torch.float32 (Linear.init 2 2 false Example.eye_draw));
  change (Float.MultiHeadedAttention.head_dim Example.float_mha) with 2;
  change (Float.MultiHeadedAttention.dtype Example.float_mha) with Torch.float32;
  cbn [Float.Linear.of_real Float.Linear.bias Float.Linear.dtype Float.Linear.in_features
       Float.Linear.weight Linear.init Linear.bias Linear.weight Linear.in_features
       option_map Float.of_real Torch.map elem Example.zero_draw Example.eye_draw w0 Float.sum
       nth Nat.eqb Nat.mul Nat.add].

Lemma float_mha_query (xs : nat -> nat -> Float.t) (k : nat) :
  xs 0 0 = Float.Num 1 -> xs 0 1 = Float.Num 1 ->
  Float.Entry.query Example.float_mha xs 0 0 k = Float.Num 0.
Proof.
  intros H0 H1.
  cbv [Float.Entry.query Float.Entry.rope_rotate Float.Entry.linear].
  float_mha_layers. rewrite H0, H1.
  destruct (k <? 2 / 2); fcalc; reflexivity.
Qed.

Lemma float_mha_key (xs : nat -> nat -> Float.t) (k : nat) :
  xs 0 0 = Float.Num 1 -> xs 0 1 = Float.Num 1 ->
  Float.Entry.key Example.float_mha xs 0 0 k = Float.Num 0.
Proof.
  intros H0 H1.
  cbv [Float.Entry.key Float.Entry.rope_rotate Float.Entry.linear].
  float_mha_layers. rewrite H0, H1.
  destruct (k <? 2 / 2); fcalc; reflexivity.
Qed.

Lemma float_mha_score (xs : nat -> nat -> Float.t) :
  xs 0 0 = Float.Num 1 -> xs 0 1 = Float.Num 1 ->
  Float.Entry.score Example.float_mha xs 0 0 0 = Float.Num 0.
Proof.
  intros H0 H1. unfold Float.Entry.score.
  change (Float.MultiHeadedAttention.head_dim Example.float_mha) with 2.
  cbn [Float.sum]. rewrite !float_mha_query, !float_mha_key by assumption.
  fcalc. reflexivity.
Qed.

(** The value projection of [Example.float_mha] is the identity. *)
Lemma float_mha_value (xs : nat -> nat -> Float.t) (j k : nat) (a b : Float.t) :
  xs j 0 = a -> xs j 1 = b -> k < 2 ->
  Float.Entry.value Example.float_mha xs 0 j k
  = Float.add Torch.float32
      (Float.add Torch.float32 (Float.Num 0)
         (Float.mul Torch.float32 a (Float.Num (if k =? 0 then 1 else 0))))
      (Float.mul Torch.float32 b (Float.Num (if k =? 1 then 1 else 0))).
Proof.
  intros H0 H1 Hk. cbv [Float.Entry.value Float.Entry.linear].
  float_mha_layers. rewrite H0, H1. reflexivity.
Qed.

Lemma float_mha_values (x v : Tensor Float.t) (b t c : nat) (a a' : Float.t) :
  shape x = [1; 2; 2] ->
  Float.Linear.forward (Float.MultiHeadedAttention.W_value Example.float_mha) x = Ok v ->
  elem x [b; t; 0] = a -> elem x [b; t; 1] = a' ->
  b < 1 -> t < 2 -> c < 2 ->
  elem v [b; t; c]
  = Float.add Torch.float32
      (Float.add Torch.float32 (Float.Num 0)
         (Float.mul Torch.float32 a (Float.Num (if c =? 0 then 1 else 0))))
      (Float.mul Torch.float32 a' (Float.Num (if c =? 1 then 1 else 0))).
Proof.
  intros Hx Hv H0 H1 Hb Ht Hc.
  pose proof float_mha_wf
    as (_ & _ & _ & _ & Wv & _ & _ & _ & _ & _ & _ & _ & _ & _ & Iv & Ov & _).
  destruct (float_linear_is3 (Float.MultiHeadedAttention.W_value Example.float_mha) x 1 2
              (fun i j k => elem x [i; j; k]) Wv) as (v0 & Ev & _ & V);
    [rewrite Iv; now apply is3_self|].
  rewrite Hv in Ev. injection Ev as <-. rewrite V by (rewrite ?Ov; cbn; lia).
  now apply (float_mha_value (fun t' k => elem x [b; t'; k]) t c a a').
Qed.

(** * The claims *)

(** C1, amended.  The causal mask makes attention look backwards only as
    long as the values it masks are finite.  For two float inputs of the
    same shape (batch, num_tokens, d_in), with num_tokens at most
    context_length, that agree on every token position up to and including
    [i], and whose value projections [W_value(x)] and [W_value(x')] are
    finite at every position after [i], the outputs of
    [MultiHeadedAttention.forward] agree at every position up to and
    including [i] (as values: where one is NaN, so is the other). *)
Theorem attention_is_causal
  (self : Float.MultiHeadedAttention.t) (x x' v v' : Tensor Float.t)
  (d_in context_length batch num_tokens i : nat) :
  Float.MultiHeadedAttention.wf self d_in context_length ->
  shape x = [batch; num_tokens; d_in] ->
  shape x' = [batch; num_tokens; d_in] ->
  num_tokens <= context_length ->
  (forall b t k, b < batch -> t < num_tokens -> t <= i -> k < d_in ->
     elem x [b; t; k] = elem x' [b; t; k]) ->
  Float.Linear.forward (Float.MultiHeadedAttention.W_value self) x = Ok v ->
  Float.Linear.forward (Float.MultiHeadedAttention.W_value self) x' = Ok v' ->
  (forall b t c, b < batch -> t < num_tokens -> i < t ->
     c < Float.MultiHeadedAttention.d_out self ->
     Float.is_finite (elem v [b; t; c]) /\ Float.is_finite (elem v' [b; t; c])) ->
  exists y y',
    Float.MultiHeadedAttention.forward self x = Ok y /\
    Float.MultiHeadedAttention.forward self x' = Ok y' /\
    shape y = shape y' /\
    forall b t c, b < batch -> t < num_tokens -> t <= i ->
      c < Float.MultiHeadedAttention.d_out self ->
      elem y [b; t; c] = elem y' [b; t; c].
Proof.
  intros Hwf Hx Hx' Hn Hagree Hv Hv' Hfin.
  destruct (float_MHA_forward_spec self x d_in context_length batch num_tokens Hwf Hx Hn)
    as (y & Ey & Sy & Vy).
  destruct (float_MHA_forward_spec self x' d_in context_length batch num_tokens Hwf Hx' Hn)
    as (y' & Ey' & Sy' & Vy').
  exists y, y'. repeat split; try assumption; [congruence|].
  intros b t c Hb Ht Hti Hc. rewrite Vy, Vy' by assumption.
  destruct Hwf as (_ & _ & _ & _ & Wv & _ & _ & _ & _ & _ & Iq & _ & Ik & _ & Iv & Ov & Io & _).
  destruct (float_linear_is3 (Float.MultiHeadedAttention.W_value self) x batch num_tokens
              (fun i j k => elem x [i; j; k]) Wv) as (w & Ew & _ & W);
    [rewrite Iv; now apply is3_self|].
  destruct (float_linear_is3 (Float.MultiHeadedAttention.W_value self) x' batch num_tokens
              (fun i j k => elem x' [i; j; k]) Wv) as (w' & Ew' & _ & W');
    [rewrite Iv; now apply is3_self|].
  rewrite Hv in Ew. injection Ew as <-. rewrite Hv' in Ew'. injection Ew' as <-.
  apply (entry_attention_causal self d_in num_tokens t i _ _ Iq Ik Iv Io); try assumption.
  - intros t' k Ht' Hle Hk. now apply Hagree.
  - intros j c' Hj Hij Hc'. rewrite Ov in W, W'.
    rewrite <- W, <- W' by assumption. now apply Hfin.
Qed.

Lemma attention_is_causal_witness :
  exists y y',
    Float.MultiHeadedAttention.forward Example.float_mha Example.float_inputs = Ok y /\
    Float.MultiHeadedAttention.forward Example.float_mha Example.float_inputs' = Ok y' /\
    shape y = shape y' /\
    forall b t c, b < 1 -> t < 2 -> t <= 0 ->
      c < Float.MultiHeadedAttention.d_out Example.float_mha ->
      elem y [b; t; c] = elem y' [b; t; c].
Proof.
  eapply (attention_is_causal Example.float_mha Example.float_inputs Example.float_inputs'
            _ _ 2 2 1 2 0).
  - repeat split; first [reflexivity | lazy; lia].
  - reflexivity.
  - reflexivity.
  - lia.
  - intros b t k Hb Ht Hi Hk. destruct t as [|t]; [reflexivity|lia].
  - reflexivity.
  - reflexivity.
  - intros b t c Hb Ht Hi Hc.
    change (Float.MultiHeadedAttention.d_out Example.float_mha) with 2 in Hc.
    destruct t as [|[|t]]; [lia| |lia]. destruct c as [|[|c]]; [| |lia];
      cbn [elem Example.float_inputs Example.float_inputs' Float.of_real Torch.map Float.sum
           Torch.set_last removelast last app nth Nat.eqb];
      float_mha_layers; split; fcalc; exact I.
Defined.

(** C1 as stated, for every pair of inputs, fails: a masked position has
    the weight 0, and 0 times an infinite value is NaN.  Two inputs that
    agree on the first token, the second with an infinity in its second
    token, give the output 1 and the output NaN at the first position. *)
Lemma attention_leaks_later_infinity :
  (forall b t k, b < 1 -> t < 2 -> t <= 0 -> k < 2 ->
     elem Example.float_inputs [b; t; k] = elem Example.inf_inputs [b; t; k]) /\
  exists y y',
    Float.MultiHeadedAttention.forward Example.float_mha Example.float_inputs = Ok y /\
    Float.MultiHeadedAttention.forward Example.float_mha Example.inf_inputs = Ok y' /\
    elem y [0; 0; 0] = Float.Num 1 /\
    elem y' [0; 0; 0] = Float.NaN.
Proof.
  split.
  { intros b t k Hb Ht Hi Hk. destruct t as [|t]; [reflexivity|lia]. }
  destruct (float_MHA_forward_spec Example.float_mha Example.float_inputs 2 2 1 2
              float_mha_wf eq_refl) as (y & Ey & _ & Vy); [lia|].
  destruct (float_MHA_forward_spec Example.float_mha Example.inf_inputs 2 2 1 2
              float_mha_wf eq_refl) as (y' & Ey' & _ & Vy'); [lia|].
  exists y, y'. split; [exact Ey|]. split; [exact Ey'|].
  change (Float.MultiHeadedAttention.d_out Example.float_mha) with 2 in Vy, Vy'.
  rewrite Vy, Vy' by lia.
  assert (Hn : 0 < 2) by lia.
  assert (Hhd : 0 < Float.MultiHeadedAttention.head_dim Example.float_mha) by (cbn; lia).
  split.
  - unfold Float.Entry.attention, Float.Entry.linear, Float.Entry.concat.
    float_mha_layers.
    change (0 / 2) with 0. change (1 / 2) with 0. change (0 mod 2) with 0.
    change (1 mod 2) with 1.
    rewrite !entry_context_first; try assumption; try reflexivity.
    + rewrite !(float_mha_value _ 0 _ (Float.Num 1) (Float.Num 1)) by (reflexivity || lia).
      cbn [Nat.eqb]. fcalc. reflexivity.
    + rewrite float_mha_score by reflexivity. exact I.
    + intros j Hj Hj2. assert (j = 1) as -> by lia.
      rewrite (float_mha_value _ 1 _ (Float.Num 1) (Float.Num 1)) by (reflexivity || lia).
      cbn [Nat.eqb]. fcalc. exact I.
    + rewrite float_mha_score by reflexivity. exact I.
    + intros j Hj Hj2. assert (j = 1) as -> by lia.
      rewrite (float_mha_value _ 1 _ (Float.Num 1) (Float.Num 1)) by (reflexivity || lia).
      cbn [Nat.eqb]. fcalc. exact I.
  - apply (entry_linear_nan _ _ _ 0); [reflexivity|cbn; lia|].
    unfold Float.Entry.concat.
    change (0 / Float.MultiHeadedAttention.head_dim Example.float_mha) with 0.
    change (0 mod Float.MultiHeadedAttention.head_dim Example.float_mha) with 0.
    apply (entry_context_leak _ 2 _ 0 Hhd) with (j := 1); try lia.
    + rewrite float_mha_score by reflexivity. exact I.
    + rewrite (float_mha_value _ 1 _ Float.PInf (Float.Num 1)) by (reflexivity || lia).
      cbn [Nat.eqb]. fcalc. intros F. exact F.
Qed.

(** C2. On an input of shape (batch, num_heads, seq_len, head_dim) with an
    even head_dim and seq_len at most context_length, [compute_rope] with the
    tables of [precompute_rope_params] returns a tensor of the same shape in
    which, at every position [m] and for every [j < head_dim/2], the pair
    (x[j], x[j + head_dim/2]) is rotated by the angle
    [m * theta_base^(-2j/head_dim)]. *)
Theorem compute_rope_rotates_pairs
  (x : Tensor R) (batch num_heads seq_len head_dim context_length : nat) (theta_base : R) :
  shape x = [batch; num_heads; seq_len; head_dim] ->
  head_dim mod 2 = 0 ->
  seq_len <= context_length ->
  exists cos sin y,
    precompute_rope_params head_dim theta_base context_length = Ok (cos, sin) /\
    compute_rope x cos sin = Ok y /\
    shape y = shape x /\
    forall i p m j, i < batch -> p < num_heads -> m < seq_len -> j < head_dim / 2 ->
      let a := Spec.rope_angle theta_base head_dim m j in
      let half := head_dim / 2 in
      elem y [i; p; m; j]
      = (elem x [i; p; m; j] * Rtrigo_def.cos a
         - elem x [i; p; m; (j + half)%nat] * Rtrigo_def.sin a)%R /\
      elem y [i; p; m; (j + half)%nat]
      = (elem x [i; p; m; (j + half)%nat] * Rtrigo_def.cos a
         + elem x [i; p; m; j] * Rtrigo_def.sin a)%R.
Proof.
  intros Hx Hev Hle.
  destruct (precompute_rope_params_spec head_dim theta_base context_length Hev)
    as (c & s & Hp & _ & _).
  destruct (rope_is4 x c s _ _ _ _ _ theta_base _ (is4_self x _ _ _ _ Hx) Hev Hp Hle)
    as (y & Ey & Sy & Vy).
  exists c, s, y. repeat split; try assumption; [congruence|..].
  - rewrite Vy by (try assumption; pose proof (half_double head_dim Hev); lia).
    now apply rope_rotate_low.
  - rewrite Vy by (try assumption; pose proof (half_double head_dim Hev); lia).
    apply rope_rotate_high.
Qed.

Lemma compute_rope_rotates_pairs_witness :
  exists cos sin y,
    precompute_rope_params 16 default_theta_base 5 = Ok (cos, sin) /\
    compute_rope Example.queries cos sin = Ok y /\
    shape y = shape Example.queries.
Proof.
  destruct (compute_rope_rotates_pairs Example.queries 2 4 5 16 5 default_theta_base)
    as (c & s & y & Hp & Hy & Hs & _); [reflexivity|reflexivity|lia|].
  exists c, s, y. repeat split; assumption.
Defined.

(** C3. On an input of shape (batch, num_tokens, d_in) with num_tokens at
    most context_length, [MultiHeadedAttention.forward] returns, entry by
    entry, the pipeline written out below: queries, keys and values are the
    slices of width head_dim = d_out / num_heads of the three projections,
    queries and keys are rotated and values are not, the scores q.k^T at key
    positions after the query position are set to -inf, the softmax over the
    key positions is taken of the scores divided by sqrt(head_dim) (a masked
    score contributes exp(-inf) = 0), the weights multiply the values, and
    the heads side by side go through [out_proj]. *)
Theorem attention_forward_computes
  (self : MultiHeadedAttention.t) (x : Tensor R) (d_in context_length batch num_tokens : nat) :
  MultiHeadedAttention.wf self d_in context_length ->
  shape x = [batch; num_tokens; d_in] ->
  num_tokens <= context_length ->
  exists y,
    MultiHeadedAttention.forward self x = Ok y /\
    shape y = [batch; num_tokens; MultiHeadedAttention.d_out self] /\
    MultiHeadedAttention.head_dim self
    = MultiHeadedAttention.d_out self / MultiHeadedAttention.num_heads self /\
    forall b t c, b < batch -> t < num_tokens -> c < MultiHeadedAttention.d_out self ->
      let hd := MultiHeadedAttention.head_dim self in
      let xs := fun t' k => elem x [b; t'; k] in
      let W_query := Spec.linear (MultiHeadedAttention.W_query self) in
      let W_key := Spec.linear (MultiHeadedAttention.W_key self) in
      let W_value := Spec.linear (MultiHeadedAttention.W_value self) in
      let out_proj := Spec.linear (MultiHeadedAttention.out_proj self) in
      let rope := Spec.rope_rotate default_theta_base hd in
      let q := fun h t' k => rope (fun k' => W_query (xs t') (h * hd + k')) t' k in
      let k_ := fun h t' k => rope (fun k' => W_key (xs t') (h * hd + k')) t' k in
      let v := fun h t' k => W_value (xs t') (h * hd + k) in
      let score := fun h i j => Rsum hd (fun k => (q h i k * k_ h j k)%R) in
      let masked := fun h i j => if i <? j then NegInf else Fin (score h i j) in
      let e := fun h i j => match masked h i j with
                            | NegInf => 0%R
                            | Fin s => exp (s / sqrt (INR hd))
                            end in
      let weight := fun h i j => (e h i j / Rsum num_tokens (e h i))%R in
      let context := fun h i k => Rsum num_tokens (fun j => (weight h i j * v h j k)%R) in
      elem y [b; t; c] = out_proj (fun c' => context (c' / hd) t (c' mod hd)) c.
Proof.
  intros Hwf Hx Hn.
  destruct (MHA_forward_spec self x d_in context_length batch num_tokens Hwf Hx Hn)
    as (y & Ey & Sy & Vy).
  exists y. split; [exact Ey|]. split; [exact Sy|]. split.
  - destruct Hwf as (Hd & Hrest). rewrite Hd.
    assert (Hpos : 0 < MultiHeadedAttention.num_heads self)
      by (repeat apply proj2 in Hrest; exact Hrest).
    rewrite Nat.mul_comm. symmetry. apply Nat.div_mul. lia.
  - intros b t c Hb Ht Hc. cbv zeta. rewrite Vy by assumption.
    unfold Spec.attention. apply spec_linear_ext. intros c' _.
    unfold Spec.concat, Spec.context. apply Rsum_ext. intros j _.
    f_equal. unfold Spec.attn_weight. rewrite xexp_xdiv. f_equal.
    apply Rsum_ext. intros j' _. apply xexp_xdiv.
Qed.

Lemma attention_forward_computes_witness :
  exists y,
    MultiHeadedAttention.forward Example.mha Example.inputs = Ok y /\
    shape y = [2; 4; 8].
Proof.
  destruct (attention_forward_computes Example.mha Example.inputs 8 5 2 4)
    as (y & E & S & _).
  - repeat split; first [reflexivity | lazy; lia].
  - reflexivity.
  - lia.
  - exists y. split; assumption.
Defined.

(** C4. On a tensor whose last dimension is embd_dim, [RMSNorm.forward]
    returns [(x * rsqrt(mean(x^2) + eps)) * weight], the mean taken over the
    last dimension of each token vector alone; nothing is subtracted and no
    shift is added. *)
Theorem RMSNorm_forward_formula (self : RMSNorm.t) (x : Tensor R) (pre : list nat) :
  RMSNorm.wf self ->
  shape x = pre ++ [RMSNorm.embd_dim self] ->
  exists y,
    RMSNorm.forward self x = Ok y /\
    shape y = shape x /\
    forall pi k, valid pre pi -> k < RMSNorm.embd_dim self ->
      let n := RMSNorm.embd_dim self in
      let mean_sq := (Rsum n (fun j => elem x (pi ++ [j]) ^ 2) / INR n)%R in
      elem y (pi ++ [k])
      = ((elem x (pi ++ [k]) * (1 / sqrt (mean_sq + RMSNorm.eps self)))
         * elem (RMSNorm.weight self) [k])%R.
Proof.
  intros Hw Hx.
  destruct (RMSNorm_forward_spec self x pre Hw Hx) as (y & Ey & Sy & Vy).
  exists y. repeat split; [assumption|congruence|].
  intros pi k Hpi Hk. cbv zeta. now rewrite Vy.
Qed.

Lemma RMSNorm_forward_formula_witness :
  exists y,
    RMSNorm.forward Example.rms Example.inputs = Ok y /\
    shape y = shape Example.inputs /\
    forall pi k, valid [2; 4] pi -> k < RMSNorm.embd_dim Example.rms ->
      let n := RMSNorm.embd_dim Example.rms in
      let mean_sq := (Rsum n (fun j => elem Example.inputs (pi ++ [j]) ^ 2) / INR n)%R in
      elem y (pi ++ [k])
      = ((elem Example.inputs (pi ++ [k]) * (1 / sqrt (mean_sq + RMSNorm.eps Example.rms)))
         * elem (RMSNorm.weight Example.rms) [k])%R.
Proof.
  apply (RMSNorm_forward_formula Example.rms Example.inputs [2; 4]); reflexivity.
Defined.

(** C5. [FeedForward.forward] returns [fc3(SiLU(fc1(x)) * fc2(x))] with
    [SiLU(z) = z * sigmoid(z)]; fc1 and fc2 map emb_dim to hidden_dim and fc3
    maps hidden_dim back; the output at a position depends on the input at
    that position only. *)
Theorem FeedForward_forward_formula
  (config : Config) (i1 i2 i3 : LinearInit) (x x' : Tensor R) (pre : list nat) :
  let self := FeedForward.init config i1 i2 i3 in
  shape x = pre ++ [emb_dim config] ->
  shape x' = pre ++ [emb_dim config] ->
  Linear.in_features (FeedForward.fc1 self) = emb_dim config /\
  Linear.out_features (FeedForward.fc1 self) = hidden_dim config /\
  Linear.in_features (FeedForward.fc2 self) = emb_dim config /\
  Linear.out_features (FeedForward.fc2 self) = hidden_dim config /\
  Linear.in_features (FeedForward.fc3 self) = hidden_dim config /\
  Linear.out_features (FeedForward.fc3 self) = emb_dim config /\
  exists y y',
    FeedForward.forward self x = Ok y /\
    FeedForward.forward self x' = Ok y' /\
    shape y = shape x /\
    (forall pi o, valid pre pi -> o < emb_dim config ->
       let v := fun k => elem x (pi ++ [k]) in
       let silu := fun z => (z * (1 / (1 + exp (- z))))%R in
       elem y (pi ++ [o])
       = Spec.linear (FeedForward.fc3 self)
           (fun h => (silu (Spec.linear (FeedForward.fc1 self) v h)
                      * Spec.linear (FeedForward.fc2 self) v h)%R) o) /\
    (forall pi, valid pre pi ->
       (forall k, k < emb_dim config -> elem x (pi ++ [k]) = elem x' (pi ++ [k])) ->
       forall o, o < emb_dim config -> elem y (pi ++ [o]) = elem y' (pi ++ [o])).
Proof.
  intros self Hx Hx'.
  pose proof (FeedForward_init_wf config i1 i2 i3) as Hwf. fold self in Hwf.
  destruct (FeedForward_forward_spec self x pre _ _ Hwf Hx) as (y & Ey & Sy & Vy).
  destruct (FeedForward_forward_spec self x' pre _ _ Hwf Hx') as (y' & Ey' & Sy' & Vy').
  repeat (split; [reflexivity|]).
  exists y, y'. split; [exact Ey|]. split; [exact Ey'|]. split; [congruence|]. split.
  - intros pi o Hpi Ho. cbv zeta. now rewrite Vy.
  - intros pi Hpi Hagree o Ho. rewrite Vy, Vy' by assumption.
    now apply (spec_feed_forward_ext self _ _ _ _ o Hwf).
Qed.

Lemma FeedForward_forward_formula_witness :
  exists y y',
    FeedForward.forward Example.ff Example.inputs = Ok y /\
    FeedForward.forward Example.ff Example.inputs' = Ok y' /\
    shape y = shape Example.inputs.
Proof.
  destruct (FeedForward_forward_formula Example.ExConfig Example.draw Example.draw Example.draw
              Example.inputs Example.inputs' [2; 4] eq_refl eq_refl)
    as (_ & _ & _ & _ & _ & _ & y & y' & E & E' & S & _).
  exists y, y'. repeat split; assumption.
Defined.

(** C6. On an input of shape (batch, num_tokens, emb_dim) with num_tokens
    at most context_length, [TransformerBlock.forward] returns
    [h + ff(norm2(h))] where [h = x + att(norm1(x))]. *)
Theorem TransformerBlock_forward_formula
  (self : TransformerBlock.t) (x : Tensor R) (emb hidden context_length batch num_tokens : nat) :
  TransformerBlock.wf self emb hidden context_length ->
  shape x = [batch; num_tokens; emb] ->
  num_tokens <= context_length ->
  exists y,
    TransformerBlock.forward self x = Ok y /\
    shape y = shape x /\
    forall b t c, b < batch -> t < num_tokens -> c < emb ->
      let xs := fun t' k => elem x [b; t'; k] in
      let att := Spec.attention (TransformerBlock.att self) num_tokens in
      let norm1 := Spec.rms_norm (TransformerBlock.norm1 self) in
      let norm2 := Spec.rms_norm (TransformerBlock.norm2 self) in
      let ff := Spec.feed_forward (TransformerBlock.ff self) in
      let h := fun t' k => (xs t' k + att (fun u => norm1 (xs u)) t' k)%R in
      elem y [b; t; c] = (h t c + ff (norm2 (h t)) c)%R.
Proof.
  intros Hwf Hx Hn.
  destruct (TransformerBlock_forward_spec self x emb hidden context_length batch num_tokens
              Hwf Hx Hn) as (y & Ey & Sy & Vy).
  exists y. repeat split; [assumption|congruence|].
  intros b t c Hb Ht Hc. cbv zeta. rewrite Vy by assumption.
  unfold Spec.block, Spec.hidden.
  destruct Hwf as (_ & _ & Hf & _ & _ & N2 & E2).
  rewrite Rplus_comm. f_equal; [apply Rplus_comm|].
  apply (spec_feed_forward_ext _ emb hidden); [assumption|].
  intros k Hk. apply spec_rms_norm_ext; [|now rewrite E2].
  intros j Hj. apply Rplus_comm.
Qed.

Lemma TransformerBlock_forward_formula_witness :
  exists y,
    TransformerBlock.forward Example.block Example.inputs = Ok y /\
    shape y = shape Example.inputs.
Proof.
  destruct (TransformerBlock_forward_formula Example.block Example.inputs 8 4 5 2 4)
    as (y & E & S & _).
  - repeat split; first [reflexivity | lazy; lia].
  - reflexivity.
  - lia.
  - exists y. split; assumption.
Defined.

(** C7, amended.  [precompute_rope_params] and [compute_rope] raise an
    assertion error exactly when head_dim is odd; the constructor of
    [MultiHeadedAttention], for at least one head, raises an assertion error
    exactly when d_out is not divisible by num_heads or d_out / num_heads is
    odd; and under the shape preconditions every forward function returns. *)
Theorem core_pipeline_errors :
  (forall head_dim theta_base context_length,
     ((exists msg,
         precompute_rope_params head_dim theta_base context_length
         = Raise (AssertionError msg)) <-> head_dim mod 2 = 1) /\
     (head_dim mod 2 = 0 ->
      exists cos sin, precompute_rope_params head_dim theta_base context_length = Ok (cos, sin)))
  /\
  (forall x cos sin batch num_heads seq_len head_dim,
     shape x = [batch; num_heads; seq_len; head_dim] ->
     ((exists msg, compute_rope x cos sin = Raise (AssertionError msg))
      <-> head_dim mod 2 = 1))
  /\
  (forall d_in d_out context_length num_heads iq ik iv io,
     0 < num_heads ->
     ((exists msg,
         MultiHeadedAttention.init d_in d_out context_length num_heads iq ik iv io
         = Raise (AssertionError msg))
      <-> (d_out mod num_heads <> 0 \/ (d_out / num_heads) mod 2 = 1)) /\
     (d_out mod num_heads = 0 -> (d_out / num_heads) mod 2 = 0 ->
      exists self,
        MultiHeadedAttention.init d_in d_out context_length num_heads iq ik iv io = Ok self /\
        MultiHeadedAttention.wf self d_in context_length))
  /\
  (forall self x pre,
     RMSNorm.wf self -> shape x = pre ++ [RMSNorm.embd_dim self] ->
     exists y, RMSNorm.forward self x = Ok y)
  /\
  (forall self x pre emb hidden,
     FeedForward.wf self emb hidden -> shape x = pre ++ [emb] ->
     exists y, FeedForward.forward self x = Ok y)
  /\
  (forall x cos sin batch num_heads seq_len head_dim theta_base context_length,
     shape x = [batch; num_heads; seq_len; head_dim] ->
     precompute_rope_params head_dim theta_base context_length = Ok (cos, sin) ->
     seq_len <= context_length ->
     exists y, compute_rope x cos sin = Ok y)
  /\
  (forall self x d_in context_length batch num_tokens,
     MultiHeadedAttention.wf self d_in context_length ->
     shape x = [batch; num_tokens; d_in] -> num_tokens <= context_length ->
     exists y, MultiHeadedAttention.forward self x = Ok y)
  /\
  (forall self x emb hidden context_length batch num_tokens,
     TransformerBlock.wf self emb hidden context_length ->
     shape x = [batch; num_tokens; emb] -> num_tokens <= context_length ->
     exists y, TransformerBlock.forward self x = Ok y).
Proof.
  repeat apply conj.
  - intros hd theta ctx. split.
    + split.
      * intros [msg H]. destruct (mod2_cases hd) as [E|E]; [|exact E].
        destruct (precompute_rope_params_spec hd theta ctx E) as (c & s & Hp & _).
        congruence.
      * intros H. eexists. now apply precompute_rope_params_odd.
    + intros E. destruct (precompute_rope_params_spec hd theta ctx E) as (c & s & Hp & _).
      eauto.
  - intros x c s b h n hd Hx. split.
    + intros [msg H]. destruct (mod2_cases hd) as [E|E]; [|exact E].
      pose proof (compute_rope_even_af x c s b h n hd Hx E) as Haf.
      rewrite H in Haf. contradiction.
    + intros H. eexists. now apply (compute_rope_odd x c s b h n hd).
  - intros d_in d_out ctx nh iq ik iv io Hn. split.
    + split.
      * intros [msg H].
        destruct (Nat.eq_dec (d_out mod nh) 0) as [Hd|Hd]; [|now left].
        destruct (mod2_cases (d_out / nh)) as [E|E]; [|now right].
        destruct (MHA_init_ok d_in d_out ctx nh iq ik iv io Hn Hd E) as (self & Hs & _).
        congruence.
      * intros [Hd|Ho].
        -- eexists. now apply MHA_init_not_divisible.
        -- destruct (Nat.eq_dec (d_out mod nh) 0) as [Hd|Hd].
           ++ eexists. now apply MHA_init_odd_head.
           ++ eexists. now apply MHA_init_not_divisible.
    + intros Hd E.
      destruct (MHA_init_ok d_in d_out ctx nh iq ik iv io Hn Hd E) as (self & Hs & Hw & _).
      eauto.
  - intros self x pre Hw Hx.
    destruct (RMSNorm_forward_spec self x pre Hw Hx) as (y & Ey & _). eauto.
  - intros self x pre emb hidden Hw Hx.
    destruct (FeedForward_forward_spec self x pre emb hidden Hw Hx) as (y & Ey & _). eauto.
  - intros x c s b h n hd theta ctx Hx Hp Hn.
    destruct (mod2_cases hd) as [E|E].
    + destruct (rope_is4 x c s b h n hd ctx theta _ (is4_self x _ _ _ _ Hx) E Hp Hn)
        as (y & Ey & _). eauto.
    + rewrite precompute_rope_params_odd in Hp by exact E. discriminate.
  - intros self x d_in ctx b n Hw Hx Hn.
    destruct (MHA_forward_spec self x d_in ctx b n Hw Hx Hn) as (y & Ey & _). eauto.
  - intros self x emb hidden ctx b n Hw Hx Hn.
    destruct (TransformerBlock_forward_spec self x emb hidden ctx b n Hw Hx Hn)
      as (y & Ey & _). eauto.
Qed.

Lemma core_pipeline_errors_witness :
  (exists msg,
     MultiHeadedAttention.init 8 6 5 4 Example.draw Example.draw Example.draw Example.draw
     = Raise (AssertionError msg)) /\
  (exists y, TransformerBlock.forward Example.block Example.inputs = Ok y).
Proof.
  destruct core_pipeline_errors as (_ & _ & Hinit & _ & _ & _ & _ & Hblock).
  split.
  - apply (Hinit 8 6 5 4); [lia|]. left. simpl. lia.
  - apply (Hblock Example.block Example.inputs 8 4 5 2 4).
    + repeat split; first [reflexivity | lazy; lia].
    + reflexivity.
    + lia.
Defined.

(** C7 as stated fails: with d_out = 6 and two heads the constructor raises
    an assertion error although 2 divides 6, because head_dim = 3 is odd. *)
Lemma init_asserts_on_odd_head_dim :
  (exists msg,
     MultiHeadedAttention.init 6 6 4 2 Example.draw Example.draw Example.draw Example.draw
     = Raise (AssertionError msg)) /\
  6 mod 2 = 0.
Proof. split; [eexists|]; reflexivity. Qed.

(** C8. Every forward function, run on a store, returns; every storage that
    existed before the call holds the same tensor after it, so the input, the
    parameters and the mask, cos and sin buffers are unchanged (the storage
    [masked_fill_] writes is one the call allocated); and a second call on
    the same handles returns a tensor equal to the first, which is the one
    the pure function computes. *)
Theorem forward_operations_are_pure :
  (forall s self x m xv pre,
     Heap.RMSNorm.load s self = Ok m -> Heap.read_real s x = Ok xv ->
     RMSNorm.wf m -> shape xv = pre ++ [RMSNorm.embd_dim m] ->
     exists y,
       RMSNorm.forward m xv = Ok y /\ Heap.pure_call (Heap.RMSNorm.forward self x) s y)
  /\
  (forall s self x m xv pre emb hidden,
     Heap.FeedForward.load s self = Ok m -> Heap.read_real s x = Ok xv ->
     FeedForward.wf m emb hidden -> shape xv = pre ++ [emb] ->
     exists y,
       FeedForward.forward m xv = Ok y /\
       Heap.pure_call (Heap.FeedForward.forward self x) s y)
  /\
  (forall s x cos sin xv cv sv batch num_heads seq_len head_dim theta_base context_length,
     Heap.read_real s x = Ok xv -> Heap.read_real s cos = Ok cv ->
     Heap.read_real s sin = Ok sv ->
     shape xv = [batch; num_heads; seq_len; head_dim] ->
     precompute_rope_params head_dim theta_base context_length = Ok (cv, sv) ->
     seq_len <= context_length ->
     exists y,
       compute_rope xv cv sv = Ok y /\ Heap.pure_call (Heap.compute_rope x cos sin) s y)
  /\
  (forall s self x m xv d_in context_length batch num_tokens,
     Heap.MultiHeadedAttention.load s self = Ok m -> Heap.read_real s x = Ok xv ->
     MultiHeadedAttention.wf m d_in context_length ->
     shape xv = [batch; num_tokens; d_in] -> num_tokens <= context_length ->
     exists y,
       MultiHeadedAttention.forward m xv = Ok y /\
       Heap.pure_call (Heap.MultiHeadedAttention.forward self x) s y)
  /\
  (forall s self x m xv emb hidden context_length batch num_tokens,
     Heap.TransformerBlock.load s self = Ok m -> Heap.read_real s x = Ok xv ->
     TransformerBlock.wf m emb hidden context_length ->
     shape xv = [batch; num_tokens; emb] -> num_tokens <= context_length ->
     exists y,
       TransformerBlock.forward m xv = Ok y /\
       Heap.pure_call (Heap.TransformerBlock.forward self x) s y)
  /\
  (forall s s' h v,
     Heap.preserved s s' -> Heap.read s h = Ok v -> Heap.read s' h = Ok v).
Proof.
  repeat apply conj.
  - intros s self x m xv pre Hl Hx Hw Hs.
    destruct (RMSNorm_forward_spec m xv pre Hw Hs) as (y & Ey & _).
    exists y. split; [exact Ey|]. apply pure_call_intro. intros e.
    apply (RMSNorm_run (s ++ e) self x m xv y);
      [now apply RMSNorm_load_app|now apply read_real_app|exact Ey].
  - intros s self x m xv pre emb hidden Hl Hx Hw Hs.
    destruct (FeedForward_forward_spec m xv pre emb hidden Hw Hs) as (y & Ey & _).
    exists y. split; [exact Ey|]. apply pure_call_intro. intros e.
    apply (FeedForward_run (s ++ e) self x m xv y);
      [now apply FeedForward_load_app|now apply read_real_app|exact Ey].
  - intros s x c sn xv cv sv b h n hd theta ctx Hx Hc Hs Hsh Hp Hn.
    assert (Hev : hd mod 2 = 0).
    { destruct (mod2_cases hd) as [E|E]; [exact E|].
      rewrite precompute_rope_params_odd in Hp by exact E. discriminate. }
    destruct (rope_is4 xv cv sv b h n hd ctx theta _ (is4_self xv _ _ _ _ Hsh) Hev Hp Hn)
      as (y & Ey & _).
    exists y. split; [exact Ey|]. apply pure_call_intro. intros e.
    apply (compute_rope_run (s ++ e) x c sn xv cv sv y);
      [now apply read_real_app..|exact Ey].
  - intros s self x m xv d_in ctx b n Hl Hx Hw Hs Hn.
    destruct (MHA_forward_spec m xv d_in ctx b n Hw Hs Hn) as (y & Ey & _).
    exists y. split; [exact Ey|]. apply pure_call_intro. intros e.
    apply (MHA_run (s ++ e) self x m xv y);
      [now apply MHA_load_app|now apply read_real_app|exact Ey].
  - intros s self x m xv emb hidden ctx b n Hl Hx Hw Hs Hn.
    destruct (TransformerBlock_forward_spec m xv emb hidden ctx b n Hw Hs Hn) as (y & Ey & _).
    exists y. split; [exact Ey|]. apply pure_call_intro. intros e.
    apply (TransformerBlock_run (s ++ e) self x m xv y);
      [|now apply read_real_app|exact Ey].
    revert Hl. unfold Heap.TransformerBlock.load. intros Hl. peel Hl.
    rewrite (MHA_load_app s e _ _ E), (FeedForward_load_app s e _ _ E0),
      (RMSNorm_load_app s e _ _ E1), (RMSNorm_load_app s e _ _ E2). exact Hl.
  - exact preserved_read.
Qed.

Lemma forward_operations_are_pure_witness :
  exists y,
    MultiHeadedAttention.forward Example.mha Example.inputs = Ok y /\
    Heap.pure_call
      (Heap.MultiHeadedAttention.forward Example.heap_mha (Example.at_ 0)) Example.store y.
Proof.
  destruct forward_operations_are_pure as (_ & _ & _ & Hmha & _).
  apply (Hmha Example.store Example.heap_mha (Example.at_ 0) Example.mha Example.inputs 8 5 2 4).
  - reflexivity.
  - reflexivity.
  - repeat split; first [reflexivity | lazy; lia].
  - reflexivity.
  - lia.
Defined.




(** C10. Under the preconditions of C2, [compute_rope] preserves the
    Euclidean norm of every vector of length head_dim. *)
Theorem compute_rope_preserves_norm
  (x : Tensor R) (batch num_heads seq_len head_dim context_length : nat) (theta_base : R) :
  shape x = [batch; num_heads; seq_len; head_dim] ->
  head_dim mod 2 = 0 ->
  seq_len <= context_length ->
  exists cos sin y,
    precompute_rope_params head_dim theta_base context_length = Ok (cos, sin) /\
    compute_rope x cos sin = Ok y /\
    forall i p m, i < batch -> p < num_heads -> m < seq_len ->
      sqrt (Rsum head_dim (fun k => (elem y [i; p; m; k] ^ 2)%R))
      = sqrt (Rsum head_dim (fun k => (elem x [i; p; m; k] ^ 2)%R)).
Proof.
  intros Hx Hev Hle.
  destruct (precompute_rope_params_spec head_dim theta_base context_length Hev)
    as (c & s & Hp & _ & _).
  destruct (rope_is4 x c s _ _ _ _ _ theta_base _ (is4_self x _ _ _ _ Hx) Hev Hp Hle)
    as (y & Ey & Sy & Vy).
  exists c, s, y. repeat split; try assumption.
  intros i p m Hi Hp' Hm. f_equal.
  rewrite <- (rope_rotate_norm theta_base head_dim (fun k => elem x [i; p; m; k]) m Hev).
  apply Rsum_ext. intros k Hk. now rewrite Vy.
Qed.

Lemma compute_rope_preserves_norm_witness :
  exists cos sin y,
    precompute_rope_params 16 default_theta_base 5 = Ok (cos, sin) /\
    compute_rope Example.queries cos sin = Ok y /\
    forall i p m, i < 2 -> p < 4 -> m < 5 ->
      sqrt (Rsum 16 (fun k => (elem y [i; p; m; k] ^ 2)%R))
      = sqrt (Rsum 16 (fun k => (elem Example.queries [i; p; m; k] ^ 2)%R)).
Proof.
  apply (compute_rope_preserves_norm Example.queries 2 4 5 16 5 default_theta_base);
    [reflexivity|reflexivity|lia].
Defined.

(** * Beyond the claims

    Facts for the properties that follow the claims: the whole model, its
    constructor, its size, and further properties of the layers. *)

(** * The token embedding and the stack of blocks *)

Lemma indices_valid (s idx : list nat) : In idx (Torch.indices s) <-> valid s idx.
Proof.
  revert idx. induction s as [|d s IH]; intros idx; simpl.
  - split.
    + intros [<-|[]]. constructor.
    + intros H. inversion H. now left.
  - rewrite in_flat_map. split.
    + intros (i & Hi & Hin). apply in_map_iff in Hin. destruct Hin as (idx' & <- & Hin').
      apply in_seq in Hi. constructor; [lia|]. now apply IH.
    + intros H. inversion H as [|i d' idx' s' Hlt Hrest]; subst.
      exists i. split; [apply in_seq; lia|].
      apply in_map_iff. exists idx'. split; [reflexivity|]. now apply IH.
Qed.

Lemma Embedding_forward_spec (self : Embedding.t) (input : Tensor Z) :
  Embedding.wf self ->
  (forall idx, valid (shape input) idx ->
     (0 <= elem input idx < Z.of_nat (Embedding.num_embeddings self))%Z) ->
  exists y,
    Embedding.forward self input = Ok y /\
    shape y = shape input ++ [Embedding.embedding_dim self] /\
    forall pi k, elem y (pi ++ [k])
                 = elem (Embedding.weight self) [Z.to_nat (elem input pi); k].
Proof.
  intros Hw Hr. unfold Embedding.forward, Torch.embedding. rewrite Hw.
  match goal with |- context [forallb ?f ?l] => assert (E : forallb f l = true) end.
  { apply forallb_forall. intros idx Hin. apply indices_valid in Hin.
    specialize (Hr idx Hin). apply andb_true_iff. split.
    - apply Z.leb_le. lia.
    - apply Z.ltb_lt. lia. }
  rewrite E. eexists. split; [reflexivity|]. split; [reflexivity|].
  intros pi k. cbn [elem]. now rewrite removelast_last, last_last.
Qed.

Lemma Embedding_forward_index_error (self : Embedding.t) (input : Tensor Z) (idx : list nat) :
  Embedding.wf self -> valid (shape input) idx ->
  ~ (0 <= elem input idx < Z.of_nat (Embedding.num_embeddings self))%Z ->
  Embedding.forward self input = Raise IndexError.
Proof.
  intros Hw Hv Hr. unfold Embedding.forward, Torch.embedding. rewrite Hw.
  match goal with |- context [forallb ?f ?l] => destruct (forallb f l) eqn:E end;
    [|reflexivity].
  exfalso. apply Hr. rewrite forallb_forall in E.
  specialize (E idx (proj2 (indices_valid _ _) Hv)).
  apply andb_true_iff in E. destruct E as [E1 E2].
  apply Z.leb_le in E1. apply Z.ltb_lt in E2. lia.
Qed.

Lemma spec_hidden_causal (self : TransformerBlock.t) (emb hidden ctx n t : nat)
  (xs xs' : nat -> nat -> R) :
  TransformerBlock.wf self emb hidden ctx -> t < n ->
  (forall t' k, t' < n -> t' <= t -> k < emb -> xs t' k = xs' t' k) ->
  forall c, c < emb -> Spec.hidden self n xs t c = Spec.hidden self n xs' t c.
Proof.
  intros (Ha & Hd & Hf & N1 & E1 & N2 & E2) Ht H c Hc. unfold Spec.hidden.
  destruct Ha as (_ & _ & _ & _ & _ & _ & _ & _ & _ & _ & Iq & _ & Ik & _ & Iv & _).
  rewrite (H t c) by lia. f_equal.
  apply (attention_causal (TransformerBlock.att self) emb n t _ _ Iq Ik Iv); [|assumption].
  intros t' k Ht' Hle Hk.
  apply spec_rms_norm_ext; [|now rewrite E1].
  intros j Hj. rewrite E1 in Hj. now apply H.
Qed.

Lemma spec_block_causal (self : TransformerBlock.t) (emb hidden ctx n t : nat)
  (xs xs' : nat -> nat -> R) :
  TransformerBlock.wf self emb hidden ctx -> t < n ->
  (forall t' k, t' < n -> t' <= t -> k < emb -> xs t' k = xs' t' k) ->
  forall c, c < emb -> Spec.block self n xs t c = Spec.block self n xs' t c.
Proof.
  intros Hw Ht H c Hc. unfold Spec.block.
  pose proof (spec_hidden_causal self emb hidden ctx n t xs xs' Hw Ht H) as Hh.
  destruct Hw as (_ & _ & Hf & _ & _ & N2 & E2).
  rewrite (Hh c Hc). f_equal.
  apply (spec_feed_forward_ext _ emb hidden); [assumption|].
  intros k Hk. apply spec_rms_norm_ext; [|now rewrite E2].
  intros j Hj. rewrite E2 in Hj. now apply Hh.
Qed.

Lemma block_is3 (self : TransformerBlock.t) (x : Tensor R) (emb hidden ctx b n : nat)
  (f : nat -> nat -> nat -> R) :
  TransformerBlock.wf self emb hidden ctx -> is3 x b n emb f -> n <= ctx ->
  exists y,
    TransformerBlock.forward self x = Ok y /\
    is3 y b n emb (fun i t c => Spec.block self n (f i) t c).
Proof.
  intros Hw [Hs He] Hn.
  destruct (TransformerBlock_forward_spec self x emb hidden ctx b n Hw Hs Hn)
    as (y & Ey & Sy & Vy).
  exists y. split; [exact Ey|]. split; [exact Sy|].
  intros i t c Hi Ht Hc. rewrite Vy by assumption.
  apply (spec_block_causal self emb hidden ctx n t); try assumption.
  intros t' k Ht' _ Hk. now apply He.
Qed.

Lemma sequential_is3 (blocks : list TransformerBlock.t) (x : Tensor R)
  (emb hidden ctx b n : nat) (f : nat -> nat -> nat -> R) :
  Forall (fun blk => TransformerBlock.wf blk emb hidden ctx) blocks ->
  is3 x b n emb f -> n <= ctx ->
  exists y,
    Sequential.forward blocks x = Ok y /\
    is3 y b n emb (fun i => fold_left (fun ys blk => Spec.block blk n ys) blocks (f i)).
Proof.
  intros Hw. revert x f.
  induction Hw as [|blk blocks Hb _ IH]; intros x f Hx Hn; simpl.
  - exists x. split; [reflexivity|]. exact Hx.
  - destruct (block_is3 blk x emb hidden ctx b n f Hb Hx Hn) as (y & Ey & Y).
    rewrite Ey. cbn [bind]. exact (IH y _ Y Hn).
Qed.

Lemma valid2_inv (a b : nat) (idx : list nat) :
  valid [a; b] idx -> exists i j, idx = [i; j] /\ i < a /\ j < b.
Proof.
  intros H. inversion H as [|i a' r1 r2 Hi H1]; subst.
  inversion H1 as [|j b' r3 r4 Hj H2]; subst. inversion H2; subst.
  exists i, j. auto.
Qed.

Lemma Llama2_forward_spec (self : Llama2.t) (in_idx : Tensor Z)
  (vocab emb hidden ctx b n : nat) :
  Llama2.wf self vocab emb hidden ctx ->
  shape in_idx = [b; n] -> n <= ctx ->
  (forall i t, i < b -> t < n -> (0 <= elem in_idx [i; t] < Z.of_nat vocab)%Z) ->
  exists logits,
    Llama2.forward self in_idx = Ok logits /\
    is3 logits b n vocab
      (fun i t v =>
         Spec.linear (Llama2.out_head self)
           (Spec.rms_norm (Llama2.final_norm self)
              (fold_left (fun ys blk => Spec.block blk n ys) (Llama2.trf_blocks self)
                 (fun t' k => elem (Embedding.weight (Llama2.tok_emb self))
                                [Z.to_nat (elem in_idx [i; t']); k]) t)) v).
Proof.
  intros (We & Ne & De & Wb & Wn & En & Wh & Bh & Ih & Oh) Hs Hn Hr.
  unfold Llama2.forward.
  destruct (Embedding_forward_spec (Llama2.tok_emb self) in_idx We) as (e & Ee & Se & Ve).
  { intros idx Hv. rewrite Hs in Hv.
    destruct (valid2_inv b n idx Hv) as (i & t & -> & Hi & Ht).
    rewrite Ne. now apply Hr. }
  rewrite Ee. cbn [bind].
  assert (E3 : is3 e b n emb
                 (fun i t k => elem (Embedding.weight (Llama2.tok_emb self))
                                 [Z.to_nat (elem in_idx [i; t]); k])).
  { split; [now rewrite Se, Hs, De|]. intros i t k _ _ _. exact (Ve [i; t] k). }
  destruct (sequential_is3 (Llama2.trf_blocks self) e emb hidden ctx b n _ Wb E3 Hn)
    as (x1 & Ex1 & X1).
  rewrite Ex1. cbn [bind]. rewrite <- En in X1.
  destruct (rmsnorm_is3 (Llama2.final_norm self) x1 b n _ Wn X1) as (x2 & Ex2 & X2).
  rewrite Ex2. cbn [bind]. rewrite En, <- Ih in X2.
  destruct (linear_is3 (Llama2.out_head self) x2 b n _ Wh X2) as (lg & El & L).
  rewrite El. cbn [bind]. exists lg. split; [reflexivity|].
  rewrite Oh in L. exact L.
Qed.

Lemma MHA_forward_rank (self : MultiHeadedAttention.t) (x : Tensor R) :
  length (shape x) <> 3 -> MultiHeadedAttention.forward self x = Raise ValueError.
Proof.
  intros H. unfold MultiHeadedAttention.forward.
  destruct (shape x) as [|a [|b [|c [|d s]]]]; try reflexivity.
  simpl in H. lia.
Qed.

Lemma TransformerBlock_forward_rank (self : TransformerBlock.t) (x : Tensor R)
  (pre : list nat) (emb hidden ctx : nat) :
  TransformerBlock.wf self emb hidden ctx ->
  shape x = pre ++ [emb] -> length pre <> 2 ->
  TransformerBlock.forward self x = Raise ValueError.
Proof.
  intros (_ & _ & _ & N1 & E1 & _) Hx Hp. unfold TransformerBlock.forward.
  rewrite <- E1 in Hx.
  destruct (RMSNorm_forward_spec (TransformerBlock.norm1 self) x pre N1 Hx) as (y & Ey & Sy & _).
  rewrite Ey. cbn [bind].
  rewrite MHA_forward_rank; [reflexivity|].
  rewrite Sy, length_app. simpl. lia.
Qed.

Lemma mapM_ok {A B : Type} (f : A -> result B) (P : B -> Prop) (l : list A) :
  (forall a, In a l -> exists b, f a = Ok b /\ P b) ->
  exists bs, mapM f l = Ok bs /\ Forall P bs /\ length bs = length l.
Proof.
  induction l as [|a l IH]; intros H; simpl.
  - exists []. repeat split. constructor.
  - destruct (H a (or_introl eq_refl)) as (b & Eb & Pb).
    destruct IH as (bs & Ebs & Pbs & Lbs); [intros a' Ha'; apply H; now right|].
    rewrite Eb, Ebs. cbn [bind]. exists (b :: bs).
    repeat split; [now constructor|simpl; now rewrite Lbs].
Qed.

Lemma mapM_inv {A B : Type} (f : A -> result B) (l : list A) (bs : list B) :
  mapM f l = Ok bs -> Forall2 (fun a b => f a = Ok b) l bs.
Proof.
  revert bs. induction l as [|a l IH]; intros bs H; simpl in H.
  - injection H as <-. constructor.
  - destruct (f a) as [b|e] eqn:Eb; [|discriminate]. cbn [bind] in H.
    destruct (mapM f l) as [bs'|e] eqn:Ebs; [|discriminate]. cbn [bind] in H.
    injection H as <-. constructor; [assumption|]. now apply IH.
Qed.

Lemma TransformerBlock_init_zero_heads (cfg : Config) (i : TransformerBlock.Init) :
  n_heads cfg = 0 -> TransformerBlock.init cfg i = Raise ZeroDivisionError.
Proof.
  intros H. unfold TransformerBlock.init. rewrite H.
  now rewrite MHA_init_zero_heads.
Qed.

Lemma TransformerBlock_init_not_divisible (cfg : Config) (i : TransformerBlock.Init) :
  0 < n_heads cfg -> emb_dim cfg mod n_heads cfg <> 0 ->
  TransformerBlock.init cfg i
  = Raise (AssertionError "The output dimension (d_out) mus be divisible by n_heads").
Proof.
  intros Hn Hd. unfold TransformerBlock.init.
  now rewrite MHA_init_not_divisible.
Qed.

Lemma TransformerBlock_init_odd_head (cfg : Config) (i : TransformerBlock.Init) :
  0 < n_heads cfg -> emb_dim cfg mod n_heads cfg = 0 ->
  (emb_dim cfg / n_heads cfg) mod 2 = 1 ->
  TransformerBlock.init cfg i = Raise (AssertionError "Embedding dimension must be even").
Proof.
  intros Hn Hd Ho. unfold TransformerBlock.init.
  now rewrite MHA_init_odd_head.
Qed.

Lemma Llama2_init_first_block (cfg : Config) (i : Llama2.Init) (e : exn) :
  0 < n_layers cfg ->
  TransformerBlock.init cfg (Llama2.blocks0 i 0) = Raise e ->
  Llama2.init cfg i = Raise e.
Proof.
  intros Hl He. unfold Llama2.init.
  destruct (n_layers cfg) as [|l]; [lia|]. cbn [seq mapM]. now rewrite He.
Qed.

Lemma Llama2_init_ok (cfg : Config) (i : Llama2.Init) :
  n_layers cfg = 0 \/
  (0 < n_heads cfg /\ emb_dim cfg mod n_heads cfg = 0 /\
   (emb_dim cfg / n_heads cfg) mod 2 = 0) ->
  exists self,
    Llama2.init cfg i = Ok self /\
    Llama2.wf self (vocab_size cfg) (emb_dim cfg) (hidden_dim cfg) (context_length cfg) /\
    length (Llama2.trf_blocks self) = n_layers cfg.
Proof.
  intros H. unfold Llama2.init.
  destruct (mapM_ok (fun l => TransformerBlock.init cfg (Llama2.blocks0 i l))
              (fun blk => TransformerBlock.wf blk (emb_dim cfg) (hidden_dim cfg)
                            (context_length cfg))
              (seq 0 (n_layers cfg))) as (bs & Ebs & Wbs & Lbs).
  { intros l Hl. destruct H as [H|(Hn & Hd & He)].
    - rewrite H in Hl. destruct Hl.
    - now apply TransformerBlock_init_ok. }
  rewrite Ebs. cbn [bind]. eexists. split; [reflexivity|].
  rewrite length_seq in Lbs.
  repeat split; try assumption; try reflexivity.
Qed.

(** * Counting parameters and buffers *)

Lemma list_sum_flat_map {A B : Type} (g : A -> list B) (w : B -> nat) (c : nat) (l : list A) :
  Forall (fun a => list_sum (map w (g a)) = c) l ->
  list_sum (map w (flat_map g l)) = length l * c.
Proof.
  induction 1 as [|a l Ha _ IH]; simpl; [reflexivity|].
  rewrite map_app, list_sum_app, Ha, IH. reflexivity.
Qed.

Lemma list_sum_cons (a : nat) (l : list nat) : list_sum (a :: l) = a + list_sum l.
Proof. reflexivity. Qed.

Lemma MHA_init_inv (d_in d_out ctx nh : nat) (iq ik iv io : LinearInit)
  (self : MultiHeadedAttention.t) :
  MultiHeadedAttention.init d_in d_out ctx nh iq ik iv io = Ok self ->
  MultiHeadedAttention.W_query self = Linear.init d_in d_out false iq /\
  MultiHeadedAttention.W_key self = Linear.init d_in d_out false ik /\
  MultiHeadedAttention.W_value self = Linear.init d_in d_out false iv /\
  MultiHeadedAttention.out_proj self = Linear.init d_out d_out false io /\
  shape (MultiHeadedAttention.mask self) = [ctx; ctx] /\
  shape (MultiHeadedAttention.cos self) = [ctx; d_out / nh] /\
  shape (MultiHeadedAttention.sin self) = [ctx; d_out / nh].
Proof.
  unfold MultiHeadedAttention.init, py_mod, py_floordiv.
  destruct (nh =? 0); [discriminate|]. cbn [bind].
  destruct (d_out mod nh =? 0); [|discriminate]. cbn [py_assert bind].
  unfold Torch.triu. tstep.
  destruct (mod2_cases (d_out / nh)) as [E|E].
  - destruct (precompute_rope_params_spec (d_out / nh) default_theta_base ctx E)
      as (c & s & Hp & [Sc _] & [Ss _]).
    rewrite Hp. cbn [bind]. intros H. injection H as <-.
    repeat split; assumption.
  - rewrite precompute_rope_params_odd by exact E. discriminate.
Qed.

Lemma TransformerBlock_init_counts (cfg : Config) (i : TransformerBlock.Init)
  (self : TransformerBlock.t) :
  TransformerBlock.init cfg i = Ok self ->
  total_params self = (4 * (emb_dim cfg * emb_dim cfg)
     + 3 * (emb_dim cfg * hidden_dim cfg)
     + (if ff_bias cfg then 2 * hidden_dim cfg + emb_dim cfg else 0)
     + 2 * emb_dim cfg) /\ total_buffers self = (context_length cfg * context_length cfg
     + 2 * (context_length cfg * (emb_dim cfg / n_heads cfg))).
Proof.
  unfold TransformerBlock.init.
  destruct (MultiHeadedAttention.init _ _ _ _ _ _ _ _) as [att|e] eqn:Ea; [|discriminate].
  cbn [bind]. intros H. injection H as <-.
  destruct (MHA_init_inv _ _ _ _ _ _ _ _ _ Ea) as (Eq & Ek & Ev & Eo & Sm & Sc & Ss).
  unfold total_params, total_buffers.
  cbn [nn.parameters nn.buffers TransformerBlock_Module MultiHeadedAttention_Module
       FeedForward_Module RMSNorm_Module Linear_Module
       TransformerBlock.att TransformerBlock.ff TransformerBlock.norm1 TransformerBlock.norm2].
  rewrite Eq, Ek, Ev, Eo, ?app_nil_r.
  cbn [Linear.weight Linear.bias Linear.init FeedForward.init FeedForward.fc1
       FeedForward.fc2 FeedForward.fc3 RMSNorm.init RMSNorm.weight app map nn.data
       nn.new_parameter shape Torch.ones].
  rewrite Sm, Sc, Ss.
  split.
  - unfold Torch.ones.
    destruct (ff_bias cfg); cbn [app map nn.data nn.new_parameter shape list_sum
                                  Torch.numel fold_right]; ring.
  - cbn [list_sum Torch.numel fold_right]. ring.
Qed.

Lemma fold_params (ps : list nn.Parameter_) (a g : nat) :
  Forall (fun p => nn.requires_grad p = true) ps ->
  fold_left
    (fun '(total_params, total_grads) param =>
       let param_size := Torch.numel (shape (nn.data param)) in
       let total_params := total_params + param_size in
       if nn.requires_grad param
       then (total_params, total_grads + param_size)
       else (total_params, total_grads))
    ps (a, g)
  = (a + list_sum (map (fun p => Torch.numel (shape (nn.data p))) ps),
     g + list_sum (map (fun p => Torch.numel (shape (nn.data p))) ps)).
Proof.
  intros H. revert a g. induction H as [|p ps Hp _ IH]; intros a g; simpl.
  - now rewrite !Nat.add_0_r.
  - rewrite Hp, IH. f_equal; lia.
Qed.

Lemma Linear_requires_grad (l : Linear.t) :
  Forall (fun p => nn.requires_grad p = true) (nn.parameters l).
Proof.
  cbn [nn.parameters Linear_Module]. destruct (Linear.bias l); repeat constructor.
Qed.

Lemma Block_requires_grad (blk : TransformerBlock.t) :
  Forall (fun p => nn.requires_grad p = true) (nn.parameters blk).
Proof.
  cbn [nn.parameters TransformerBlock_Module MultiHeadedAttention_Module FeedForward_Module
       RMSNorm_Module].
  repeat (apply Forall_app; split); try apply Linear_requires_grad; repeat constructor.
Qed.

Lemma Llama2_requires_grad (self : Llama2.t) :
  Forall (fun p => nn.requires_grad p = true) (nn.parameters self).
Proof.
  cbn [nn.parameters Llama2_Module Embedding_Module RMSNorm_Module Sequential_Module].
  repeat (apply Forall_app; split); try apply Linear_requires_grad; try (repeat constructor).
  apply Forall_flat_map. apply Forall_forall. intros blk _. apply Block_requires_grad.
Qed.

Lemma Llama2_init_counts (cfg : Config) (i : Llama2.Init) (self : Llama2.t) :
  Llama2.init cfg i = Ok self ->
  total_params self = (vocab_size cfg * emb_dim cfg
   + n_layers cfg
     * (4 * (emb_dim cfg * emb_dim cfg)
        + 3 * (emb_dim cfg * hidden_dim cfg)
        + (if ff_bias cfg then 2 * hidden_dim cfg + emb_dim cfg else 0)
        + 2 * emb_dim cfg)
   + emb_dim cfg
   + vocab_size cfg * emb_dim cfg) /\
  total_buffers self = n_layers cfg * (context_length cfg * context_length cfg
     + 2 * (context_length cfg * (emb_dim cfg / n_heads cfg))).
Proof.
  unfold Llama2.init.
  destruct (mapM _ _) as [bs|e] eqn:Eb; [|discriminate]. cbn [bind].
  intros H. injection H as <-.
  apply mapM_inv in Eb.
  assert (Hc : Forall (fun blk => total_params blk = (4 * (emb_dim cfg * emb_dim cfg)
     + 3 * (emb_dim cfg * hidden_dim cfg)
     + (if ff_bias cfg then 2 * hidden_dim cfg + emb_dim cfg else 0)
     + 2 * emb_dim cfg) /\
                                  total_buffers blk = (context_length cfg * context_length cfg
     + 2 * (context_length cfg * (emb_dim cfg / n_heads cfg)))) bs).
  { clear -Eb. induction Eb as [|l blk ls bs Hb _ IH]; constructor; [|exact IH].
    now apply (TransformerBlock_init_counts cfg (Llama2.blocks0 i l)). }
  assert (Hl : length bs = n_layers cfg).
  { apply Forall2_length in Eb. now rewrite length_seq in Eb. }
  unfold total_params, total_buffers.
  cbn [nn.parameters nn.buffers Llama2_Module Embedding_Module RMSNorm_Module Linear_Module
       Sequential_Module Llama2.tok_emb Llama2.trf_blocks Llama2.final_norm Llama2.out_head
       Linear.init Linear.weight Linear.bias Embedding.init Embedding.weight RMSNorm.init
       RMSNorm.weight app].
  split.
  - rewrite map_cons, map_app, list_sum_cons, list_sum_app.
    rewrite (list_sum_flat_map nn.parameters _ ((4 * (emb_dim cfg * emb_dim cfg)
     + 3 * (emb_dim cfg * hidden_dim cfg)
     + (if ff_bias cfg then 2 * hidden_dim cfg + emb_dim cfg else 0)
     + 2 * emb_dim cfg))).
    2:{ eapply Forall_impl; [|exact Hc]. intros blk [H _]. exact H. }
    rewrite Hl. unfold Torch.ones.
    cbn [map nn.data nn.new_parameter shape list_sum Torch.numel fold_right]. ring.
  - rewrite !app_nil_r.
    rewrite (list_sum_flat_map nn.buffers _ ((context_length cfg * context_length cfg
     + 2 * (context_length cfg * (emb_dim cfg / n_heads cfg))))).
    2:{ eapply Forall_impl; [|exact Hc]. intros blk [_ H]. exact H. }
    now rewrite Hl.
Qed.

(** * Attention weights *)




Section Weights.

Variable self : MultiHeadedAttention.t.
Variable n : nat.
Variable xs : nat -> nat -> R.

Let e (h t j : nat) : R :=
  Torch.xexp (Torch.xdiv (sqrt (INR (MultiHeadedAttention.head_dim self)))
                (Spec.masked_score self xs h t j)).






End Weights.

(** * Sequences longer than the context *)

Lemma bdim_none (a b : nat) : a <> b -> a <> 1 -> b <> 1 -> Torch.bdim a b = None.
Proof.
  intros H1 H2 H3. unfold Torch.bdim.
  destruct (Nat.eqb_spec a b); [contradiction|].
  destruct (Nat.eqb_spec a 1); [contradiction|].
  destruct (Nat.eqb_spec b 1); [contradiction|]. reflexivity.
Qed.

Lemma compute_rope_too_long (x cos sin : Tensor R) (b h s hd c0 : nat) :
  shape x = [b; h; s; hd] -> hd mod 2 = 0 ->
  shape cos = [c0; hd] -> shape sin = [c0; hd] ->
  c0 < s -> c0 <> 1 -> s <> 1 ->
  compute_rope x cos sin = Raise RuntimeError.
Proof.
  intros Hx Hev Hc Hs Hlt Hc1 Hs1.
  destruct x as [sx ex], cos as [sc ec], sin as [ss es]. cbn [shape] in Hx, Hc, Hs. subst.
  pose proof (half_double hd Hev) as Hh. pose proof (half_le hd) as Hl.
  unfold compute_rope, Torch.last_dim. tstep. rewrite Hev.
  unfold Torch.slice_to, Torch.slice_from, Torch.rows_to, Torch.unsqueeze. tstep.
  unfold Torch.slice_to. tstep.
  unfold Torch.cat. tstep. rewrite !Nat.eqb_refl, !andb_false_r. tstep.
  rewrite (Nat.min_r s c0) by lia.
  unfold Torch.mul, Torch.binop, Torch.broadcast_shapes. tstep.
  rewrite bdim_same, (bdim_none s c0) by lia. reflexivity.
Qed.

(** One position against tables without rows: the position is broadcast
    away and the result has no position left. *)
Lemma compute_rope_no_rows (x cos sin : Tensor R) (b h hd : nat) :
  shape x = [b; h; 1; hd] -> hd mod 2 = 0 ->
  shape cos = [0; hd] -> shape sin = [0; hd] ->
  exists y, compute_rope x cos sin = Ok y /\ shape y = [b; h; 0; hd].
Proof.
  intros Hx Hev Hc Hs.
  destruct x as [sx ex], cos as [sc ec], sin as [ss es]. cbn [shape] in Hx, Hc, Hs. subst.
  pose proof (half_double hd Hev) as Hh. pose proof (half_le hd) as Hl.
  unfold compute_rope, Torch.last_dim. tstep. rewrite Hev.
  unfold Torch.slice_to, Torch.slice_from, Torch.rows_to, Torch.unsqueeze. tstep.
  unfold Torch.slice_to. tstep.
  unfold Torch.cat. tstep. rewrite !Nat.eqb_refl, !andb_false_r. tstep.
  change (Nat.min 1 0) with 0.
  rewrite (Nat.min_l (hd / 2) hd) by lia.
  replace (hd - hd / 2) with (hd / 2) by lia. rewrite Hh.
  unfold Torch.mul, Torch.add.
  erewrite binop_ok.
  2:{ unfold Torch.broadcast_shapes. tstep.
      rewrite !bdim_same, !bdim_one_r. reflexivity. }
  tstep.
  erewrite binop_ok.
  2:{ unfold Torch.broadcast_shapes. tstep.
      rewrite !bdim_same, !bdim_one_r. reflexivity. }
  tstep.
  erewrite binop_ok by (tstep; apply broadcast_same).
  tstep. eexists. split; reflexivity.
Qed.

Lemma MHA_forward_no_context
  (self : MultiHeadedAttention.t) (x : Tensor R) (d_in batch : nat) :
  MultiHeadedAttention.wf self d_in 0 ->
  shape x = [batch; 1; d_in] ->
  MultiHeadedAttention.forward self x = Raise RuntimeError.
Proof.
  intros Hwf Hx.
  destruct Hwf as (Hd & Hev & Wq & Wk & Wv & Wo & _ & _ & _ & _
                   & Iq & Oq & Ik & Ok_ & Iv & Ov & Io & Oo & Hmask & Hrope & _).
  unfold MultiHeadedAttention.forward. rewrite Hx. tsimpl.
  pose proof (is3_self x batch 1 d_in Hx) as X.
  destruct (linear_is3 (MultiHeadedAttention.W_query self) x batch 1
              (fun i j k => elem x [i; j; k]) Wq) as (q & Eq & Q);
    [rewrite Iq; exact X|].
  destruct (linear_is3 (MultiHeadedAttention.W_key self) x batch 1
              (fun i j k => elem x [i; j; k]) Wk) as (k & Ek & K);
    [rewrite Ik; exact X|].
  destruct (linear_is3 (MultiHeadedAttention.W_value self) x batch 1
              (fun i j k => elem x [i; j; k]) Wv) as (v & Ev & V);
    [rewrite Iv; exact X|].
  rewrite Oq, Hd in Q. rewrite Ok_, Hd in K. rewrite Ov, Hd in V.
  rewrite Eq, Ek, Ev. tsimpl.
  destruct (view_split q batch 1 _ _ _ Q) as (q1 & Eq1 & Q1).
  destruct (view_split k batch 1 _ _ _ K) as (k1 & Ek1 & K1).
  destruct (view_split v batch 1 _ _ _ V) as (v1 & Ev1 & V1).
  rewrite Eq1, Ek1, Ev1. tsimpl.
  destruct (transpose12_spec q1 _ _ _ _ _ Q1) as (q2 & Eq2 & Q2).
  destruct (transpose12_spec k1 _ _ _ _ _ K1) as (k2 & Ek2 & K2).
  destruct (transpose12_spec v1 _ _ _ _ _ V1) as (v2 & Ev2 & V2).
  rewrite Eq2, Ek2, Ev2. tsimpl.
  destruct (precompute_rope_params_spec (MultiHeadedAttention.head_dim self)
              default_theta_base 0 Hev) as (c & s & Hp & [Sc _] & [Ss _]).
  rewrite Hrope in Hp. injection Hp as <- <-.
  destruct (compute_rope_no_rows k2 _ _ _ _ _ (proj1 K2) Hev Sc Ss) as (k3 & Ek3 & K3).
  destruct (compute_rope_no_rows q2 _ _ _ _ _ (proj1 Q2) Hev Sc Ss) as (q3 & Eq3 & Q3).
  rewrite Ek3, Eq3. tsimpl.
  destruct k3 as [sk ek], q3 as [sq eq], v2 as [sv ev]. destruct V2 as [V2 _].
  cbn [shape] in K3, Q3, V2. subst sk sq sv.
  unfold Torch.triu in Hmask. revert Hmask. tstep. intros Hmask. injection Hmask as <-.
  unfold Torch.transpose. tstep.
  unfold Torch.matmul at 1. tstep. rewrite Nat.eqb_refl, broadcast_same. tstep.
  unfold Torch.slice_to. tstep. unfold Torch.slice_to. tstep.
  unfold Torch.masked_fill. tstep.
  change (Nat.min 1 0) with 0.
  unfold Torch.broadcast_shapes. tstep. rewrite !bdim_same. tstep.
  rewrite !Nat.eqb_refl. tstep.
  unfold Torch.size_last. tstep.
  unfold Torch.matmul, Torch.softmax_last. tstep. reflexivity.
Qed.

Lemma MHA_forward_rope_too_long
  (self : MultiHeadedAttention.t) (x : Tensor R) (d_in context_length batch num_tokens : nat) :
  MultiHeadedAttention.wf self d_in context_length ->
  shape x = [batch; num_tokens; d_in] ->
  context_length < num_tokens ->
  context_length <> 1 ->
  num_tokens <> 1 ->
  MultiHeadedAttention.forward self x = Raise RuntimeError.
Proof.
  intros Hwf Hx Hlt Hc1 Hn1.
  destruct Hwf as (Hd & Hev & Wq & Wk & Wv & Wo & _ & _ & _ & _
                   & Iq & Oq & Ik & Ok_ & Iv & Ov & Io & Oo & Hmask & Hrope & _).
  unfold MultiHeadedAttention.forward. rewrite Hx. tsimpl.
  pose proof (is3_self x batch num_tokens d_in Hx) as X.
  destruct (linear_is3 (MultiHeadedAttention.W_query self) x batch num_tokens
              (fun i j k => elem x [i; j; k]) Wq) as (q & Eq & Q);
    [rewrite Iq; exact X|].
  destruct (linear_is3 (MultiHeadedAttention.W_key self) x batch num_tokens
              (fun i j k => elem x [i; j; k]) Wk) as (k & Ek & K);
    [rewrite Ik; exact X|].
  destruct (linear_is3 (MultiHeadedAttention.W_value self) x batch num_tokens
              (fun i j k => elem x [i; j; k]) Wv) as (v & Ev & V);
    [rewrite Iv; exact X|].
  rewrite Oq, Hd in Q. rewrite Ok_, Hd in K. rewrite Ov, Hd in V.
  rewrite Eq, Ek, Ev. tsimpl.
  destruct (view_split q batch num_tokens _ _ _ Q) as (q1 & Eq1 & Q1).
  destruct (view_split k batch num_tokens _ _ _ K) as (k1 & Ek1 & K1).
  destruct (view_split v batch num_tokens _ _ _ V) as (v1 & Ev1 & V1).
  rewrite Eq1, Ek1, Ev1. tsimpl.
  destruct (transpose12_spec q1 _ _ _ _ _ Q1) as (q2 & Eq2 & Q2).
  destruct (transpose12_spec k1 _ _ _ _ _ K1) as (k2 & Ek2 & K2).
  destruct (transpose12_spec v1 _ _ _ _ _ V1) as (v2 & Ev2 & V2).
  rewrite Eq2, Ek2, Ev2. tsimpl.
  destruct (precompute_rope_params_spec (MultiHeadedAttention.head_dim self)
              default_theta_base context_length Hev) as (c & s & Hp & [Sc _] & [Ss _]).
  rewrite Hrope in Hp. injection Hp as <- <-.
  rewrite (compute_rope_too_long k2 _ _ _ _ _ _ _ (proj1 K2) Hev Sc Ss Hlt Hc1 Hn1).
  reflexivity.
Qed.

(** Too many tokens are rejected by [compute_rope], except for one token
    against an empty context, which is rejected by the product of the
    weights with the values. *)
Lemma MHA_forward_too_long
  (self : MultiHeadedAttention.t) (x : Tensor R) (d_in context_length batch num_tokens : nat) :
  MultiHeadedAttention.wf self d_in context_length ->
  shape x = [batch; num_tokens; d_in] ->
  context_length < num_tokens ->
  context_length <> 1 ->
  MultiHeadedAttention.forward self x = Raise RuntimeError.
Proof.
  intros Hwf Hx Hlt Hc1.
  destruct (Nat.eq_dec num_tokens 1) as [->|Hn1].
  - assert (context_length = 0) as -> by lia.
    now apply (MHA_forward_no_context self x d_in batch).
  - now apply (MHA_forward_rope_too_long self x d_in context_length batch num_tokens).
Qed.

(** * Rotated dot products *)





(** * Mean squares *)





(** * Feature sizes *)

Lemma broadcast_last (pre : list nat) (k d : nat) :
  Torch.broadcast_shapes (pre ++ [k]) [d]
  = option_map (fun r => pre ++ [r]) (Torch.bdim k d).
Proof.
  unfold Torch.broadcast_shapes. rewrite rev_unit. simpl.
  rewrite bshape_rev_nil_r. destruct (Torch.bdim k d); simpl; [|reflexivity].
  now rewrite rev_involutive.
Qed.

(** * A context of one position *)

Lemma mask_bool_single (n : nat) (mask : Tensor R) :
  Torch.triu (Torch.ones [1; 1]) 1 = Ok mask -> 1 <= n ->
  exists mb,
    (m0 <- Torch.slice_to 0 n (Torch.bool_ mask) ;; Torch.slice_to 1 n m0) = Ok mb /\
    is2 mb 1 1 (fun _ _ => false).
Proof.
  intros Hm Hn. unfold Torch.triu in Hm. revert Hm. tstep. intros Hm.
  injection Hm as <-. unfold Torch.slice_to. tstep. unfold Torch.slice_to. tstep.
  rewrite Nat.min_r by assumption.
  eexists. split; [reflexivity|]. split; [reflexivity|].
  intros t j Ht Hj. tstep.
  replace t with 0 by lia. replace j with 0 by lia. tstep.
  destruct (Req_dec_T _ _) as [E|E]; [reflexivity|lra].
Qed.

Lemma masked_fill_unit_mask (x : Tensor R) (mb : Tensor bool) (v : xreal) (a b c d : nat)
  (f : nat -> nat -> nat -> nat -> R) (g : nat -> nat -> bool) :
  is4 x a b c d f -> is2 mb 1 1 g ->
  exists y,
    Torch.masked_fill x mb v = Ok y /\
    is4 y a b c d (fun i j k l => if g 0 0 then v else Fin (f i j k l)).
Proof.
  intros Hx Hm. open_is Hx. open_is Hm. unfold Torch.masked_fill. tstep.
  unfold Torch.broadcast_shapes. tstep. rewrite !bdim_one_r. tstep.
  rewrite !Nat.eqb_refl. tstep.
  eexists. split; [reflexivity|]. split; [reflexivity|].
  intros i j k l Hi Hj Hk Hl. tstep. unfold Torch.bidx. tstep.
  rewrite He, He0 by lia. reflexivity.
Qed.

(** * Errors of the first block *)

Lemma Sequential_forward_first (blk : TransformerBlock.t) (rest : list TransformerBlock.t)
  (x : Tensor R) (e : exn) :
  TransformerBlock.forward blk x = Raise e ->
  Sequential.forward (blk :: rest) x = Raise e.
Proof. intros H. simpl. now rewrite H. Qed.

Lemma TransformerBlock_forward_too_long (self : TransformerBlock.t) (x : Tensor R)
  (emb hidden ctx b n : nat) :
  TransformerBlock.wf self emb hidden ctx ->
  shape x = [b; n; emb] -> ctx < n -> ctx <> 1 ->
  TransformerBlock.forward self x = Raise RuntimeError.
Proof.
  intros (Ha & _ & _ & N1 & E1 & _) Hx Hlt Hc. unfold TransformerBlock.forward.
  destruct (RMSNorm_forward_spec (TransformerBlock.norm1 self) x [b; n] N1) as (y & Ey & Sy & _);
    [now rewrite E1|].
  rewrite Ey. cbn [bind]. rewrite E1 in Sy.
  now rewrite (MHA_forward_too_long (TransformerBlock.att self) y emb ctx b n Ha Sy Hlt Hc).
Qed.

(** Decide that an example module has the shapes its constructor gives. *)
Ltac example_wf := repeat split; repeat constructor; first [reflexivity | lazy; lia].

(** * The model on the store *)

Lemma TransformerBlock_load_app (s e : Heap.store) (self : Heap.TransformerBlock.t)
  (m : TransformerBlock.t) :
  Heap.TransformerBlock.load s self = Ok m ->
  Heap.TransformerBlock.load (s ++ e) self = Ok m.
Proof.
  unfold Heap.TransformerBlock.load. intros H. peel H.
  rewrite (MHA_load_app s e _ _ E), (FeedForward_load_app s e _ _ E0),
    (RMSNorm_load_app s e _ _ E1), (RMSNorm_load_app s e _ _ E2). exact H.
Qed.

Lemma blocks_load_app (s e : Heap.store) (selfs : list Heap.TransformerBlock.t)
  (ms : list TransformerBlock.t) :
  mapM (Heap.TransformerBlock.load s) selfs = Ok ms ->
  mapM (Heap.TransformerBlock.load (s ++ e)) selfs = Ok ms.
Proof.
  revert ms. induction selfs as [|b bs IH]; intros ms H; simpl in *; [exact H|].
  peel H. rewrite (TransformerBlock_load_app s e _ _ E), (IH _ eq_refl). exact H.
Qed.

Lemma Embedding_load_app (s e : Heap.store) (self : HeapModel.Embedding.t) (m : Embedding.t) :
  HeapModel.Embedding.load s self = Ok m -> HeapModel.Embedding.load (s ++ e) self = Ok m.
Proof.
  unfold HeapModel.Embedding.load. intros H. peel H.
  rewrite (read_real_app s e _ _ E). exact H.
Qed.

Lemma Llama2_load_app (s e : Heap.store) (self : HeapModel.Llama2.t) (m : Llama2.t) :
  HeapModel.Llama2.load s self = Ok m -> HeapModel.Llama2.load (s ++ e) self = Ok m.
Proof.
  unfold HeapModel.Llama2.load. intros H. peel H.
  rewrite (Embedding_load_app s e _ _ E), (blocks_load_app s e _ _ E0),
    (RMSNorm_load_app s e _ _ E1), (Linear_load_app s e _ _ E2). exact H.
Qed.

Lemma Embedding_run (s : Heap.store) (self : HeapModel.Embedding.t) (input : Tensor Z)
  (m : Embedding.t) (yv : Tensor R) :
  HeapModel.Embedding.load s self = Ok m ->
  Embedding.forward m input = Ok yv ->
  HeapModel.Embedding.forward self input s
  = Ok (Heap.mkHandle (length s) [], s ++ [Heap.DReal yv]).
Proof.
  unfold HeapModel.Embedding.load, Embedding.forward. intros Hl Hy.
  peel Hl. injection Hl as <-. cbn [Embedding.weight] in Hy.
  unfold HeapModel.Embedding.forward, Heap.hbind, Heap.get_real, Heap.lift, Heap.alloc.
  now rewrite E, Hy.
Qed.

Lemma Sequential_run (selfs : list Heap.TransformerBlock.t) :
  forall (s : Heap.store) (x : Heap.handle) (ms : list TransformerBlock.t)
         (xv yv : Tensor R),
    mapM (Heap.TransformerBlock.load s) selfs = Ok ms ->
    Heap.read_real s x = Ok xv ->
    Sequential.forward ms xv = Ok yv ->
    exists h ext,
      HeapModel.Sequential.forward selfs x s = Ok (h, s ++ ext) /\
      Heap.read_real (s ++ ext) h = Ok yv.
Proof.
  induction selfs as [|b bs IH]; intros s x ms xv yv Hl Hx Hy; simpl in Hl.
  - injection Hl as <-. simpl in Hy. injection Hy as <-.
    exists x, []. rewrite app_nil_r. split; [reflexivity|exact Hx].
  - peel Hl. injection Hl as <-. simpl in Hy. peel Hy.
    destruct (TransformerBlock_run s b x _ xv _ E Hx E1) as (h1 & e1 & R1 & P1).
    destruct (IH (s ++ e1) h1 _ _ yv (blocks_load_app s e1 _ _ E0) P1 Hy)
      as (h2 & e2 & R2 & P2).
    exists h2, (e1 ++ e2). cbn [HeapModel.Sequential.forward]. unfold Heap.hbind.
    rewrite R1, app_assoc. split; assumption.
Qed.

Lemma Llama2_run (s : Heap.store) (self : HeapModel.Llama2.t) (in_idx : Tensor Z)
  (m : Llama2.t) (yv : Tensor R) :
  HeapModel.Llama2.load s self = Ok m ->
  Llama2.forward m in_idx = Ok yv ->
  exists h ext,
    HeapModel.Llama2.forward self in_idx s = Ok (h, s ++ ext) /\
    Heap.read_real (s ++ ext) h = Ok yv.
Proof.
  unfold HeapModel.Llama2.load, Llama2.forward. intros Hl Hy.
  peel Hl. injection Hl as <-.
  cbn [Llama2.tok_emb Llama2.trf_blocks Llama2.final_norm Llama2.out_head] in Hy.
  peel Hy. injection Hy as <-.
  unfold HeapModel.Llama2.forward, Heap.hbind, Heap.ret. cbv zeta.
  rewrite (Embedding_run s _ in_idx _ _ E E3).
  destruct (Sequential_run _ _ (Heap.mkHandle (length s) []) _ a3 a4
              (blocks_load_app s [Heap.DReal a3] _ _ E0) (read_real_new _ _) E4)
    as (h1 & e1 & R1 & P1).
  rewrite R1.
  destruct (RMSNorm_run _ (HeapModel.Llama2.final_norm self) h1 _ a4 _
              (RMSNorm_load_app _ e1 _ _ (RMSNorm_load_app s [Heap.DReal a3] _ _ E1))
              P1 E5) as (h2 & e2 & R2 & P2).
  rewrite R2.
  rewrite (Linear_run _ (HeapModel.Llama2.out_head self) h2 _ a5 _
             (Linear_load_app _ e2 _ _
                (Linear_load_app _ e1 _ _ (Linear_load_app s [Heap.DReal a3] _ _ E2)))
             P2 E6).
  exists (Heap.mkHandle (length (((s ++ [Heap.DReal a3]) ++ e1) ++ e2)) []),
    ([Heap.DReal a3] ++ e1 ++ e2 ++ [Heap.DReal a6]).
  split.
  - f_equal. f_equal. now rewrite <- !app_assoc.
  - rewrite !app_assoc. apply read_real_new.
Qed.

(** * The block and the model over floats *)

Lemma float_mean_last_keepdim_app (dtype : Torch.dtype) (x : Tensor Float.t)
  (pre : list nat) (d : nat) :
  shape x = pre ++ [d] ->
  Float.mean_last_keepdim dtype x =
  mkTensor (pre ++ [1])
    (fun idx => Float.div dtype
                  (Float.sum dtype d (fun j => elem x (Torch.set_last idx j)))
                  (Float.Num (INR d))).
Proof.
  intros H. unfold Float.mean_last_keepdim. rewrite H.
  rewrite last_last, removelast_last.
  destruct (pre ++ [d]) eqn:E; [|reflexivity].
  now destruct pre.
Qed.

Lemma entry_rms_norm_ext (self : Float.RMSNorm.t) (v v' : nat -> Float.t) (k : nat) :
  (forall j, j < Float.RMSNorm.embd_dim self -> v j = v' j) ->
  k < Float.RMSNorm.embd_dim self ->
  Float.Entry.rms_norm self v k = Float.Entry.rms_norm self v' k.
Proof.
  intros H Hk. unfold Float.Entry.rms_norm. rewrite (H k Hk).
  do 5 f_equal. apply Fsum_ext. intros j Hj. now rewrite H.
Qed.

Lemma float_rmsnorm_spec (self : Float.RMSNorm.t) (x : Tensor Float.t) (pre : list nat) :
  Float.RMSNorm.wf self ->
  shape x = pre ++ [Float.RMSNorm.embd_dim self] ->
  exists y,
    Float.RMSNorm.forward self x = Ok y /\
    shape y = pre ++ [Float.RMSNorm.embd_dim self] /\
    forall pi k, valid pre pi -> k < Float.RMSNorm.embd_dim self ->
      elem y (pi ++ [k]) = Float.Entry.rms_norm self (fun j => elem x (pi ++ [j])) k.
Proof.
  intros Hw Hx. unfold Float.RMSNorm.wf in Hw. unfold Float.Entry.rms_norm.
  set (d := Float.RMSNorm.embd_dim self) in *.
  unfold Float.RMSNorm.forward.
  rewrite (float_mean_last_keepdim_app _ _ pre d) by exact Hx.
  erewrite binop_ok by (simpl; rewrite Hx; apply broadcast_keepdim).
  cbn [bind].
  erewrite binop_ok by (simpl; rewrite Hw; apply broadcast_vector).
  cbn [bind]. eexists. split; [reflexivity|]. split; [reflexivity|].
  intros pi k Hpi Hk.
  cbn [elem shape Torch.map].
  rewrite Hx, Hw.
  rewrite !bidx_full, bidx_keepdim, bidx_vector by assumption.
  do 5 f_equal.
  apply Fsum_ext. intros j _. now rewrite set_last_app.
Qed.

Lemma float_rmsnorm_is3 (self : Float.RMSNorm.t) (x : Tensor Float.t) (b n : nat)
  (f : nat -> nat -> nat -> Float.t) :
  Float.RMSNorm.wf self -> is3 x b n (Float.RMSNorm.embd_dim self) f ->
  exists y,
    Float.RMSNorm.forward self x = Ok y /\
    is3 y b n (Float.RMSNorm.embd_dim self)
      (fun i t k => Float.Entry.rms_norm self (f i t) k).
Proof.
  intros Hw [Hs He].
  destruct (float_rmsnorm_spec self x [b; n] Hw Hs) as (y & E & S & V).
  exists y. split; [exact E|]. split; [exact S|].
  intros i t k Hi Ht Hk. specialize (V [i; t] k (valid2 b n i t Hi Ht) Hk).
  cbn [app] in V. rewrite V.
  apply entry_rms_norm_ext; [|assumption]. intros j Hj. now apply He.
Qed.

Lemma entry_feed_forward_ext (self : Float.FeedForward.t) (emb hidden : nat)
  (v v' : nat -> Float.t) (o : nat) :
  Float.FeedForward.wf self emb hidden ->
  (forall k, k < emb -> v k = v' k) ->
  Float.Entry.feed_forward self v o = Float.Entry.feed_forward self v' o.
Proof.
  intros (W1 & W2 & W3 & I1 & O1 & I2 & O2 & I3 & O3) H. unfold Float.Entry.feed_forward.
  apply entry_linear_ext. intros h Hh.
  rewrite (entry_linear_ext (Float.FeedForward.fc1 self) v v') by (rewrite I1; exact H).
  rewrite (entry_linear_ext (Float.FeedForward.fc2 self) v v') by (rewrite I2; exact H).
  reflexivity.
Qed.

Lemma float_ff_spec (self : Float.FeedForward.t) (x : Tensor Float.t) (pre : list nat)
  (emb hidden : nat) :
  Float.FeedForward.wf self emb hidden ->
  shape x = pre ++ [emb] ->
  exists y,
    Float.FeedForward.forward self x = Ok y /\
    shape y = pre ++ [emb] /\
    forall pi o, valid pre pi -> o < emb ->
      elem y (pi ++ [o]) = Float.Entry.feed_forward self (fun k => elem x (pi ++ [k])) o.
Proof.
  intros (W1 & W2 & W3 & I1 & O1 & I2 & O2 & I3 & O3) Hx.
  unfold Float.FeedForward.forward, Float.Entry.feed_forward.
  destruct (float_linear_spec (Float.FeedForward.fc1 self) x pre W1)
    as (y1 & E1 & S1 & V1); [now rewrite I1|].
  destruct (float_linear_spec (Float.FeedForward.fc2 self) x pre W2)
    as (y2 & E2 & S2 & V2); [now rewrite I2|].
  rewrite E1, E2. cbn [bind].
  erewrite binop_ok by (simpl; rewrite S1, S2, O1, O2; apply broadcast_same).
  cbn [bind].
  match goal with |- context [Float.Linear.forward _ ?m] => set (g := m) end.
  destruct (float_linear_spec (Float.FeedForward.fc3 self) g pre W3)
    as (y3 & E3 & S3 & V3); [now rewrite I3|].
  exists y3. split; [exact E3|]. split; [now rewrite S3, O3|].
  intros pi o Hpi Ho. rewrite V3 by (rewrite ?O3; assumption).
  apply entry_linear_ext. intros k Hk. rewrite I3 in Hk.
  subst g. cbn [elem shape Torch.map].
  rewrite S1, S2, O1, O2, !bidx_full by assumption.
  rewrite V1, V2 by (rewrite ?O1, ?O2; assumption). reflexivity.
Qed.

Lemma float_ff_is3 (self : Float.FeedForward.t) (x : Tensor Float.t) (b n emb hidden : nat)
  (f : nat -> nat -> nat -> Float.t) :
  Float.FeedForward.wf self emb hidden -> is3 x b n emb f ->
  exists y,
    Float.FeedForward.forward self x = Ok y /\
    is3 y b n emb (fun i t o => Float.Entry.feed_forward self (f i t) o).
Proof.
  intros Hw [Hs He].
  destruct (float_ff_spec self x [b; n] emb hidden Hw Hs) as (y & E & S & V).
  exists y. split; [exact E|]. split; [exact S|].
  intros i t o Hi Ht Ho. specialize (V [i; t] o (valid2 b n i t Hi Ht) Ho).
  cbn [app] in V. rewrite V.
  apply (entry_feed_forward_ext self emb hidden); [assumption|].
  intros k Hk. now apply He.
Qed.

Lemma float_add_is3 (dtype : Torch.dtype) (x y : Tensor Float.t) (a b c : nat)
  (f g : nat -> nat -> nat -> Float.t) :
  is3 x a b c f -> is3 y a b c g ->
  exists z,
    Torch.binop (Float.add dtype) x y = Ok z /\
    is3 z a b c (fun i j k => Float.add dtype (f i j k) (g i j k)).
Proof.
  intros [Sx Ex] [Sy Ey].
  erewrite binop_ok by (rewrite Sx, Sy; apply broadcast_same).
  eexists. split; [reflexivity|]. split; [reflexivity|].
  intros i j k Hi Hj Hk. tsimpl. rewrite Sx, Sy.
  rewrite !bidx_valid by (repeat constructor; assumption).
  now rewrite Ex, Ey.
Qed.

(** Inputs that agree at every position give the same attention. *)
Lemma entry_attention_ext (self : Float.MultiHeadedAttention.t) (d_in ctx n t c : nat)
  (xs xs' : nat -> nat -> Float.t) :
  Float.MultiHeadedAttention.wf self d_in ctx -> t < n ->
  (forall t' k, t' < n -> k < d_in -> xs t' k = xs' t' k) ->
  Float.Entry.attention self n xs t c = Float.Entry.attention self n xs' t c.
Proof.
  intros Hwf Ht H.
  destruct Hwf as (_ & _ & _ & _ & _ & _ & _ & _ & _ & _ & Iq & _ & Ik & _ & Iv & _ & Io & _).
  apply (entry_attention_causal self d_in n t n xs xs' Iq Ik Iv Io); try assumption.
  - intros t' k Ht' _ Hk. now apply H.
  - lia.
  - intros j c' Hj Hnj. lia.
Qed.

Lemma float_mha_is3 (self : Float.MultiHeadedAttention.t) (x : Tensor Float.t)
  (d_in ctx b n : nat) (f : nat -> nat -> nat -> Float.t) :
  Float.MultiHeadedAttention.wf self d_in ctx ->
  is3 x b n d_in f -> n <= ctx ->
  exists y,
    Float.MultiHeadedAttention.forward self x = Ok y /\
    is3 y b n (Float.MultiHeadedAttention.d_out self)
      (fun i t c => Float.Entry.attention self n (f i) t c).
Proof.
  intros Hwf [Hs He] Hn.
  destruct (float_MHA_forward_spec self x d_in ctx b n Hwf Hs Hn) as (y & Ey & Sy & Vy).
  exists y. split; [exact Ey|]. split; [exact Sy|].
  intros i t c Hi Ht Hc. rewrite Vy by assumption.
  apply (entry_attention_ext self d_in ctx); [assumption..|].
  intros t' k Ht' Hk. now apply He.
Qed.

Lemma float_block_spec (self : Float.TransformerBlock.t) (x : Tensor Float.t)
  (emb hidden ctx b n : nat) :
  Float.TransformerBlock.wf self emb hidden ctx ->
  shape x = [b; n; emb] -> n <= ctx ->
  exists y,
    Float.TransformerBlock.forward self x = Ok y /\
    is3 y b n emb
      (fun i t c => Float.Entry.block self n (fun t' k => elem x [i; t'; k]) t c).
Proof.
  intros (Ha & Hd & Hf & N1 & E1 & N2 & E2) Hx Hn.
  unfold Float.TransformerBlock.forward.
  pose proof (is3_self x b n emb Hx) as X.
  destruct (float_rmsnorm_is3 (Float.TransformerBlock.norm1 self) x b n
              (fun i j k => elem x [i; j; k]) N1) as (x1 & Ex1 & X1);
    [rewrite E1; exact X|].
  rewrite E1 in X1. rewrite Ex1. cbn [bind].
  destruct (float_mha_is3 (Float.TransformerBlock.att self) x1 emb ctx b n _ Ha X1 Hn)
    as (a & Ea & A).
  rewrite Hd in A. rewrite Ea. cbn [bind].
  destruct (float_add_is3 (Float.TransformerBlock.dtype self) a x b n emb _ _ A X)
    as (h & Eh & H).
  rewrite Eh. cbn [bind].
  rewrite <- E2 in H.
  destruct (float_rmsnorm_is3 (Float.TransformerBlock.norm2 self) h b n _ N2 H)
    as (h1 & Eh1 & H1).
  rewrite E2 in H1, H. rewrite Eh1. cbn [bind].
  destruct (float_ff_is3 (Float.TransformerBlock.ff self) h1 b n emb hidden _ Hf H1)
    as (g & Eg & G).
  rewrite Eg. cbn [bind].
  destruct (float_add_is3 (Float.TransformerBlock.dtype self) g h b n emb _ _ G H)
    as (y & Ey & Y).
  rewrite Ey. cbn [bind].
  exists y. split; [reflexivity|]. exact Y.
Qed.

(** * The block over floats looks backwards only *)

Section FloatBlockCausality.

Variable self : Float.TransformerBlock.t.
Variables emb hidden ctx n i : nat.
Variables xs xs' : nat -> nat -> Float.t.
Hypothesis Hw : Float.TransformerBlock.wf self emb hidden ctx.
Hypothesis agree : forall t k, t < n -> t <= i -> k < emb -> xs t k = xs' t k.
Hypothesis later_finite : forall j c, j < n -> i < j -> c < emb ->
  Float.is_finite
    (Float.Entry.linear (Float.MultiHeadedAttention.W_value (Float.TransformerBlock.att self))
       (Float.Entry.rms_norm (Float.TransformerBlock.norm1 self) (xs j)) c) /\
  Float.is_finite
    (Float.Entry.linear (Float.MultiHeadedAttention.W_value (Float.TransformerBlock.att self))
       (Float.Entry.rms_norm (Float.TransformerBlock.norm1 self) (xs' j)) c).

Lemma entry_hidden_causal (t c : nat) :
  t < n -> t <= i -> c < emb ->
  Float.Entry.hidden self n xs t c = Float.Entry.hidden self n xs' t c.
Proof.
  intros Ht Hti Hc. destruct Hw as (Ha & Hd & _ & _ & E1 & _).
  unfold Float.Entry.hidden. rewrite (agree t c Ht Hti Hc). f_equal.
  destruct Ha as (_ & _ & _ & _ & _ & _ & _ & _ & _ & _ & Iq & _ & Ik & _ & Iv & _ & Io & _).
  apply (entry_attention_causal _ emb n t i _ _ Iq Ik Iv Io); try assumption.
  - intros t' k Ht' Hle Hk. apply entry_rms_norm_ext; rewrite E1; [|assumption].
    intros j Hj. now apply agree.
  - intros j c' Hj Hij Hc'. rewrite Hd in Hc'. now apply later_finite.
Qed.

Lemma entry_block_causal (t c : nat) :
  t < n -> t <= i -> c < emb ->
  Float.Entry.block self n xs t c = Float.Entry.block self n xs' t c.
Proof.
  intros Ht Hti Hc. destruct Hw as (_ & _ & Hf & _ & _ & _ & E2).
  unfold Float.Entry.block. rewrite (entry_hidden_causal t c Ht Hti Hc). f_equal.
  apply (entry_feed_forward_ext _ emb hidden); [assumption|].
  intros k Hk. apply entry_rms_norm_ext; rewrite E2; [|assumption].
  intros j Hj. now apply entry_hidden_causal.
Qed.

End FloatBlockCausality.

Lemma float_block_causal
  (self : Float.TransformerBlock.t) (x x' xn xn' v v' : Tensor Float.t)
  (emb_dim hidden_dim context_length batch num_tokens b i : nat) :
  Float.TransformerBlock.wf self emb_dim hidden_dim context_length ->
  shape x = [batch; num_tokens; emb_dim] ->
  shape x' = [batch; num_tokens; emb_dim] ->
  num_tokens <= context_length ->
  b < batch ->
  (forall t k, t < num_tokens -> t <= i -> k < emb_dim ->
     elem x [b; t; k] = elem x' [b; t; k]) ->
  Float.RMSNorm.forward (Float.TransformerBlock.norm1 self) x = Ok xn ->
  Float.RMSNorm.forward (Float.TransformerBlock.norm1 self) x' = Ok xn' ->
  Float.Linear.forward
    (Float.MultiHeadedAttention.W_value (Float.TransformerBlock.att self)) xn = Ok v ->
  Float.Linear.forward
    (Float.MultiHeadedAttention.W_value (Float.TransformerBlock.att self)) xn' = Ok v' ->
  (forall t c, t < num_tokens -> i < t -> c < emb_dim ->
     Float.is_finite (elem v [b; t; c]) /\ Float.is_finite (elem v' [b; t; c])) ->
  exists y y',
    Float.TransformerBlock.forward self x = Ok y /\
    Float.TransformerBlock.forward self x' = Ok y' /\
    shape y = [batch; num_tokens; emb_dim] /\
    shape y' = [batch; num_tokens; emb_dim] /\
    forall t c, t < num_tokens -> t <= i -> c < emb_dim ->
      elem y [b; t; c] = elem y' [b; t; c].
Proof.
  intros Hw Hx Hx' Hn Hb Hagree Hxn Hxn' Hv Hv' Hfin.
  destruct (float_block_spec self x emb_dim hidden_dim context_length batch num_tokens
              Hw Hx Hn) as (y & Ey & Sy & Vy).
  destruct (float_block_spec self x' emb_dim hidden_dim context_length batch num_tokens
              Hw Hx' Hn) as (y' & Ey' & Sy' & Vy').
  exists y, y'. repeat split; try assumption.
  intros t c Ht Hti Hc. rewrite Vy, Vy' by assumption.
  pose proof Hw as (Ha & Hd & _ & N1 & E1 & _).
  destruct Ha as (_ & _ & _ & _ & Wv & _ & _ & _ & _ & _ & _ & _ & _ & _ & Iv & Ov & _).
  destruct (float_rmsnorm_is3 (Float.TransformerBlock.norm1 self) x batch num_tokens
              (fun i j k => elem x [i; j; k]) N1) as (x1 & Ex1 & X1);
    [rewrite E1; now apply is3_self|].
  destruct (float_rmsnorm_is3 (Float.TransformerBlock.norm1 self) x' batch num_tokens
              (fun i j k => elem x' [i; j; k]) N1) as (x1' & Ex1' & X1');
    [rewrite E1; now apply is3_self|].
  rewrite Hxn in Ex1. injection Ex1 as <-. rewrite Hxn' in Ex1'. injection Ex1' as <-.
  rewrite E1, <- Iv in X1, X1'.
  destruct (float_linear_is3 _ xn batch num_tokens _ Wv X1) as (w & Ew & _ & W).
  destruct (float_linear_is3 _ xn' batch num_tokens _ Wv X1') as (w' & Ew' & _ & W').
  rewrite Hv in Ew. injection Ew as <-. rewrite Hv' in Ew'. injection Ew' as <-.
  rewrite Ov, Hd in W, W'.
  apply (entry_block_causal self emb_dim hidden_dim context_length num_tokens i);
    try assumption.
  intros j c' Hj Hij Hc'. rewrite <- W, <- W' by assumption. now apply Hfin.
Qed.

(** * The model over floats *)

Lemma valid3 (a b c i j k : nat) :
  i < a -> j < b -> k < c -> valid [a; b; c] [i; j; k].
Proof. intros. repeat constructor; assumption. Qed.

Lemma float_sequential_causal (blocks : list Float.TransformerBlock.t)
  (emb hidden ctx batch n b i : nat) :
  Forall (fun blk => Float.TransformerBlock.wf blk emb hidden ctx) blocks ->
  n <= ctx -> b < batch ->
  forall x x' : Tensor Float.t,
  shape x = [batch; n; emb] -> shape x' = [batch; n; emb] ->
  (forall t k, t < n -> t <= i -> k < emb -> elem x [b; t; k] = elem x' [b; t; k]) ->
  Float.Sequential.values_finite_after b i blocks x ->
  Float.Sequential.values_finite_after b i blocks x' ->
  exists y y',
    Float.Sequential.forward blocks x = Ok y /\
    Float.Sequential.forward blocks x' = Ok y' /\
    shape y = [batch; n; emb] /\ shape y' = [batch; n; emb] /\
    forall t k, t < n -> t <= i -> k < emb -> elem y [b; t; k] = elem y' [b; t; k].
Proof.
  intros Hw Hn Hlt. induction Hw as [|blk blocks Hb _ IH]; intros x x' Hx Hx' Hagree F F'.
  - exists x, x'. repeat split; assumption.
  - cbn [Float.Sequential.forward Float.Sequential.values_finite_after] in *.
    destruct F as [Fv Fy], F' as [Fv' Fy'].
    pose proof Hb as (Ha & Hd & _ & N1 & E1 & _).
    destruct Ha as (_ & _ & _ & _ & Wv & _ & _ & _ & _ & _ & _ & _ & _ & _ & Iv & Ov & _).
    destruct (float_rmsnorm_spec (Float.TransformerBlock.norm1 blk) x [batch; n] N1)
      as (xn & Exn & Sxn & _); [now rewrite E1|].
    destruct (float_rmsnorm_spec (Float.TransformerBlock.norm1 blk) x' [batch; n] N1)
      as (xn' & Exn' & Sxn' & _); [now rewrite E1|].
    rewrite E1, <- Iv in Sxn, Sxn'.
    destruct (float_linear_spec _ xn [batch; n] Wv Sxn) as (v & Ev & Sv & _).
    destruct (float_linear_spec _ xn' [batch; n] Wv Sxn') as (v' & Ev' & Sv' & _).
    rewrite Ov, Hd in Sv, Sv'. cbn [app] in Sv, Sv'.
    destruct (float_block_causal blk x x' xn xn' v v' emb hidden ctx batch n b i
                Hb Hx Hx' Hn Hlt Hagree Exn Exn' Ev Ev')
      as (y & y' & Ey & Ey' & Sy & Sy' & Vy).
    { intros t c Ht Hit Hc. split.
      - apply (Fv xn v t c Exn Ev); [rewrite Sv; apply valid3; assumption|assumption].
      - apply (Fv' xn' v' t c Exn' Ev'); [rewrite Sv'; apply valid3; assumption|assumption]. }
    rewrite Ey, Ey'. cbn [bind].
    apply (IH y y' Sy Sy' Vy (Fy y Ey) (Fy' y' Ey')).
Qed.

Lemma float_model_causal
  (self : Float.Llama2.t) (in_idx in_idx' : Tensor Z) (e e' : Tensor Float.t)
  (vocab_size emb_dim hidden_dim context_length batch num_tokens b i : nat) :
  Float.Llama2.wf self vocab_size emb_dim hidden_dim context_length ->
  shape in_idx = [batch; num_tokens] ->
  shape in_idx' = [batch; num_tokens] ->
  num_tokens <= context_length ->
  b < batch ->
  (forall t, t < num_tokens -> t <= i -> elem in_idx [b; t] = elem in_idx' [b; t]) ->
  Float.Embedding.forward (Float.Llama2.tok_emb self) in_idx = Ok e ->
  Float.Embedding.forward (Float.Llama2.tok_emb self) in_idx' = Ok e' ->
  Float.Sequential.values_finite_after b i (Float.Llama2.trf_blocks self) e ->
  Float.Sequential.values_finite_after b i (Float.Llama2.trf_blocks self) e' ->
  exists logits logits',
    Float.Llama2.forward self in_idx = Ok logits /\
    Float.Llama2.forward self in_idx' = Ok logits' /\
    shape logits = [batch; num_tokens; vocab_size] /\
    shape logits' = [batch; num_tokens; vocab_size] /\
    forall t v, t < num_tokens -> t <= i -> v < vocab_size ->
      elem logits [b; t; v] = elem logits' [b; t; v].
Proof.
  intros (We & Ne & De & Wb & Wn & En & Wh & Bh & Ih & Oh) Hs Hs' Hn Hb Hagree He He' F F'.
  unfold Float.Llama2.forward. rewrite He, He'. cbn [bind].
  assert (Se : shape e = [batch; num_tokens; emb_dim] /\
               forall s t k, elem e [s; t; k]
                 = elem (Float.Embedding.weight (Float.Llama2.tok_emb self))
                     [Z.to_nat (elem in_idx [s; t]); k]).
  { unfold Float.Embedding.forward, Float.embedding in He. rewrite We in He.
    destruct (forallb _ _); [|discriminate]. injection He as <-. cbn [shape elem].
    rewrite Hs, De. split; [reflexivity|]. intros s t k. reflexivity. }
  assert (Se' : shape e' = [batch; num_tokens; emb_dim] /\
                forall s t k, elem e' [s; t; k]
                  = elem (Float.Embedding.weight (Float.Llama2.tok_emb self))
                      [Z.to_nat (elem in_idx' [s; t]); k]).
  { unfold Float.Embedding.forward, Float.embedding in He'. rewrite We in He'.
    destruct (forallb _ _); [|discriminate]. injection He' as <-. cbn [shape elem].
    rewrite Hs', De. split; [reflexivity|]. intros s t k. reflexivity. }
  destruct Se as [Se Ve], Se' as [Se' Ve'].
  destruct (float_sequential_causal (Float.Llama2.trf_blocks self) emb_dim hidden_dim
              context_length batch num_tokens b i Wb Hn Hb e e' Se Se')
    as (x1 & x1' & Ex1 & Ex1' & S1 & S1' & V1); try assumption.
  { intros t k Ht Hti Hk. rewrite Ve, Ve', Hagree by assumption. reflexivity. }
  rewrite Ex1, Ex1'. cbn [bind].
  rewrite <- En in S1, S1'.
  destruct (float_rmsnorm_is3 (Float.Llama2.final_norm self) x1 batch num_tokens _ Wn
              (is3_self x1 _ _ _ S1)) as (x2 & Ex2 & S2 & V2).
  destruct (float_rmsnorm_is3 (Float.Llama2.final_norm self) x1' batch num_tokens _ Wn
              (is3_self x1' _ _ _ S1')) as (x2' & Ex2' & S2' & V2').
  rewrite Ex2, Ex2'. cbn [bind]. rewrite En, <- Ih in S2, S2'.
  destruct (float_linear_is3 (Float.Llama2.out_head self) x2 batch num_tokens _ Wh
              (is3_self x2 _ _ _ S2)) as (lg & El & Sl & Vl).
  destruct (float_linear_is3 (Float.Llama2.out_head self) x2' batch num_tokens _ Wh
              (is3_self x2' _ _ _ S2')) as (lg' & El' & Sl' & Vl').
  rewrite El, El'. cbn [bind]. rewrite Oh in Sl, Sl', Vl, Vl'.
  exists lg, lg'. repeat split; try assumption.
  intros t v Ht Hti Hv. rewrite Vl, Vl' by assumption.
  apply entry_linear_ext. intros k Hk. rewrite Ih in Hk.
  rewrite V2, V2' by (rewrite ?En; assumption).
  apply entry_rms_norm_ext; [|now rewrite En].
  intros j Hj. rewrite En in Hj. now apply V1.
Qed.

(** * A float block run by hand *)

Lemma finfo_max_ge (dtype : Torch.dtype) : (2 ^ 15 <= Float.finfo_max dtype)%R.
Proof.
  assert (P : forall n, 15 <= n -> (2 ^ 15 <= 2 ^ n)%R)
    by (intros n Hn; apply Rle_pow; [lra|lia]).
  assert (Q : forall n, (0 < / 2 ^ n <= 1)%R).
  { intros n. assert (1 <= 2 ^ n)%R by (apply pow_R1_Rle; lra).
    split; [apply Rinv_0_lt_compat; lra|].
    rewrite <- Rinv_1. apply Rinv_le_contravar; lra. }
  assert (Z : (0 < 2 ^ 15)%R) by (apply pow_lt; lra).
  destruct dtype; unfold Float.finfo_max.
  - pose proof (P 127 ltac:(lia)). pose proof (Q 23). nra.
  - pose proof (P 127 ltac:(lia)). pose proof (Q 7). nra.
  - pose proof (Q 10). nra.
  - pose proof (P 1023 ltac:(lia)). pose proof (Q 52). nra.
Qed.

Lemma round_to (dtype : Torch.dtype) (r r' : R) :
  r = r' -> (Rabs r' <= 2 ^ 15)%R -> Float.round dtype r = Float.Num r'.
Proof.
  intros -> H. apply round_id. cbn. pose proof (finfo_max_ge dtype). lra.
Qed.

Lemma mul_one_r (dtype : Torch.dtype) (a : Float.t) :
  Float.representable dtype a -> Float.mul dtype a (Float.Num 1) = a.
Proof.
  destruct a; intros H; cbn; unfold Float.scale_inf; try reflexivity.
  - rewrite Rmult_1_r. now apply round_id.
  - destruct (Req_dec_T 1 0); [lra|]. destruct (Rlt_dec 0 1); [reflexivity|lra].
  - destruct (Req_dec_T 1 0); [lra|]. destruct (Rlt_dec 0 1); [reflexivity|lra].
Qed.

Lemma sqrt_pow2_30 : sqrt (2 ^ 30) = (2 ^ 15)%R.
Proof.
  apply sqrt_lem_1; [apply pow_le; lra|apply pow_le; lra|].
  rewrite <- pow_add. reflexivity.
Qed.

(** [rsqrt] of a number that is not too small is a number. *)
Lemma rsqrt_finite (dtype : Torch.dtype) (r : R) :
  (/ 2 ^ 30 <= r)%R ->
  exists c, Float.rsqrt dtype (Float.Num r) = Float.Num c /\
            Float.representable dtype (Float.Num c).
Proof.
  intros H.
  assert (P : (0 < 2 ^ 30)%R) by (apply pow_lt; lra).
  assert (P' : (0 < / 2 ^ 30)%R) by now apply Rinv_0_lt_compat.
  assert (Q : (0 < 2 ^ 15)%R) by (apply pow_lt; lra).
  cbn. destruct (Rlt_dec r 0); [lra|]. destruct (Req_dec_T r 0); [lra|].
  assert (S : (/ 2 ^ 15 <= sqrt r)%R).
  { rewrite <- sqrt_pow2_30, <- sqrt_inv. now apply sqrt_le_1_alt. }
  assert (Q' : (0 < / 2 ^ 15)%R) by now apply Rinv_0_lt_compat.
  exists (1 / sqrt r)%R.
  assert (B : (Rabs (1 / sqrt r) <= 2 ^ 15)%R).
  { rewrite Rabs_right.
    - unfold Rdiv. rewrite Rmult_1_l. rewrite <- (Rinv_inv (2 ^ 15)).
      apply Rinv_le_contravar; assumption.
    - apply Rle_ge. unfold Rdiv. rewrite Rmult_1_l. left. apply Rinv_0_lt_compat. lra. }
  split.
  - now apply round_to.
  - cbn. pose proof (finfo_max_ge dtype). lra.
Qed.

Lemma round_small (dtype : Torch.dtype) (r : R) :
  (Rabs r <= 16)%R -> Float.round dtype r = Float.Num r.
Proof.
  intros H. apply round_to; [reflexivity|].
  assert (16 <= 2 ^ 15)%R by (simpl; lra). lra.
Qed.

Lemma rsqrt_of_eps (dtype : Torch.dtype) (r : R) :
  (1 / 1000000 <= r)%R ->
  exists c, Float.rsqrt dtype (Float.Num r) = Float.Num c /\
            Float.representable dtype (Float.Num c).
Proof.
  intros H. apply rsqrt_finite.
  assert (1000000 <= 2 ^ 30)%R by (simpl; lra).
  assert (0 < 2 ^ 30)%R by (apply pow_lt; lra).
  apply Rle_trans with (1 / 1000000)%R; [|assumption].
  unfold Rdiv. rewrite Rmult_1_l. apply Rinv_le_contravar; lra.
Qed.

(** The first norm of [Example.float_block] on a token of zeros and ones
    gives numbers. *)
Lemma float_block_norm (v : nat -> Float.t) (a b : R) (k : nat) :
  v 0 = Float.Num a -> v 1 = Float.Num b ->
  (a = 0 \/ a = 1)%R -> (b = 0 \/ b = 1)%R -> k < 2 ->
  exists c,
    Float.Entry.rms_norm (Float.TransformerBlock.norm1 Example.float_block) v k = Float.Num c.
Proof.
  intros H0 H1 Ha Hb Hk.
  change (Float.TransformerBlock.norm1 Example.float_block)
    with (Float.RMSNorm.of_real Torch.float32 (RMSNorm.init 2 RMSNorm.default_eps)).
  unfold Float.Entry.rms_norm.
  cbn [Float.RMSNorm.of_real Float.RMSNorm.dtype Float.RMSNorm.embd_dim Float.RMSNorm.eps
       Float.RMSNorm.weight RMSNorm.init RMSNorm.eps RMSNorm.embd_dim RMSNorm.weight
       Float.of_real Torch.map Torch.ones elem Float.sum INR].
  rewrite H0, H1. cbn [Float.mul Float.add Float.div].
  rewrite (round_small _ (a * a)) by (apply Rabs_le; nra).
  rewrite (round_small _ (0 + a * a)) by (apply Rabs_le; nra).
  rewrite (round_small _ (b * b)) by (apply Rabs_le; nra).
  cbn [Float.add].
  rewrite (round_small _ (0 + a * a + b * b)) by (apply Rabs_le; nra).
  cbn [Float.div]. destruct (Req_dec_T (1 + 1) 0); [lra|].
  rewrite (round_small _ ((0 + a * a + b * b) / (1 + 1))) by (apply Rabs_le; nra).
  cbn [Float.add]. unfold RMSNorm.default_eps.
  rewrite (round_small _ ((0 + a * a + b * b) / (1 + 1) + 1 / 100000))
    by (apply Rabs_le; nra).
  destruct (rsqrt_of_eps Torch.float32 ((0 + a * a + b * b) / (1 + 1) + 1 / 100000))
    as (c & Ec & Rc); [nra|].
  rewrite Ec.
  assert (Hv : v k = Float.Num 0 \/ v k = Float.Num 1).
  { destruct k as [|[|k]]; [rewrite H0|rewrite H1|lia].
    - destruct Ha as [->| ->]; auto.
    - destruct Hb as [->| ->]; auto. }
  destruct Hv as [-> | ->].
  - rewrite mul_zero_finite by exact I. exists 0%R. apply mul_zero_finite. exact I.
  - rewrite mul_one_l by assumption. rewrite mul_one_r by assumption. now exists c.
Qed.

(** The value projection of a layer with zero weights is zero on numbers. *)
Lemma entry_linear_zero (l : Float.Linear.t) (v : nat -> Float.t) (o : nat) :
  Float.Linear.bias l = None ->
  (forall k, k < Float.Linear.in_features l ->
     elem (Float.Linear.weight l) [o; k] = Float.Num 0) ->
  (forall k, k < Float.Linear.in_features l -> Float.is_finite (v k)) ->
  Float.Entry.linear l v o = Float.Num 0.
Proof.
  intros Hb. unfold Float.Entry.linear. rewrite Hb.
  induction (Float.Linear.in_features l) as [|n IH]; intros Hw Hv; [reflexivity|].
  cbn [Float.sum]. rewrite IH; [|intros; apply Hw; lia|intros; apply Hv; lia].
  rewrite Hw by lia. specialize (Hv n (Nat.lt_succ_diag_r n)).
  destruct (v n); try contradiction. cbn.
  rewrite (round_zero _ (r * 0)) by ring. cbn. apply round_zero. ring.
Qed.

Lemma float_block_wf : Float.TransformerBlock.wf Example.float_block 2 2 2.
Proof. repeat split; first [reflexivity | lazy; lia]. Qed.

(** The values of [Example.float_block] on tokens of zeros and ones. *)
Lemma float_block_values (x xn v : Tensor Float.t) (b t c : nat) :
  shape x = [1; 2; 2] ->
  (forall s u k, elem x [s; u; k] = Float.Num 0 \/ elem x [s; u; k] = Float.Num 1) ->
  Float.RMSNorm.forward (Float.TransformerBlock.norm1 Example.float_block) x = Ok xn ->
  Float.Linear.forward
    (Float.MultiHeadedAttention.W_value (Float.TransformerBlock.att Example.float_block)) xn
  = Ok v ->
  valid (shape v) [b; t; c] ->
  Float.is_finite (elem v [b; t; c]).
Proof.
  intros Hx H01 Hxn Hv Hval.
  pose proof float_block_wf as (Ha & Hd & _ & N1 & E1 & _).
  destruct Ha as (_ & _ & _ & _ & Wv & _ & _ & _ & Bv & _ & _ & _ & _ & _ & Iv & Ov & _).
  destruct (float_rmsnorm_is3 (Float.TransformerBlock.norm1 Example.float_block) x 1 2
              (fun i j k => elem x [i; j; k]) N1) as (x1 & Ex1 & X1);
    [rewrite E1; now apply is3_self|].
  rewrite Hxn in Ex1. injection Ex1 as <-.
  rewrite E1, <- Iv in X1.
  destruct (float_linear_is3 _ xn 1 2 _ Wv X1) as (w & Ew & Sw & W).
  rewrite Hv in Ew. injection Ew as <-.
  rewrite Sw in Hval. inversion Hval as [|? ? ? ? Hb Hval1]; subst.
  inversion Hval1 as [|? ? ? ? Ht Hval2]; subst.
  inversion Hval2 as [|? ? ? ? Hc _]; subst.
  rewrite W by assumption.
  rewrite entry_linear_zero; [exact I|assumption|reflexivity|].
  intros k Hk. rewrite Iv in Hk.
  destruct (float_block_norm (fun k0 => elem x [b; t; k0])
              (match elem x [b; t; 0] with Float.Num r => r | _ => 0%R end)
              (match elem x [b; t; 1] with Float.Num r => r | _ => 0%R end) k) as (c' & ->);
    try assumption; try exact I.
  - destruct (H01 b t 0) as [-> | ->]; reflexivity.
  - destruct (H01 b t 1) as [-> | ->]; reflexivity.
  - destruct (H01 b t 0) as [-> | ->]; auto.
  - destruct (H01 b t 1) as [-> | ->]; auto.
Qed.

(** * Further properties of the code *)







(** X4.  [RMSNorm.forward] does not compare the last dimension [k] of its
    input with [embd_dim]; the product with the weight is broadcast.  It
    returns when [k = embd_dim], when [k = 1] (the output then has last
    dimension [embd_dim]) and when [embd_dim = 1]; in every other case it
    raises a [RuntimeError]. *)
Theorem RMSNorm_forward_feature_check (self : RMSNorm.t) (x : Tensor R) (pre : list nat)
  (k : nat) :
  RMSNorm.wf self ->
  shape x = pre ++ [k] ->
  (k = RMSNorm.embd_dim self \/ k = 1 \/ RMSNorm.embd_dim self = 1 ->
   exists y,
     RMSNorm.forward self x = Ok y /\
     shape y = pre ++ [if k =? 1 then RMSNorm.embd_dim self else k]) /\
  (k <> RMSNorm.embd_dim self -> k <> 1 -> RMSNorm.embd_dim self <> 1 ->
   RMSNorm.forward self x = Raise RuntimeError).
Proof.
  intros Hw Hx. unfold RMSNorm.wf in Hw.
  unfold RMSNorm.forward, Torch.mul.
  rewrite (mean_last_keepdim_app (Torch.pow x 2) pre k) by exact Hx.
  erewrite binop_ok by (simpl; rewrite Hx; apply broadcast_keepdim).
  cbn [bind]. unfold Torch.binop. cbn [shape]. rewrite Hw, broadcast_last.
  split.
  - intros H. unfold Torch.bdim.
    destruct (Nat.eqb_spec k (RMSNorm.embd_dim self)) as [E|E].
    + cbn [option_map bind]. eexists. split; [reflexivity|]. cbn [shape Torch.to_dtype].
      destruct (Nat.eqb_spec k 1); congruence.
    + destruct (Nat.eqb_spec k 1) as [E1|E1].
      * cbn [option_map bind]. eexists. split; reflexivity.
      * destruct (Nat.eqb_spec (RMSNorm.embd_dim self) 1) as [E2|E2]; [|tauto].
        cbn [option_map bind]. eexists. split; reflexivity.
  - intros H1 H2 H3. now rewrite bdim_none.
Qed.

Lemma RMSNorm_forward_feature_check_witness :
  (exists y,
     RMSNorm.forward Example.rms (mkTensor [2; 1] (fun _ => 1%R)) = Ok y /\
     shape y = [2; 8]) /\
  RMSNorm.forward Example.rms (mkTensor [2; 4] (fun _ => 1%R)) = Raise RuntimeError.
Proof.
  split.
  - destruct (RMSNorm_forward_feature_check Example.rms (mkTensor [2; 1] (fun _ => 1%R))
                [2] 1 eq_refl eq_refl) as [H _].
    apply H. right. left. reflexivity.
  - destruct (RMSNorm_forward_feature_check Example.rms (mkTensor [2; 4] (fun _ => 1%R))
                [2] 4 eq_refl eq_refl) as [_ H].
    apply H; simpl; lia.
Defined.

(** X5.  [FeedForward.forward] returns, with the shape of its input, when
    the last dimension of the input is [emb_dim], and raises a [RuntimeError]
    otherwise: a linear layer does not broadcast. *)
Theorem FeedForward_forward_feature_check (self : FeedForward.t) (x : Tensor R)
  (pre : list nat) (emb hidden k : nat) :
  FeedForward.wf self emb hidden ->
  shape x = pre ++ [k] ->
  (k = emb -> exists y, FeedForward.forward self x = Ok y /\ shape y = shape x) /\
  (k <> emb -> FeedForward.forward self x = Raise RuntimeError).
Proof.
  intros Hw Hx. split.
  - intros ->.
    destruct (FeedForward_forward_spec self x pre emb hidden Hw Hx) as (y & Ey & Sy & _).
    exists y. split; [exact Ey|congruence].
  - intros Hk. destruct Hw as ([W1 _] & _ & _ & I1 & _).
    unfold FeedForward.forward, Linear.forward, Torch.linear.
    rewrite W1, Hx, last_last.
    destruct (pre ++ [k]) eqn:E; [now destruct pre|].
    destruct (Nat.eqb_spec k (Linear.in_features (FeedForward.fc1 self))) as [Ek|Ek];
      [congruence|reflexivity].
Qed.

Lemma FeedForward_forward_feature_check_witness :
  (exists y, FeedForward.forward Example.ff Example.inputs = Ok y /\
             shape y = shape Example.inputs) /\
  FeedForward.forward Example.ff (mkTensor [2; 4; 4] (fun _ => 1%R)) = Raise RuntimeError.
Proof.
  split.
  - destruct (FeedForward_forward_feature_check Example.ff Example.inputs [2; 4] 8 4 8
                (FeedForward_init_wf _ _ _ _) eq_refl) as [H _].
    apply H. reflexivity.
  - destruct (FeedForward_forward_feature_check Example.ff
                (mkTensor [2; 4; 4] (fun _ => 1%R)) [2; 4] 8 4 4
                (FeedForward_init_wf _ _ _ _) eq_refl) as [_ H].
    apply H. lia.
Defined.







(** X9.  The first position attends to itself only.  On a float input
    with at least one token whose first token has a finite score with itself
    in every head, and whose value projection [v = W_value(x)] is finite at
    every later position, the output of [MultiHeadedAttention.forward] at
    position 0 is [out_proj(v)] at position 0: the first row of the softmax
    is 1 at position 0 and 0 after it. *)
Theorem attention_first_token_sees_itself
  (self : Float.MultiHeadedAttention.t) (x v : Tensor Float.t)
  (d_in context_length batch num_tokens : nat) :
  Float.MultiHeadedAttention.wf self d_in context_length ->
  shape x = [batch; num_tokens; d_in] ->
  num_tokens <= context_length ->
  0 < num_tokens ->
  Float.Linear.forward (Float.MultiHeadedAttention.W_value self) x = Ok v ->
  (forall b t c, b < batch -> 0 < t -> t < num_tokens ->
     c < Float.MultiHeadedAttention.d_out self -> Float.is_finite (elem v [b; t; c])) ->
  (forall b h, b < batch -> h < Float.MultiHeadedAttention.num_heads self ->
     Float.is_finite (Float.Entry.score self (fun t k => elem x [b; t; k]) h 0 0)) ->
  exists y w,
    Float.MultiHeadedAttention.forward self x = Ok y /\
    Float.Linear.forward (Float.MultiHeadedAttention.out_proj self) v = Ok w /\
    forall b c, b < batch -> c < Float.MultiHeadedAttention.d_out self ->
      elem y [b; 0; c] = elem w [b; 0; c].
Proof.
  intros Hwf Hx Hn Hpos Hv Hfin Hscore.
  destruct (float_MHA_forward_spec self x d_in context_length batch num_tokens Hwf Hx Hn)
    as (y & Ey & Sy & Vy).
  destruct Hwf as (Hd & _ & _ & _ & Wv & Wo & _ & _ & _ & _ & _ & _ & _ & _ & Iv & Ov & Io & Oo
                   & _ & _ & Dv & _).
  destruct (float_linear_is3 (Float.MultiHeadedAttention.W_value self) x batch num_tokens
              (fun i j k => elem x [i; j; k]) Wv) as (v0 & Ev & Sv & V);
    [rewrite Iv; now apply is3_self|].
  rewrite Hv in Ev. injection Ev as <-. rewrite Ov in Sv, V. rewrite <- Io in Sv.
  destruct (float_linear_is3 (Float.MultiHeadedAttention.out_proj self) v batch num_tokens
              (fun i j k => elem v [i; j; k]) Wo (is3_self v _ _ _ Sv)) as (w & Ew & _ & W).
  rewrite Oo in W.
  exists y, w. split; [exact Ey|]. split; [exact Ew|].
  intros b c Hb Hc. rewrite Vy, W by assumption.
  unfold Float.Entry.attention. apply entry_linear_ext. intros c' Hc'. rewrite Io in Hc'.
  assert (Hhd : 0 < Float.MultiHeadedAttention.head_dim self).
  { destruct (Float.MultiHeadedAttention.head_dim self); [rewrite Hd in Hc; lia|lia]. }
  assert (Hh : c' / Float.MultiHeadedAttention.head_dim self
               < Float.MultiHeadedAttention.num_heads self).
  { apply Nat.Div0.div_lt_upper_bound. rewrite Hd in Hc'. lia. }
  unfold Float.Entry.concat.
  rewrite entry_context_first; try assumption.
  - unfold Float.Entry.value. rewrite head_split. now rewrite V.
  - now apply Hscore.
  - intros j Hj Hjn. unfold Float.Entry.value. rewrite head_split.
    rewrite <- V by assumption. now apply Hfin.
Qed.

Lemma attention_first_token_sees_itself_witness :
  exists y w,
    Float.MultiHeadedAttention.forward Example.float_mha Example.float_inputs = Ok y /\
    Float.Linear.forward (Float.MultiHeadedAttention.out_proj Example.float_mha)
      Example.float_values = Ok w /\
    forall b c, b < 1 -> c < Float.MultiHeadedAttention.d_out Example.float_mha ->
      elem y [b; 0; c] = elem w [b; 0; c].
Proof.
  apply (attention_first_token_sees_itself Example.float_mha Example.float_inputs
           Example.float_values 2 2 1 2).
  - repeat split; first [reflexivity | lazy; lia].
  - reflexivity.
  - lia.
  - lia.
  - reflexivity.
  - intros b t c Hb Ht Ht2 Hc.
    change (Float.MultiHeadedAttention.d_out Example.float_mha) with 2 in Hc.
    rewrite (float_mha_values Example.float_inputs Example.float_values b t c
               (Float.Num 1) (Float.Num 1)) by (reflexivity || lia).
    destruct c as [|[|c]]; [| |lia]; cbn [Nat.eqb]; fcalc; exact I.
  - intros b h Hb Hh.
    change (Float.MultiHeadedAttention.num_heads Example.float_mha) with 1 in Hh.
    assert (h = 0) as -> by lia.
    rewrite float_mha_score by reflexivity. exact I.
Defined.



(** X11.  [compute_rope] raises a [RuntimeError] on more positions than
    the tables have rows, unless there is one row or one position, because
    the rows cannot be broadcast over the positions; and
    [MultiHeadedAttention.forward] raises a [RuntimeError] on every sequence
    longer than context_length, for a context_length other than 1 (one token
    against a context_length of 0 passes [compute_rope] with no position
    left and fails at the product of the weights with the values). *)
Theorem attention_rejects_long_sequences :
  (forall (x cos sin : Tensor R) (batch num_heads seq_len head_dim rows : nat),
     shape x = [batch; num_heads; seq_len; head_dim] ->
     head_dim mod 2 = 0 ->
     shape cos = [rows; head_dim] ->
     shape sin = [rows; head_dim] ->
     rows < seq_len -> rows <> 1 -> seq_len <> 1 ->
     compute_rope x cos sin = Raise RuntimeError) /\
  (forall (self : MultiHeadedAttention.t) (x : Tensor R)
          (d_in context_length batch num_tokens : nat),
     MultiHeadedAttention.wf self d_in context_length ->
     shape x = [batch; num_tokens; d_in] ->
     context_length < num_tokens -> context_length <> 1 ->
     MultiHeadedAttention.forward self x = Raise RuntimeError).
Proof.
  split.
  - intros x c s b h n hd rows Hx Hev Hc Hs Hlt Hr Hn.
    now apply (compute_rope_too_long x c s b h n hd rows).
  - intros self x d_in ctx b n Hwf Hx Hlt Hc.
    now apply (MHA_forward_too_long self x d_in ctx b n).
Qed.

Lemma attention_rejects_long_sequences_witness :
  compute_rope Example.queries (Torch.ones [3; 16]) (Torch.ones [3; 16]) = Raise RuntimeError /\
  MultiHeadedAttention.forward Example.mha Example.long_inputs = Raise RuntimeError.
Proof.
  destruct attention_rejects_long_sequences as [Hrope Hmha]. split.
  - apply (Hrope Example.queries _ _ 2 4 5 16 3); first [reflexivity | lia].
  - apply (Hmha Example.mha Example.long_inputs 8 5 2 6).
    + example_wf.
    + reflexivity.
    + lia.
    + lia.
Defined.

(** X12.  With context_length = 1 [MultiHeadedAttention.forward] accepts a
    sequence of any length: the one-row cos and sin tables and the 1 x 1 mask
    are broadcast, so no vector is rotated and no score is masked, and the
    output is plain softmax attention over all positions. *)
Theorem attention_with_unit_context_is_unmasked
  (self : MultiHeadedAttention.t) (x : Tensor R) (d_in batch num_tokens : nat) :
  MultiHeadedAttention.wf self d_in 1 ->
  shape x = [batch; num_tokens; d_in] ->
  1 <= num_tokens ->
  exists y,
    MultiHeadedAttention.forward self x = Ok y /\
    shape y = [batch; num_tokens; MultiHeadedAttention.d_out self] /\
    forall b t c, b < batch -> t < num_tokens -> c < MultiHeadedAttention.d_out self ->
      let hd := MultiHeadedAttention.head_dim self in
      let xs := fun t' k => elem x [b; t'; k] in
      let q := fun h t' k => Spec.linear (MultiHeadedAttention.W_query self) (xs t') (h * hd + k) in
      let k_ := fun h t' k => Spec.linear (MultiHeadedAttention.W_key self) (xs t') (h * hd + k) in
      let v := fun h t' k => Spec.linear (MultiHeadedAttention.W_value self) (xs t') (h * hd + k) in
      let score := fun h i j => Rsum hd (fun k => (q h i k * k_ h j k)%R) in
      let e := fun h i j => exp (score h i j / sqrt (INR hd)) in
      let weight := fun h i j => (e h i j / Rsum num_tokens (e h i))%R in
      let context := fun h i k => Rsum num_tokens (fun j => (weight h i j * v h j k)%R) in
      elem y [b; t; c]
      = Spec.linear (MultiHeadedAttention.out_proj self)
          (fun c' => context (c' / hd) t (c' mod hd)) c.
Proof.
  intros Hwf Hx Hn.
  destruct Hwf as (Hd & Hev & Wq & Wk & Wv & Wo & _ & _ & _ & _
                   & Iq & Oq & Ik & Ok_ & Iv & Ov & Io & Oo & Hmask & Hrope & _).
  unfold MultiHeadedAttention.forward. rewrite Hx. tsimpl.
  pose proof (is3_self x batch num_tokens d_in Hx) as X.
  destruct (linear_is3 (MultiHeadedAttention.W_query self) x batch num_tokens
              (fun i j k => elem x [i; j; k]) Wq) as (q & Eq & Q);
    [rewrite Iq; exact X|].
  destruct (linear_is3 (MultiHeadedAttention.W_key self) x batch num_tokens
              (fun i j k => elem x [i; j; k]) Wk) as (k & Ek & K);
    [rewrite Ik; exact X|].
  destruct (linear_is3 (MultiHeadedAttention.W_value self) x batch num_tokens
              (fun i j k => elem x [i; j; k]) Wv) as (v & Ev & V);
    [rewrite Iv; exact X|].
  rewrite Oq, Hd in Q. rewrite Ok_, Hd in K. rewrite Ov, Hd in V.
  rewrite Eq, Ek, Ev. tsimpl.
  destruct (view_split q batch num_tokens _ _ _ Q) as (q1 & Eq1 & Q1).
  destruct (view_split k batch num_tokens _ _ _ K) as (k1 & Ek1 & K1).
  destruct (view_split v batch num_tokens _ _ _ V) as (v1 & Ev1 & V1).
  rewrite Eq1, Ek1, Ev1. tsimpl.
  destruct (transpose12_spec q1 _ _ _ _ _ Q1) as (q2 & Eq2 & Q2).
  destruct (transpose12_spec k1 _ _ _ _ _ K1) as (k2 & Ek2 & K2).
  destruct (transpose12_spec v1 _ _ _ _ _ V1) as (v2 & Ev2 & V2).
  rewrite Eq2, Ek2, Ev2. tsimpl.
  destruct (rope_single_row_identity k2 _ _ _ _ _ _ _ _ K2 Hev Hrope Hn) as (k3 & Ek3 & K3).
  destruct (rope_single_row_identity q2 _ _ _ _ _ _ _ _ Q2 Hev Hrope Hn) as (q3 & Eq3 & Q3).
  rewrite Ek3, Eq3. tsimpl.
  destruct (transpose23_spec k3 _ _ _ _ _ K3) as (kt & Ekt & KT).
  rewrite Ekt. tsimpl.
  destruct (matmul_spec q3 kt _ _ _ _ _ _ _ Q3 KT) as (sc & Esc & SC).
  rewrite Esc. tsimpl.
  destruct (mask_bool_single num_tokens _ Hmask Hn) as (mb & Emb & MB).
  unfold bind in Emb.
  destruct (Torch.slice_to 0 num_tokens (Torch.bool_ (MultiHeadedAttention.mask self)))
    as [m0|e]; [|discriminate].
  tsimpl. rewrite Emb. tsimpl.
  destruct (masked_fill_unit_mask sc mb NegInf _ _ _ _ _ _ SC MB) as (ms & Ems & MS).
  rewrite Ems. tsimpl.
  unfold Torch.size_last. rewrite (proj1 K3). tsimpl.
  pose proof (softmax_spec _ _ _ _ _ _
                (map_is4 (Torch.xdiv (sqrt (INR (MultiHeadedAttention.head_dim self)))) ms
                   _ _ _ _ _ MS)) as AW.
  destruct (matmul_spec _ v2 _ _ _ _ _ _ _ AW V2) as (cv & Ecv & CV).
  unfold Torch.xdiv_scalar. rewrite Ecv. tsimpl.
  destruct (transpose12_spec cv _ _ _ _ _ CV) as (cv1 & Ecv1 & CV1).
  rewrite Ecv1. tsimpl.
  destruct (reshape_merge cv1 _ _ _ _ _ CV1) as (cv2 & Ecv2 & CV2).
  rewrite Hd, Ecv2. tsimpl.
  rewrite <- Hd, <- Io in CV2.
  destruct (linear_is3 (MultiHeadedAttention.out_proj self) cv2 batch num_tokens _ Wo CV2)
    as (o & Eo & [So Vo]).
  rewrite Eo. tsimpl. rewrite <- Hd.
  exists o. split; [reflexivity|]. split; [now rewrite So, Oo|].
  intros b t c Hb Ht Hc. cbv zeta. rewrite Vo by (rewrite ?Oo; assumption).
  reflexivity.
Qed.

Lemma attention_with_unit_context_is_unmasked_witness :
  exists y,
    MultiHeadedAttention.forward Example.unit_mha Example.inputs = Ok y /\
    shape y = [2; 4; 8].
Proof.
  destruct (attention_with_unit_context_is_unmasked Example.unit_mha Example.inputs 8 2 4)
    as (y & E & S & _).
  - example_wf.
  - reflexivity.
  - lia.
  - exists y. split; assumption.
Defined.

(** X13.  [TransformerBlock.forward] over floats looks backwards only as
    long as the values its attention layer masks are finite.  For two inputs
    of the same shape whose sequence [b] agrees at every position up to [i],
    and whose value projections [W_value(norm1(x))] are finite at every
    later position of sequence [b], the outputs of sequence [b] agree at
    every position up to [i], whatever the other sequences of the batch
    hold. *)
Theorem TransformerBlock_forward_is_causal
  (self : Float.TransformerBlock.t) (x x' xn xn' v v' : Tensor Float.t)
  (emb_dim hidden_dim context_length batch num_tokens b i : nat) :
  Float.TransformerBlock.wf self emb_dim hidden_dim context_length ->
  shape x = [batch; num_tokens; emb_dim] ->
  shape x' = [batch; num_tokens; emb_dim] ->
  num_tokens <= context_length ->
  b < batch ->
  (forall t k, t < num_tokens -> t <= i -> k < emb_dim ->
     elem x [b; t; k] = elem x' [b; t; k]) ->
  Float.RMSNorm.forward (Float.TransformerBlock.norm1 self) x = Ok xn ->
  Float.RMSNorm.forward (Float.TransformerBlock.norm1 self) x' = Ok xn' ->
  Float.Linear.forward
    (Float.MultiHeadedAttention.W_value (Float.TransformerBlock.att self)) xn = Ok v ->
  Float.Linear.forward
    (Float.MultiHeadedAttention.W_value (Float.TransformerBlock.att self)) xn' = Ok v' ->
  (forall t c, t < num_tokens -> i < t -> c < emb_dim ->
     Float.is_finite (elem v [b; t; c]) /\ Float.is_finite (elem v' [b; t; c])) ->
  exists y y',
    Float.TransformerBlock.forward self x = Ok y /\
    Float.TransformerBlock.forward self x' = Ok y' /\
    shape y = shape y' /\
    forall t c, t < num_tokens -> t <= i -> c < emb_dim ->
      elem y [b; t; c] = elem y' [b; t; c].
Proof.
  intros Hw Hx Hx' Hn Hb Hagree Hxn Hxn' Hv Hv' Hfin.
  destruct (float_block_causal self x x' xn xn' v v' emb_dim hidden_dim context_length
              batch num_tokens b i Hw Hx Hx' Hn Hb Hagree Hxn Hxn' Hv Hv' Hfin)
    as (y & y' & Ey & Ey' & Sy & Sy' & Vy).
  exists y, y'. repeat split; try assumption. congruence.
Qed.

Lemma TransformerBlock_forward_is_causal_witness :
  exists y y',
    Float.TransformerBlock.forward Example.float_block Example.float_inputs = Ok y /\
    Float.TransformerBlock.forward Example.float_block Example.float_inputs' = Ok y' /\
    shape y = shape y' /\
    forall t c, t < 2 -> t <= 0 -> c < 2 -> elem y [0; t; c] = elem y' [0; t; c].
Proof.
  eapply (TransformerBlock_forward_is_causal Example.float_block
            Example.float_inputs Example.float_inputs' _ _ _ _ 2 2 2 1 2 0 0).
  - repeat split; first [reflexivity | lazy; lia].
  - reflexivity.
  - reflexivity.
  - lia.
  - lia.
  - intros t k Ht Hi Hk. destruct t as [|t]; [reflexivity|lia].
  - reflexivity.
  - reflexivity.
  - reflexivity.
  - reflexivity.
  - intros t c Ht Hi Hc. split.
    + eapply (float_block_values Example.float_inputs _ _ 0 t c eq_refl);
        [intros; right; reflexivity|reflexivity|reflexivity|].
      cbn [shape removelast rev app]. apply valid3; first [lia | exact Hc].
    + eapply (float_block_values Example.float_inputs' _ _ 0 t c eq_refl);
        [|reflexivity|reflexivity|].
      * intros s u k. cbn. destruct (u =? 1); auto.
      * cbn [shape removelast rev app]. apply valid3; first [lia | exact Hc].
Defined.

(** X14.  The constructor of [Llama2] returns a well-formed model of
    [n_layers] blocks when [n_layers = 0] or when [n_heads] is positive,
    divides [emb_dim] and leaves an even head dimension; with at least one
    layer it raises a [ZeroDivisionError] for [n_heads = 0] and the
    assertion error of the first block's constructor otherwise. *)
Theorem Llama2_init_outcome (cfg : Config) (i : Llama2.Init) :
  (n_layers cfg = 0 \/
   (0 < n_heads cfg /\ emb_dim cfg mod n_heads cfg = 0 /\
    (emb_dim cfg / n_heads cfg) mod 2 = 0) ->
   exists self,
     Llama2.init cfg i = Ok self /\
     Llama2.wf self (vocab_size cfg) (emb_dim cfg) (hidden_dim cfg) (context_length cfg) /\
     length (Llama2.trf_blocks self) = n_layers cfg) /\
  (0 < n_layers cfg -> n_heads cfg = 0 ->
   Llama2.init cfg i = Raise ZeroDivisionError) /\
  (0 < n_layers cfg -> 0 < n_heads cfg -> emb_dim cfg mod n_heads cfg <> 0 ->
   Llama2.init cfg i
   = Raise (AssertionError "The output dimension (d_out) mus be divisible by n_heads")) /\
  (0 < n_layers cfg -> 0 < n_heads cfg -> emb_dim cfg mod n_heads cfg = 0 ->
   (emb_dim cfg / n_heads cfg) mod 2 = 1 ->
   Llama2.init cfg i = Raise (AssertionError "Embedding dimension must be even")).
Proof.
  repeat apply conj.
  - apply Llama2_init_ok.
  - intros Hl Hn. apply Llama2_init_first_block; [assumption|].
    now apply TransformerBlock_init_zero_heads.
  - intros Hl Hn Hd. apply Llama2_init_first_block; [assumption|].
    now apply TransformerBlock_init_not_divisible.
  - intros Hl Hn Hd Ho. apply Llama2_init_first_block; [assumption|].
    now apply TransformerBlock_init_odd_head.
Qed.

Lemma Llama2_init_outcome_witness :
  (exists self,
     Llama2.init Llama2Config7B Example.llama_draw = Ok self /\
     length (Llama2.trf_blocks self) = 32) /\
  Llama2.init (mkConfig 10 5 6 2 false 1 4) Example.llama_draw
  = Raise (AssertionError "Embedding dimension must be even").
Proof.
  split.
  - destruct (Llama2_init_outcome Llama2Config7B Example.llama_draw) as (H & _).
    destruct H as (self & E & _ & L).
    + right. split; [|split]; [cbn; lia|reflexivity|reflexivity].
    + exists self. split; assumption.
  - destruct (Llama2_init_outcome (mkConfig 10 5 6 2 false 1 4) Example.llama_draw)
      as (_ & _ & _ & H).
    apply H; cbn; lia.
Defined.

(** X15.  On token ids of shape (batch, num_tokens) inside the vocabulary,
    with num_tokens at most context_length, [Llama2.forward] returns logits
    of shape (batch, num_tokens, vocab_size): the rows of the embedding table
    selected by the ids go through the blocks in order, then through
    [final_norm] and [out_head]. *)
Theorem Llama2_forward_computes_logits
  (self : Llama2.t) (in_idx : Tensor Z)
  (vocab_size emb_dim hidden_dim context_length batch num_tokens : nat) :
  Llama2.wf self vocab_size emb_dim hidden_dim context_length ->
  shape in_idx = [batch; num_tokens] ->
  num_tokens <= context_length ->
  (forall b t, b < batch -> t < num_tokens ->
     (0 <= elem in_idx [b; t] < Z.of_nat vocab_size)%Z) ->
  exists logits,
    Llama2.forward self in_idx = Ok logits /\
    shape logits = [batch; num_tokens; vocab_size] /\
    forall b t v, b < batch -> t < num_tokens -> v < vocab_size ->
      let tok_embeds := fun t' k =>
        elem (Embedding.weight (Llama2.tok_emb self)) [Z.to_nat (elem in_idx [b; t']); k] in
      let x := fold_left (fun xs blk => Spec.block blk num_tokens xs)
                 (Llama2.trf_blocks self) tok_embeds in
      elem logits [b; t; v]
      = Spec.linear (Llama2.out_head self)
          (Spec.rms_norm (Llama2.final_norm self) (x t)) v.
Proof.
  intros Hwf Hs Hn Hr.
  destruct (Llama2_forward_spec self in_idx vocab_size emb_dim hidden_dim context_length
              batch num_tokens Hwf Hs Hn Hr) as (lg & El & Sl & Vl).
  exists lg. split; [exact El|]. split; [exact Sl|].
  intros b t v Hb Ht Hv. cbv zeta. now apply Vl.
Qed.

Lemma Llama2_forward_computes_logits_witness :
  exists logits,
    Llama2.forward Example.model Example.tokens = Ok logits /\
    shape logits = [2; 4; 10].
Proof.
  destruct (Llama2_forward_computes_logits Example.model Example.tokens 10 8 4 5 2 4)
    as (lg & E & S & _).
  - example_wf.
  - reflexivity.
  - lia.
  - intros b t Hb Ht. simpl. lia.
  - exists lg. split; assumption.
Defined.

(** X16.  The logits of [Llama2.forward] over floats at a position depend
    on the ids of the same sequence up to that position only, as long as the
    values the attention layers mask are finite: two batches of ids whose
    sequence [b] agrees up to position [i], and for which the value
    projection of every block is finite at the later positions of sequence
    [b] ([Float.Sequential.values_finite_after]), give equal logits for
    sequence [b] up to position [i]. *)
Theorem Llama2_forward_is_causal
  (self : Float.Llama2.t) (in_idx in_idx' : Tensor Z) (e e' : Tensor Float.t)
  (vocab_size emb_dim hidden_dim context_length batch num_tokens b i : nat) :
  Float.Llama2.wf self vocab_size emb_dim hidden_dim context_length ->
  shape in_idx = [batch; num_tokens] ->
  shape in_idx' = [batch; num_tokens] ->
  num_tokens <= context_length ->
  b < batch ->
  (forall t, t < num_tokens -> t <= i -> elem in_idx [b; t] = elem in_idx' [b; t]) ->
  Float.Embedding.forward (Float.Llama2.tok_emb self) in_idx = Ok e ->
  Float.Embedding.forward (Float.Llama2.tok_emb self) in_idx' = Ok e' ->
  Float.Sequential.values_finite_after b i (Float.Llama2.trf_blocks self) e ->
  Float.Sequential.values_finite_after b i (Float.Llama2.trf_blocks self) e' ->
  exists logits logits',
    Float.Llama2.forward self in_idx = Ok logits /\
    Float.Llama2.forward self in_idx' = Ok logits' /\
    shape logits = shape logits' /\
    forall t v, t < num_tokens -> t <= i -> v < vocab_size ->
      elem logits [b; t; v] = elem logits' [b; t; v].
Proof.
  intros Hw Hs Hs' Hn Hb Hagree He He' F F'.
  destruct (float_model_causal self in_idx in_idx' e e' vocab_size emb_dim hidden_dim
              context_length batch num_tokens b i Hw Hs Hs' Hn Hb Hagree He He' F F')
    as (lg & lg' & El & El' & Sl & Sl' & Vl).
  exists lg, lg'. repeat split; try assumption. congruence.
Qed.

Lemma Llama2_forward_is_causal_witness :
  exists logits logits',
    Float.Llama2.forward Example.float_model Example.float_tokens = Ok logits /\
    Float.Llama2.forward Example.float_model Example.float_tokens' = Ok logits' /\
    shape logits = shape logits' /\
    forall t v, t < 2 -> t <= 0 -> v < 2 -> elem logits [0; t; v] = elem logits' [0; t; v].
Proof.
  eapply (Llama2_forward_is_causal Example.float_model Example.float_tokens
            Example.float_tokens' _ _ 2 2 2 2 1 2 0 0).
  - repeat split; repeat constructor; first [reflexivity | lazy; lia].
  - reflexivity.
  - reflexivity.
  - lia.
  - lia.
  - intros t Ht Hi. destruct t as [|t]; [reflexivity|lia].
  - reflexivity.
  - reflexivity.
  - split; [|intros; exact I].
    intros xn v t c Hxn Hv Hval _.
    eapply (float_block_values _ xn v 0 t c);
      [ | |exact Hxn|exact Hv|exact Hval]; [reflexivity|].
    intros s u k. right. reflexivity.
  - split; [|intros; exact I].
    intros xn v t c Hxn Hv Hval _.
    eapply (float_block_values _ xn v 0 t c);
      [ | |exact Hxn|exact Hv|exact Hval]; [reflexivity|].
    intros s u k. cbn. destruct (Z.to_nat (Z.of_nat u) =? 0); auto.
Defined.

(** X17.  [Llama2.forward] raises an [IndexError] as soon as one token id is
    negative or not below vocab_size, whatever the shape of the ids. *)
Theorem Llama2_forward_index_error (self : Llama2.t) (in_idx : Tensor Z)
  (vocab_size emb_dim hidden_dim context_length : nat) (idx : list nat) :
  Llama2.wf self vocab_size emb_dim hidden_dim context_length ->
  valid (shape in_idx) idx ->
  ~ (0 <= elem in_idx idx < Z.of_nat vocab_size)%Z ->
  Llama2.forward self in_idx = Raise IndexError.
Proof.
  intros (We & Ne & _) Hv Hr. unfold Llama2.forward.
  rewrite (Embedding_forward_index_error (Llama2.tok_emb self) in_idx idx We Hv);
    [reflexivity|now rewrite Ne].
Qed.

Lemma Llama2_forward_index_error_witness :
  Llama2.forward Example.model Example.bad_tokens = Raise IndexError.
Proof.
  apply (Llama2_forward_index_error Example.model Example.bad_tokens 10 8 4 5 [1; 3]).
  - example_wf.
  - repeat constructor.
  - simpl. lia.
Defined.

(** X18.  A model with at least one block raises a [ValueError] on ids in
    the vocabulary that are not two-dimensional: the embedding accepts them,
    and the attention layer unpacks the shape of the embedded ids into
    exactly three sizes.  (An id outside the vocabulary is an [IndexError]
    of the embedding before that, whatever the shape.) *)
Theorem Llama2_forward_needs_batch_dimension (self : Llama2.t) (in_idx : Tensor Z)
  (vocab_size emb_dim hidden_dim context_length : nat) :
  Llama2.wf self vocab_size emb_dim hidden_dim context_length ->
  Llama2.trf_blocks self <> [] ->
  length (shape in_idx) <> 2 ->
  (forall idx, valid (shape in_idx) idx ->
     (0 <= elem in_idx idx < Z.of_nat vocab_size)%Z) ->
  Llama2.forward self in_idx = Raise ValueError.
Proof.
  intros (We & Ne & De & Wb & _) Hb Hl Hr. unfold Llama2.forward.
  destruct (Embedding_forward_spec (Llama2.tok_emb self) in_idx We) as (e & Ee & Se & _);
    [now rewrite Ne|].
  rewrite Ee. cbn [bind].
  destruct (Llama2.trf_blocks self) as [|blk rest]; [contradiction|].
  inversion Wb as [|? ? Wblk _]; subst.
  rewrite (Sequential_forward_first blk rest e ValueError); [reflexivity|].
  apply (TransformerBlock_forward_rank blk e (shape in_idx) _ _ _ Wblk); assumption.
Qed.

Lemma Llama2_forward_needs_batch_dimension_witness :
  Llama2.forward Example.model Example.flat_tokens = Raise ValueError.
Proof.
  apply (Llama2_forward_needs_batch_dimension Example.model Example.flat_tokens 10 8 4 5).
  - example_wf.
  - discriminate.
  - simpl. lia.
  - intros idx Hv. inversion Hv as [|i d r1 r2 Hi Hr]; subst. simpl. lia.
Defined.

(** X19.  A model with at least one block raises a [RuntimeError] on ids
    in the vocabulary whose sequences are longer than context_length, for a
    context_length other than 1. *)
Theorem Llama2_forward_rejects_long_sequences (self : Llama2.t) (in_idx : Tensor Z)
  (vocab_size emb_dim hidden_dim context_length batch num_tokens : nat) :
  Llama2.wf self vocab_size emb_dim hidden_dim context_length ->
  Llama2.trf_blocks self <> [] ->
  shape in_idx = [batch; num_tokens] ->
  context_length < num_tokens ->
  context_length <> 1 ->
  (forall b t, b < batch -> t < num_tokens ->
     (0 <= elem in_idx [b; t] < Z.of_nat vocab_size)%Z) ->
  Llama2.forward self in_idx = Raise RuntimeError.
Proof.
  intros (We & Ne & De & Wb & _) Hb Hs Hlt Hc Hr. unfold Llama2.forward.
  destruct (Embedding_forward_spec (Llama2.tok_emb self) in_idx We) as (e & Ee & Se & _).
  { intros idx Hv. rewrite Hs in Hv.
    destruct (valid2_inv batch num_tokens idx Hv) as (i & t & -> & Hi & Ht).
    rewrite Ne. now apply Hr. }
  rewrite Ee. cbn [bind].
  destruct (Llama2.trf_blocks self) as [|blk rest]; [contradiction|].
  inversion Wb as [|? ? Wblk _]; subst.
  rewrite (Sequential_forward_first blk rest e RuntimeError); [reflexivity|].
  apply (TransformerBlock_forward_too_long blk e _ _ _ batch num_tokens Wblk);
    try assumption.
  now rewrite Se, Hs.
Qed.

Lemma Llama2_forward_rejects_long_sequences_witness :
  Llama2.forward Example.model Example.long_tokens = Raise RuntimeError.
Proof.
  apply (Llama2_forward_rejects_long_sequences Example.model Example.long_tokens
           10 8 4 5 2 6).
  - example_wf.
  - discriminate.
  - reflexivity.
  - lia.
  - lia.
  - intros b t Hb Ht. simpl. lia.
Defined.

(** X20.  [Llama2.forward], run on a store, returns the logits the pure
    function computes and leaves every storage it found unchanged: the
    embedding table, the parameters and the mask, cos and sin buffers of
    every block hold the same tensors after the call, and a second call
    returns equal logits. *)
Theorem Llama2_forward_is_pure
  (s : Heap.store) (self : HeapModel.Llama2.t) (in_idx : Tensor Z) (m : Llama2.t)
  (vocab_size emb_dim hidden_dim context_length batch num_tokens : nat) :
  HeapModel.Llama2.load s self = Ok m ->
  Llama2.wf m vocab_size emb_dim hidden_dim context_length ->
  shape in_idx = [batch; num_tokens] ->
  num_tokens <= context_length ->
  (forall b t, b < batch -> t < num_tokens ->
     (0 <= elem in_idx [b; t] < Z.of_nat vocab_size)%Z) ->
  exists logits,
    Llama2.forward m in_idx = Ok logits /\
    Heap.pure_call (HeapModel.Llama2.forward self in_idx) s logits.
Proof.
  intros Hl Hwf Hs Hn Hr.
  destruct (Llama2_forward_spec m in_idx vocab_size emb_dim hidden_dim context_length
              batch num_tokens Hwf Hs Hn Hr) as (y & Ey & _).
  exists y. split; [exact Ey|]. apply pure_call_intro. intros e.
  apply (Llama2_run (s ++ e) self in_idx m y); [now apply Llama2_load_app|exact Ey].
Qed.

Lemma Llama2_forward_is_pure_witness :
  exists logits,
    Llama2.forward Example.small_model Example.tokens = Ok logits /\
    Heap.pure_call (HeapModel.Llama2.forward Example.heap_model Example.tokens)
      Example.model_store logits.
Proof.
  apply (Llama2_forward_is_pure Example.model_store Example.heap_model Example.tokens
           Example.small_model 10 8 4 5 2 4).
  - reflexivity.
  - example_wf.
  - reflexivity.
  - lia.
  - intros b t Hb Ht. simpl. lia.
Defined.

(** X21.  The number of parameters of a constructed model,
    [sum(p.numel() for p in model.parameters())], is
    [2 * vocab_size * emb_dim + emb_dim + n_layers * per_block], where a
    block holds four [emb_dim x emb_dim] projections, three
    [emb_dim x hidden_dim] feed-forward matrices with their biases if
    [ff_bias] is set, and two norm weights. *)
Theorem Llama2_parameter_count (cfg : Config) (i : Llama2.Init) (self : Llama2.t) :
  Llama2.init cfg i = Ok self ->
  let per_block :=
    4 * (emb_dim cfg * emb_dim cfg)
    + 3 * (emb_dim cfg * hidden_dim cfg)
    + (if ff_bias cfg then 2 * hidden_dim cfg + emb_dim cfg else 0)
    + 2 * emb_dim cfg in
  total_params self
  = vocab_size cfg * emb_dim cfg + n_layers cfg * per_block + emb_dim cfg
    + vocab_size cfg * emb_dim cfg.
Proof.
  intros H. cbv zeta. now destruct (Llama2_init_counts cfg i self H) as [Hp _].
Qed.

Lemma Llama2_parameter_count_witness : total_params Example.model = 904.
Proof.
  rewrite (Llama2_parameter_count Example.LlamaConfig Example.llama_draw Example.model);
    reflexivity.
Defined.

(** X22.  [model_memory_size] of a constructed model counts every parameter
    twice (each requires a gradient) and every buffer once (per block the
    mask and the cos and sin tables), times the element size, divided by
    [1024^3]; the estimate for [bfloat16] is half the one for [float32]. *)
Theorem model_memory_size_of_Llama2 (cfg : Config) (i : Llama2.Init) (self : Llama2.t)
  (input_dtype : Torch.dtype) :
  Llama2.init cfg i = Ok self ->
  let buffers_per_block :=
    context_length cfg * context_length cfg
    + 2 * (context_length cfg * (emb_dim cfg / n_heads cfg)) in
  model_memory_size self input_dtype
  = (INR ((2 * total_params self + n_layers cfg * buffers_per_block)
          * Torch.element_size input_dtype) / 1024 ^ 3)%R /\
  model_memory_size self Torch.bfloat16
  = (model_memory_size self Torch.float32 / 2)%R.
Proof.
  intros H. cbv zeta. destruct (Llama2_init_counts cfg i self H) as [_ Hb].
  assert (E : forall dt,
             model_memory_size self dt
             = (INR ((2 * total_params self
                      + n_layers cfg
                        * (context_length cfg * context_length cfg
                           + 2 * (context_length cfg * (emb_dim cfg / n_heads cfg))))
                     * Torch.element_size dt) / 1024 ^ 3)%R).
  { intros dt. unfold model_memory_size.
    rewrite fold_params by apply Llama2_requires_grad.
    fold (total_params self). rewrite Hb. do 3 f_equal. lia. }
  split; [apply E|]. rewrite !E. cbn [Torch.element_size].
  rewrite !mult_INR. simpl (INR 2). simpl (INR 4). field.
Qed.

Lemma model_memory_size_of_Llama2_witness :
  model_memory_size Example.model Torch.float32
  = (INR ((2 * total_params Example.model + 2 * 45) * 4) / 1024 ^ 3)%R.
Proof.
  apply (model_memory_size_of_Llama2 Example.LlamaConfig Example.llama_draw Example.model
           Torch.float32 eq_refl).
Defined.
